(** * Material-request tracker: request-state management core

    A shallow embedding of the client-side core of the tracker, followed by
    the properties proved about it.

    Embedding:
    - [JsString]: user-typed strings and [String.prototype.trim];
    - [Errors]: the error taxonomy of [src/lib/errors/types.ts] and the
      PostgREST parser of [src/lib/errors/parsers.ts];
    - [Domain]: rows, patches, filters, pagination;
    - [Workflow]: the status-transition table and the dropdown that gates
      status changes;
    - [Store]: the effects the hooks perform (connectivity check, remote
      calls, query cache, notifications) as a state-and-exception monad;
    - [Fetch]: the list and single-entity readers and their retry policies;
    - [Mutations]: the create / update / status / delete hooks with their
      optimistic-update callbacks and the mutation life cycle;
    - [Dropdown]: the dropdown wired to the status mutation.

    [Scenario] fixes a small concrete session and [Notions] the vocabulary
    of the statements; the modules after them hold the proofs.

    JavaScript numbers that hold counts and page indices are modelled as [Z]
    (exact for integral values below 2^53); strings typed by the user are
    sequences of UTF-16 code units. The query library (query cache, retryer,
    mutation life cycle) is modelled as far as the hooks rely on it. *)

From Stdlib Require Import String List ZArith Bool Lia Ascii NArith.
Import ListNotations.
Open Scope string_scope.
Open Scope list_scope.
Open Scope Z_scope.

Set Implicit Arguments.

(* ------------------------------------------------------------------ *)
(** ** JavaScript strings typed by the user *)

Module JsString.

(** A string as its UTF-16 code units. *)
Definition t := list N.

Definition of_ascii (s : string) : t :=
  map N_of_ascii (list_ascii_of_string s).

(** ECMAScript [WhiteSpace] and [LineTerminator] code points, the set
    removed by [String.prototype.trim]. *)
Definition isWhiteSpace (c : N) : bool :=
  (N.leb 9 c && N.leb c 13)          (* TAB, LF, VT, FF, CR *)
  || N.eqb c 32                      (* SPACE *)
  || N.eqb c 160                     (* NBSP *)
  || N.eqb c 5760                    (* OGHAM SPACE MARK *)
  || (N.leb 8192 c && N.leb c 8202)  (* EN QUAD .. HAIR SPACE *)
  || N.eqb c 8232 || N.eqb c 8233    (* LS, PS *)
  || N.eqb c 8239 || N.eqb c 8287    (* NNBSP, MMSP *)
  || N.eqb c 12288                   (* IDEOGRAPHIC SPACE *)
  || N.eqb c 65279.                  (* BOM *)

Fixpoint trimStart (s : t) : t :=
  match s with
  | [] => []
  | c :: s' => if isWhiteSpace c then trimStart s' else s
  end.

Definition trimEnd (s : t) : t := rev (trimStart (rev s)).

Definition trim (s : t) : t := trimEnd (trimStart s).

(** Truthiness of a string: non-empty. *)
Definition truthy (s : t) : bool :=
  match s with [] => false | _ => true end.

End JsString.

(* ------------------------------------------------------------------ *)
(** ** Error taxonomy ([src/lib/errors/types.ts]) *)

Module Errors.

Inductive ErrorCode :=
| AUTH_INVALID_CREDENTIALS | AUTH_SESSION_EXPIRED | AUTH_USER_NOT_FOUND
| AUTH_EMAIL_NOT_CONFIRMED | AUTH_EMAIL_ALREADY_EXISTS | AUTH_WEAK_PASSWORD
| AUTH_UNAUTHORIZED
| NETWORK_OFFLINE | NETWORK_TIMEOUT | NETWORK_CONNECTION_FAILED
| DB_INSERT_FAILED | DB_UPDATE_FAILED | DB_DELETE_FAILED | DB_FETCH_FAILED
| DB_NOT_FOUND | DB_CONSTRAINT_VIOLATION | DB_PERMISSION_DENIED
| VALIDATION_FAILED | VALIDATION_REQUIRED_FIELD | VALIDATION_INVALID_FORMAT
| UNKNOWN_ERROR | UNEXPECTED_ERROR | OPERATION_CANCELLED.

(** The string value of each enum member. *)
Definition code_string (c : ErrorCode) : string :=
  match c with
  | AUTH_INVALID_CREDENTIALS => "AUTH_INVALID_CREDENTIALS"
  | AUTH_SESSION_EXPIRED => "AUTH_SESSION_EXPIRED"
  | AUTH_USER_NOT_FOUND => "AUTH_USER_NOT_FOUND"
  | AUTH_EMAIL_NOT_CONFIRMED => "AUTH_EMAIL_NOT_CONFIRMED"
  | AUTH_EMAIL_ALREADY_EXISTS => "AUTH_EMAIL_ALREADY_EXISTS"
  | AUTH_WEAK_PASSWORD => "AUTH_WEAK_PASSWORD"
  | AUTH_UNAUTHORIZED => "AUTH_UNAUTHORIZED"
  | NETWORK_OFFLINE => "NETWORK_OFFLINE"
  | NETWORK_TIMEOUT => "NETWORK_TIMEOUT"
  | NETWORK_CONNECTION_FAILED => "NETWORK_CONNECTION_FAILED"
  | DB_INSERT_FAILED => "DB_INSERT_FAILED"
  | DB_UPDATE_FAILED => "DB_UPDATE_FAILED"
  | DB_DELETE_FAILED => "DB_DELETE_FAILED"
  | DB_FETCH_FAILED => "DB_FETCH_FAILED"
  | DB_NOT_FOUND => "DB_NOT_FOUND"
  | DB_CONSTRAINT_VIOLATION => "DB_CONSTRAINT_VIOLATION"
  | DB_PERMISSION_DENIED => "DB_PERMISSION_DENIED"
  | VALIDATION_FAILED => "VALIDATION_FAILED"
  | VALIDATION_REQUIRED_FIELD => "VALIDATION_REQUIRED_FIELD"
  | VALIDATION_INVALID_FORMAT => "VALIDATION_INVALID_FORMAT"
  | UNKNOWN_ERROR => "UNKNOWN_ERROR"
  | UNEXPECTED_ERROR => "UNEXPECTED_ERROR"
  | OPERATION_CANCELLED => "OPERATION_CANCELLED"
  end.

Definition ErrorCode_eq_dec (a b : ErrorCode) : {a = b} + {a <> b}.
Proof. decide equality. Defined.

(** [a === b] on error codes. *)
Definition code_eqb (a b : ErrorCode) : bool :=
  if ErrorCode_eq_dec a b then true else false.

Inductive ErrorSeverity := LOW | MEDIUM | HIGH | CRITICAL.

(** [String.prototype.startsWith]. *)
Definition startsWith (s p : string) : bool := String.prefix p s.

Record AppErrorOptions := {
  opt_code : ErrorCode;
  opt_message : string;
  opt_userMessage : option string;
  opt_postgrestCode : option string;   (* context.postgrestCode *)
  opt_severity : option ErrorSeverity;
  opt_recoverable : option bool
}.

Record AppError := {
  code : ErrorCode;
  message : string;
  userMessage : string;
  postgrestCode : option string;
  severity : ErrorSeverity;
  recoverable : bool
}.

Definition getDefaultUserMessage (c : ErrorCode) : string :=
  match c with
  | AUTH_INVALID_CREDENTIALS => "Invalid email or password. Please try again."
  | AUTH_SESSION_EXPIRED => "Your session has expired. Please log in again."
  | AUTH_USER_NOT_FOUND => "No account found with this email address."
  | AUTH_EMAIL_NOT_CONFIRMED => "Please verify your email address before logging in."
  | AUTH_EMAIL_ALREADY_EXISTS => "An account with this email already exists."
  | AUTH_WEAK_PASSWORD => "Password is too weak. Please use a stronger password."
  | AUTH_UNAUTHORIZED => "You don't have permission to perform this action."
  | NETWORK_OFFLINE => "You appear to be offline. Please check your internet connection."
  | NETWORK_TIMEOUT => "The request timed out. Please try again."
  | NETWORK_CONNECTION_FAILED => "Unable to connect to the server. Please try again later."
  | DB_INSERT_FAILED => "Failed to save the data. Please try again."
  | DB_UPDATE_FAILED => "Failed to update the data. Please try again."
  | DB_DELETE_FAILED => "Failed to delete the item. Please try again."
  | DB_FETCH_FAILED => "Failed to load the data. Please refresh the page."
  | DB_NOT_FOUND => "The requested item was not found."
  | DB_CONSTRAINT_VIOLATION => "This operation violates data constraints."
  | DB_PERMISSION_DENIED => "You don't have permission to access this data."
  | VALIDATION_FAILED => "Please check your input and try again."
  | VALIDATION_REQUIRED_FIELD => "Please fill in all required fields."
  | VALIDATION_INVALID_FORMAT => "Please check the format of your input."
  | UNKNOWN_ERROR => "An unexpected error occurred. Please try again."
  | UNEXPECTED_ERROR => "Something went wrong. Please try again later."
  | OPERATION_CANCELLED => "The operation was cancelled."
  end.

Definition getDefaultSeverity (c : ErrorCode) : ErrorSeverity :=
  if startsWith (code_string c) "AUTH_" then HIGH
  else if startsWith (code_string c) "NETWORK_" then MEDIUM
  else if startsWith (code_string c) "DB_" then HIGH
  else if startsWith (code_string c) "VALIDATION_" then LOW
  else MEDIUM.

Definition nonRecoverable : list ErrorCode :=
  [AUTH_UNAUTHORIZED; DB_PERMISSION_DENIED].

Definition isRecoverableByDefault (c : ErrorCode) : bool :=
  negb (existsb (code_eqb c) nonRecoverable).

(** [new AppError(options)]: [||] falls back on a missing or empty user
    message and on a missing severity (every severity is a non-empty
    string); [??] falls back on a missing recoverable flag only. *)
Definition new_AppError (o : AppErrorOptions) : AppError :=
  {| code := opt_code o;
     message := opt_message o;
     userMessage :=
       match opt_userMessage o with
       | Some s => if String.eqb s "" then getDefaultUserMessage (opt_code o) else s
       | None => getDefaultUserMessage (opt_code o)
       end;
     postgrestCode := opt_postgrestCode o;
     severity :=
       match opt_severity o with
       | Some s => s
       | None => getDefaultSeverity (opt_code o)
       end;
     recoverable :=
       match opt_recoverable o with
       | Some b => b
       | None => isRecoverableByDefault (opt_code o)
       end |}.

(** A raw error of the remote store ([PostgrestError]). *)
Record PostgrestError := {
  pg_code : string;
  pg_message : string
}.

Inductive Operation := op_insert | op_update | op_delete | op_fetch.

Definition operationCodeMap (op : Operation) : ErrorCode :=
  match op with
  | op_insert => DB_INSERT_FAILED
  | op_update => DB_UPDATE_FAILED
  | op_delete => DB_DELETE_FAILED
  | op_fetch => DB_FETCH_FAILED
  end.

(** [String.prototype.includes]. *)
Fixpoint includes (s sub : string) : bool :=
  String.prefix sub s ||
  match s with
  | EmptyString => false
  | String _ s' => includes s' sub
  end.

Definition parsePostgrestError (e : PostgrestError) (op : Operation) : AppError :=
  let base := (operationCodeMap op, @None string) in
  let switched :=
    if String.eqb (pg_code e) "PGRST116" then
      (DB_NOT_FOUND, Some "The requested item was not found.")
    else if String.eqb (pg_code e) "23505" then
      (DB_CONSTRAINT_VIOLATION, Some "This item already exists.")
    else if String.eqb (pg_code e) "23503" then
      (DB_CONSTRAINT_VIOLATION,
       Some "Cannot complete this operation due to related data.")
    else if String.eqb (pg_code e) "42501" then
      (DB_PERMISSION_DENIED,
       Some "You don't have permission to perform this action.")
    else if String.eqb (pg_code e) "42P01" then
      (DB_FETCH_FAILED,
       Some "A database error occurred. Please contact support.")
    else if String.eqb (pg_code e) "PGRST301" then
      (AUTH_SESSION_EXPIRED,
       Some "Your session has expired. Please log in again.")
    else base in
  let final :=
    if includes (pg_message e) "row-level security" then
      (DB_PERMISSION_DENIED,
       Some "You don't have permission to access this data.")
    else switched in
  new_AppError
    {| opt_code := fst final;
       opt_message := pg_message e;
       opt_userMessage := snd final;
       opt_postgrestCode := Some (pg_code e);
       opt_severity := None;
       opt_recoverable := None |}.

(** What a rejected promise carries: an [AppError], or some other [Error]
    (for instance a [TypeError]) with its message. *)
Inductive Thrown :=
| ThrownApp (e : AppError)
| ThrownOther (name msg : string).

Definition thrown_message (t : Thrown) : string :=
  match t with
  | ThrownApp e => message e
  | ThrownOther _ m => m
  end.

(** The offline error each remote operation throws. *)
Definition offlineError (userMsg : option string) : AppError :=
  new_AppError
    {| opt_code := NETWORK_OFFLINE;
       opt_message := "No internet connection";
       opt_userMessage := userMsg;
       opt_postgrestCode := None;
       opt_severity := None;
       opt_recoverable := Some true |}.

End Errors.

(* ------------------------------------------------------------------ *)
(** ** Data model ([src/lib/supabase/types.ts], feature [types]) *)

Module Domain.

Inductive MaterialRequestStatus := pending | approved | rejected | fulfilled.
Inductive MaterialRequestPriority := low | medium | high | urgent.
Inductive MaterialUnit :=
| kg | m | pieces | liters | tons | cubic_meters | square_meters.

Definition status_string (s : MaterialRequestStatus) : string :=
  match s with
  | pending => "pending" | approved => "approved"
  | rejected => "rejected" | fulfilled => "fulfilled"
  end.

Definition priority_string (p : MaterialRequestPriority) : string :=
  match p with
  | low => "low" | medium => "medium" | high => "high" | urgent => "urgent"
  end.

Definition status_eq_dec (a b : MaterialRequestStatus) : {a = b} + {a <> b}.
Proof. decide equality. Defined.

Definition status_eqb (a b : MaterialRequestStatus) : bool :=
  if status_eq_dec a b then true else false.

Record Profile := {
  profile_id : string;
  email : string;
  full_name : option string
}.

(** A [material_requests] row, with the optional [requester] relation of
    [MaterialRequestWithRelations]. Quantities are kept as integers; no
    arithmetic is done on them. *)
Record MaterialRequest := {
  id : string;
  project_id : option string;
  material_name : string;
  quantity : Z;
  unit : MaterialUnit;
  status : MaterialRequestStatus;
  priority : MaterialRequestPriority;
  requested_by : string;
  requested_at : string;
  notes : option string;
  company_id : string;
  created_at : string;
  updated_at : string;
  requester : option Profile
}.

(** [MaterialRequestUpdate]: every field optional; [u_updated_at] is the
    extra property the writers add before sending. *)
Record MaterialRequestUpdate := {
  u_id : option string;
  u_project_id : option (option string);
  u_material_name : option string;
  u_quantity : option Z;
  u_unit : option MaterialUnit;
  u_status : option MaterialRequestStatus;
  u_priority : option MaterialRequestPriority;
  u_requested_by : option string;
  u_requested_at : option string;
  u_notes : option (option string);
  u_company_id : option string;
  u_updated_at : option string
}.

Record MaterialRequestInsert := {
  i_material_name : string;
  i_quantity : Z;
  i_unit : MaterialUnit;
  i_status : option MaterialRequestStatus;
  i_priority : MaterialRequestPriority;
  i_requested_by : option string;
  i_notes : option string;
  i_project_id : option string;
  i_company_id : option string
}.

Definition or_else {A} (o : option A) (d : A) : A :=
  match o with Some a => a | None => d end.

(** [{ ...request, ...data }]. *)
Definition spread (r : MaterialRequest) (d : MaterialRequestUpdate)
  : MaterialRequest :=
  {| id := or_else (u_id d) (id r);
     project_id := or_else (u_project_id d) (project_id r);
     material_name := or_else (u_material_name d) (material_name r);
     quantity := or_else (u_quantity d) (quantity r);
     unit := or_else (u_unit d) (unit r);
     status := or_else (u_status d) (status r);
     priority := or_else (u_priority d) (priority r);
     requested_by := or_else (u_requested_by d) (requested_by r);
     requested_at := or_else (u_requested_at d) (requested_at r);
     notes := or_else (u_notes d) (notes r);
     company_id := or_else (u_company_id d) (company_id r);
     created_at := created_at r;
     updated_at := or_else (u_updated_at d) (updated_at r);
     requester := requester r |}.

(** [{ ...request, status }]. *)
Definition with_status (r : MaterialRequest) (s : MaterialRequestStatus)
  : MaterialRequest :=
  {| id := id r; project_id := project_id r;
     material_name := material_name r; quantity := quantity r;
     unit := unit r; status := s; priority := priority r;
     requested_by := requested_by r; requested_at := requested_at r;
     notes := notes r; company_id := company_id r;
     created_at := created_at r; updated_at := updated_at r;
     requester := requester r |}.

(** [{ ...data, updated_at: now }]. *)
Definition with_updated_at (d : MaterialRequestUpdate) (now : string)
  : MaterialRequestUpdate :=
  {| u_id := u_id d; u_project_id := u_project_id d;
     u_material_name := u_material_name d; u_quantity := u_quantity d;
     u_unit := u_unit d; u_status := u_status d;
     u_priority := u_priority d; u_requested_by := u_requested_by d;
     u_requested_at := u_requested_at d; u_notes := u_notes d;
     u_company_id := u_company_id d; u_updated_at := Some now |}.

(** The [status] / [priority] filter values: a member of the enum or
    the literal ["all"]. *)
Inductive OrAll (A : Type) := all | only (a : A).
Arguments all {A}.
Arguments only {A} a.

Record MaterialRequestFilters := {
  f_status : option (OrAll MaterialRequestStatus);
  f_priority : option (OrAll MaterialRequestPriority);
  f_search : option JsString.t
}.

Record PaginationParams := { pageIndex : Z; pageSize : Z }.

Inductive Direction := asc | desc.

Record SortingParams := { column : string; direction : Direction }.

Record PaginationMeta := {
  totalCount : Z;
  totalPages : Z;
  currentPage : Z;
  meta_pageSize : Z;
  hasNextPage : bool;
  hasPreviousPage : bool
}.

Record PaginatedResponse := {
  data : list MaterialRequest;
  pagination : PaginationMeta
}.

(** The variables of a status mutation. *)
Record UpdateStatusParams := {
  s_id : string;
  s_status : MaterialRequestStatus
}.

Definition DEFAULT_PAGE_SIZE : Z := 10.

Definition DEFAULT_SORTING : SortingParams :=
  {| column := "requested_at"; direction := desc |}.

End Domain.

(* ------------------------------------------------------------------ *)
(** ** Status workflow ([constants], [status-update-dropdown]) *)

Module Workflow.
Import Domain.

(** Status transition rules: the valid next states of each status. *)
Definition STATUS_TRANSITIONS (s : MaterialRequestStatus)
  : list MaterialRequestStatus :=
  match s with
  | pending => [approved; rejected]
  | approved => [fulfilled; rejected]
  | rejected => [pending]
  | fulfilled => []
  end.

(** The component state: [confirmDialog]. *)
Record ConfirmDialog := {
  open : bool;
  targetStatus : option MaterialRequestStatus
}.

Definition initialDialog : ConfirmDialog :=
  {| open := false; targetStatus := None |}.

(** What [StatusUpdateDropdown] renders for a row: the bare badge when the
    status has no transitions, otherwise a menu with one item per available
    transition together with the confirmation dialog. *)
Inductive Rendered :=
| BadgeOnly
| MenuAndDialog (items : list MaterialRequestStatus) (dialog : ConfirmDialog).

Definition render (currentStatus : MaterialRequestStatus) (st : ConfirmDialog)
  : Rendered :=
  let availableTransitions := STATUS_TRANSITIONS currentStatus in
  let hasTransitions := Nat.ltb 0 (length availableTransitions) in
  if negb hasTransitions then BadgeOnly
  else MenuAndDialog availableTransitions st.

(** User gestures on the rendered component. *)
Inductive Gesture :=
| ClickItem (s : MaterialRequestStatus)   (* a [DropdownMenuItem] *)
| Confirm                                  (* the dialog's confirm button *)
| Dismiss.                                 (* [onOpenChange(false)] *)

Definition handleStatusClick (s : MaterialRequestStatus) : ConfirmDialog :=
  {| open := true; targetStatus := Some s |}.

Definition handleConfirm (requestId : string) (st : ConfirmDialog)
  : list UpdateStatusParams :=
  match targetStatus st with
  | Some s => [{| s_id := requestId; s_status := s |}]
  | None => []
  end.

(** One gesture: [None] when the rendered tree has no such element to act
    on, otherwise the next component state and the [mutate] calls made. *)
Definition gesture (requestId : string) (currentStatus : MaterialRequestStatus)
    (st : ConfirmDialog) (g : Gesture)
  : option (ConfirmDialog * list UpdateStatusParams) :=
  match render currentStatus st with
  | BadgeOnly => None
  | MenuAndDialog items dialog =>
      match g with
      | ClickItem s =>
          if existsb (status_eqb s) items
          then Some (handleStatusClick s, [])
          else None
      | Confirm =>
          if open dialog then Some (st, handleConfirm requestId st) else None
      | Dismiss =>
          Some ({| open := false; targetStatus := targetStatus st |}, [])
      end
  end.

(** A sequence of gestures from a given component state, collecting the
    [mutate] calls in order. *)
Fixpoint gestures (requestId : string) (currentStatus : MaterialRequestStatus)
    (st : ConfirmDialog) (gs : list Gesture)
  : option (ConfirmDialog * list UpdateStatusParams) :=
  match gs with
  | [] => Some (st, [])
  | g :: gs' =>
      match gesture requestId currentStatus st g with
      | None => None
      | Some (st1, calls1) =>
          match gestures requestId currentStatus st1 gs' with
          | None => None
          | Some (st2, calls2) => Some (st2, calls1 ++ calls2)
          end
      end
  end.

(** Requesting the transition to [target]: pick it in the menu of a freshly
    mounted dropdown and confirm. *)
Definition pick_and_confirm (requestId : string)
    (currentStatus target : MaterialRequestStatus)
  : option (ConfirmDialog * list UpdateStatusParams) :=
  gestures requestId currentStatus initialDialog [ClickItem target; Confirm].

End Workflow.

(* ------------------------------------------------------------------ *)
(** ** Effects: connectivity, remote store, query cache, notifications *)

Module Store.
Import Errors Domain.

(** *** Query keys ([QUERY_KEYS]) *)

Record Descriptor := {
  d_filters : option MaterialRequestFilters;
  d_pagination : option PaginationParams;
  d_sorting : option SortingParams
}.

(** One element of a query-key array: a string, or the
    [{ filters, pagination, sorting }] object of a list key. *)
Inductive KeyPart :=
| KStr (s : string)
| KDesc (d : Descriptor).

Definition QueryKey := list KeyPart.

Module QUERY_KEYS.
Definition materialRequests : QueryKey := [KStr "material-requests"].
Definition materialRequestsList (f : option MaterialRequestFilters)
    (p : option PaginationParams) (s : option SortingParams) : QueryKey :=
  [KStr "material-requests"; KStr "list";
   KDesc {| d_filters := f; d_pagination := p; d_sorting := s |}].
Definition materialRequest (id : string) : QueryKey :=
  [KStr "material-requests"; KStr "detail"; KStr id].
Definition projects : QueryKey := [KStr "projects"].
Definition profile : QueryKey := [KStr "profile"].
End QUERY_KEYS.

Definition KeyPart_eq_dec (a b : KeyPart) : {a = b} + {a <> b}.
Proof.
  repeat decide equality; try apply string_dec; try apply Z.eq_dec.
Defined.

Definition QueryKey_eq_dec : forall a b : QueryKey, {a = b} + {a <> b} :=
  list_eq_dec KeyPart_eq_dec.

(** Two keys name the same query when they hash alike, that is when they
    are equal by value. *)
Definition key_eqb (a b : QueryKey) : bool :=
  if QueryKey_eq_dec a b then true else false.

Definition part_eqb (a b : KeyPart) : bool :=
  if KeyPart_eq_dec a b then true else false.

(** [partialMatchKey(queryKey, filterKey)]: every index of the filter key
    matches the query key at that index. The hooks only ever filter by keys
    made of strings, on which the element match is [===]. *)
Fixpoint partialMatchKey (a b : QueryKey) : bool :=
  match b with
  | [] => true
  | pb :: b' =>
      match a with
      | [] => false
      | pa :: a' => part_eqb pa pb && partialMatchKey a' b'
      end
  end.

(** *** Cached values *)

(** The shapes a cached value takes: an array of rows (what the mutation
    hooks' type annotations expect), the paginated response stored by the
    list reader, the single row stored by the detail reader, and the plain
    object [{ ...base, ...patch }] built from a value that is not a row. *)
Inductive CacheData :=
| DArray (rows : list MaterialRequest)
| DPage (page : PaginatedResponse)
| DEntity (row : MaterialRequest)
| DSpread (base : CacheData) (patch : MaterialRequestUpdate).

(** [Array.isArray]. *)
Definition isArray (d : option CacheData) : bool :=
  match d with Some (DArray _) => true | _ => false end.

Record QueryEntry := {
  q_key : QueryKey;
  q_data : option CacheData;       (* [state.data]; [None] is [undefined] *)
  q_invalidated : bool             (* [state.isInvalidated] *)
}.

Definition QueryCache := list QueryEntry.

Definition find_query (k : QueryKey) (c : QueryCache) : option QueryEntry :=
  find (fun e => key_eqb (q_key e) k) c.

Definition getQueryData_in (c : QueryCache) (k : QueryKey) : option CacheData :=
  match find_query k c with
  | Some e => q_data e
  | None => None
  end.

(** [queryCache.build(...).setData(d)]: the query of that key, created at
    the end of the cache when absent, gets the data and is no longer
    invalidated. *)
Fixpoint set_data (k : QueryKey) (d : CacheData) (c : QueryCache) : QueryCache :=
  match c with
  | [] => [{| q_key := k; q_data := Some d; q_invalidated := false |}]
  | e :: c' =>
      if key_eqb (q_key e) k
      then {| q_key := q_key e; q_data := Some d; q_invalidated := false |} :: c'
      else e :: set_data k d c'
  end.

Definition findAll (filterKey : QueryKey) (c : QueryCache) : list QueryEntry :=
  filter (fun e => partialMatchKey (q_key e) filterKey) c.

Definition invalidate (filterKey : QueryKey) (c : QueryCache) : QueryCache :=
  map (fun e =>
         if partialMatchKey (q_key e) filterKey
         then {| q_key := q_key e; q_data := q_data e; q_invalidated := true |}
         else e) c.

(** *** Remote store *)

Record Constraint := {
  c_operator : string;         (* "eq" or "ilike" *)
  c_column : string;
  c_text : string;             (* value of an [eq] *)
  c_pattern : JsString.t       (* pattern of an [ilike] *)
}.

Definition eq_ (col val : string) : Constraint :=
  {| c_operator := "eq"; c_column := col; c_text := val; c_pattern := [] |}.

Definition ilike (col : string) (pat : JsString.t) : Constraint :=
  {| c_operator := "ilike"; c_column := col; c_text := ""; c_pattern := pat |}.

(** The list query as the builder leaves it. *)
Record Query := {
  q_table : string;
  q_count : string;
  q_order : string;
  q_ascending : bool;
  q_from : Z;
  q_to : Z;
  q_constraints : list Constraint
}.

Inductive RemoteCall :=
| SelectList (q : Query)
| SelectProfilesIn (ids : list string)
| SelectSingle (id : string)
| SelectProfile (id : string)
| InsertRow (row : MaterialRequestInsert)
| UpdateRow (id : string) (patch : MaterialRequestUpdate)
| DeleteRow (id : string).

Record Resp (A : Type) := {
  r_data : option A;
  r_error : option PostgrestError;
  r_count : option Z
}.

(** The answers of the remote store; the first argument is the number of
    remote calls issued before this one, so that answers may change over
    time. *)
Record Remote := {
  select_list : nat -> Query -> Resp (list MaterialRequest);
  select_profiles_in : nat -> list string -> Resp (list Profile);
  select_single : nat -> string -> Resp MaterialRequest;
  select_profile : nat -> string -> Resp Profile;
  insert_row : nat -> MaterialRequestInsert -> Resp MaterialRequest;
  update_row : nat -> string -> MaterialRequestUpdate -> Resp MaterialRequest;
  delete_row : nat -> string -> Resp Datatypes.unit
}.

(** *** Observable effects *)

Inductive Event :=
| EvRemote (c : RemoteCall)
| EvQueryFn                                  (* the retryer runs the query function *)
| EvSleep (ms : Z)                           (* a retry delay *)
| EvWarn (msg : string)                      (* [console.warn] *)
| EvLog (e : AppError)                       (* [logError] *)
| EvToast (title : string) (e : AppError)    (* [toast.error] *)
| EvOnError (e : AppError)                   (* [options.onError] *)
| EvOnSuccess.                               (* [options.onSuccess] *)

(** An effect together with the cache an observer reads at that instant. *)
Record Stamped := { ev : Event; seen : QueryCache }.

Record World := {
  onLine : bool;               (* [navigator.onLine] *)
  now : string;                (* [new Date().toISOString()] *)
  remote : Remote;
  cache : QueryCache;
  trace : list Stamped         (* oldest first *)
}.

Definition is_remote (s : Stamped) : bool :=
  match ev s with EvRemote _ => true | _ => false end.

Definition remote_calls (w : World) : list Stamped := filter is_remote (trace w).

(** *** The monad: state that survives a throw *)

Definition M (A : Type) := World -> (Thrown + A) * World.

Definition ret {A} (a : A) : M A := fun w => (inr a, w).

Definition throw {A} (t : Thrown) : M A := fun w => (inl t, w).

Definition bind {A B} (m : M A) (k : A -> M B) : M B :=
  fun w =>
    match m w with
    | (inl t, w1) => (inl t, w1)
    | (inr a, w1) => k a w1
    end.

Declare Scope m_scope.
Delimit Scope m_scope with M.
Notation "x <- m ;; k" := (bind m (fun x => k))
  (at level 61, m at next level, right associativity) : m_scope.
Notation "m ;; k" := (bind m (fun _ => k))
  (at level 61, right associativity) : m_scope.
Open Scope m_scope.

Definition with_cache (w : World) (c : QueryCache) : World :=
  {| onLine := onLine w; now := now w; remote := remote w;
     cache := c; trace := trace w |}.

Definition with_event (w : World) (e : Event) : World :=
  {| onLine := onLine w; now := now w; remote := remote w;
     cache := cache w;
     trace := trace w ++ [{| ev := e; seen := cache w |}] |}.

Definition emit (e : Event) : M Datatypes.unit := fun w => (inr tt, with_event w e).

Definition navigator_onLine : M bool := fun w => (inr (onLine w), w).

Definition date_now : M string := fun w => (inr (now w), w).

(** A remote call: logged, then answered by the store. *)
Definition call {A} (c : RemoteCall) (answer : Remote -> nat -> Resp A)
  : M (Resp A) :=
  fun w =>
    let n := length (remote_calls w) in
    (inr (answer (remote w) n), with_event w (EvRemote c)).

(** *** Query-client operations *)

Definition getQueryData (k : QueryKey) : M (option CacheData) :=
  fun w => (inr (getQueryData_in (cache w) k), w).

(** [setQueryData(key, updater)] with a function updater, which may throw;
    an [undefined] result leaves the cache alone. *)
Definition setQueryData (k : QueryKey)
    (updater : option CacheData -> Thrown + option CacheData)
  : M (option CacheData) :=
  fun w =>
    let prevData := getQueryData_in (cache w) k in
    match updater prevData with
    | inl t => (inl t, w)
    | inr None => (inr None, w)
    | inr (Some d) => (inr (Some d), with_cache w (set_data k d (cache w)))
    end.

(** [setQueryData(key, value)]. *)
Definition setQueryData_value (k : QueryKey) (d : option CacheData)
  : M (option CacheData) :=
  setQueryData k (fun _ => inr d).

Fixpoint forEach {A} (l : list A) (f : A -> M Datatypes.unit) : M Datatypes.unit :=
  match l with
  | [] => ret tt
  | a :: l' => f a ;; forEach l' f
  end.

(** [setQueriesData({ queryKey }, updater)]: every query matching now. *)
Definition setQueriesData (filterKey : QueryKey)
    (updater : option CacheData -> Thrown + option CacheData) : M Datatypes.unit :=
  fun w =>
    forEach (findAll filterKey (cache w))
            (fun e => setQueryData (q_key e) updater ;; ret tt) w.

(** [getQueriesData({ queryKey })]: the [[key, data]] pairs matching now. *)
Definition getQueriesData (filterKey : QueryKey)
  : M (list (QueryKey * option CacheData)) :=
  fun w =>
    (inr (map (fun e => (q_key e, q_data e)) (findAll filterKey (cache w))), w).

(** [invalidateQueries({ queryKey })] marks every matching query
    invalidated, so each is stale and refetched when next read. *)
Definition invalidateQueries (filterKey : QueryKey) : M Datatypes.unit :=
  fun w => (inr tt, with_cache w (invalidate filterKey (cache w))).

(** [cancelQueries]: no fetch is in flight while a callback runs here. *)
Definition cancelQueries (filterKey : QueryKey) : M Datatypes.unit := ret tt.

End Store.

(* ------------------------------------------------------------------ *)
(** ** Readers ([use-material-requests.ts]) *)

Module Fetch.
Import Errors Domain Store.

(** [Math.ceil(a / b)] on integers, for [b <> 0]. At [b = 0] JavaScript
    gives [Infinity] or [NaN], which this integer does not represent: what
    is proved of it below assumes [0 < b]. *)
Definition ceil_div (a b : Z) : Z := - ((- a) / b).

(** [[...new Set(l)]]: first occurrences, in order. *)
Fixpoint uniq (l : list string) : list string :=
  match l with
  | [] => []
  | x :: l' => x :: filter (fun y => negb (String.eqb y x)) (uniq l')
  end.

(** [new Map(profiles.map(p => [p.id, p])).get(id)]: a later profile of
    the same id replaces an earlier one. *)
Definition profileMap_get (profiles : list Profile) (id : string)
  : option Profile :=
  find (fun p => String.eqb (profile_id p) id) (rev profiles).

Definition with_requester (r : MaterialRequest) (p : option Profile)
  : MaterialRequest :=
  {| id := id r; project_id := project_id r;
     material_name := material_name r; quantity := quantity r;
     unit := unit r; status := status r; priority := priority r;
     requested_by := requested_by r; requested_at := requested_at r;
     notes := notes r; company_id := company_id r;
     created_at := created_at r; updated_at := updated_at r;
     requester := p |}.

Definition percent : N := 37.

(** The filters the builder adds, in source order. *)
Definition statusConstraint (filters : option MaterialRequestFilters)
  : list Constraint :=
  match filters with
  | Some f =>
      match f_status f with
      | Some (only s) => [eq_ "status" (status_string s)]
      | Some all | None => []
      end
  | None => []
  end.

Definition priorityConstraint (filters : option MaterialRequestFilters)
  : list Constraint :=
  match filters with
  | Some f =>
      match f_priority f with
      | Some (only p) => [eq_ "priority" (priority_string p)]
      | Some all | None => []
      end
  | None => []
  end.

Definition searchConstraint (filters : option MaterialRequestFilters)
  : list Constraint :=
  match filters with
  | Some f =>
      match f_search f with
      | Some search =>
          if JsString.truthy search && JsString.truthy (JsString.trim search)
          then [ilike "material_name"
                      (percent :: JsString.trim search ++ [percent])]
          else []
      | None => []
      end
  | None => []
  end.

Definition buildQuery (filters : option MaterialRequestFilters)
    (pagination : option PaginationParams) (sorting : option SortingParams)
  : Query :=
  let pageIndex := match pagination with Some p => pageIndex p | None => 0 end in
  let pageSize :=
    match pagination with Some p => pageSize p | None => DEFAULT_PAGE_SIZE end in
  let sortColumn :=
    match sorting with Some s => column s | None => column DEFAULT_SORTING end in
  let sortDirection :=
    match sorting with
    | Some s => direction s
    | None => direction DEFAULT_SORTING
    end in
  let from := pageIndex * pageSize in
  let to := from + pageSize - 1 in
  {| q_table := "material_requests";
     q_count := "exact";
     q_order := sortColumn;
     q_ascending := match sortDirection with asc => true | desc => false end;
     q_from := from;
     q_to := to;
     q_constraints :=
       statusConstraint filters ++ priorityConstraint filters
       ++ searchConstraint filters |}.

Definition fetchMaterialRequests (filters : option MaterialRequestFilters)
    (pagination : option PaginationParams) (sorting : option SortingParams)
  : M PaginatedResponse :=
  online <- navigator_onLine ;;
  if negb online then
    throw (ThrownApp (offlineError (Some
      "You appear to be offline. Please check your connection and try again.")))
  else
    let pageIndex :=
      match pagination with Some p => pageIndex p | None => 0 end in
    let pageSize :=
      match pagination with
      | Some p => pageSize p
      | None => DEFAULT_PAGE_SIZE
      end in
    let query := buildQuery filters pagination sorting in
    resp <- call (SelectList query) (fun r n => select_list r n query) ;;
    match r_error resp with
    | Some error => throw (ThrownApp (parsePostgrestError error op_fetch))
    | None =>
        let totalCount := or_else (r_count resp) 0 in
        match r_data resp with
        | None | Some [] =>
            ret {| data := [];
                   pagination :=
                     {| totalCount := totalCount;
                        totalPages := ceil_div totalCount pageSize;
                        currentPage := pageIndex;
                        meta_pageSize := pageSize;
                        hasNextPage := false;
                        hasPreviousPage := 0 <? pageIndex |} |}
        | Some materialRequests =>
            let requesterIds := uniq (map requested_by materialRequests) in
            presp <- call (SelectProfilesIn requesterIds)
                          (fun r n => select_profiles_in r n requesterIds) ;;
            match r_error presp with
            | Some profilesError =>
                emit (EvWarn (String.append "Failed to fetch profiles: "
                                            (pg_message profilesError)))
            | None => ret tt
            end ;;
            let profiles := or_else (r_data presp) [] in
            let data :=
              map (fun request =>
                     with_requester request
                       (profileMap_get profiles (requested_by request)))
                  materialRequests in
            let totalPages := ceil_div totalCount pageSize in
            ret {| data := data;
                   pagination :=
                     {| totalCount := totalCount;
                        totalPages := totalPages;
                        currentPage := pageIndex;
                        meta_pageSize := pageSize;
                        hasNextPage := pageIndex <? totalPages - 1;
                        hasPreviousPage := 0 <? pageIndex |} |}
        end
    end.

Definition fetchMaterialRequest (id : string) : M MaterialRequest :=
  online <- navigator_onLine ;;
  if negb online then throw (ThrownApp (offlineError None))
  else
    resp <- call (SelectSingle id) (fun r n => select_single r n id) ;;
    match r_error resp with
    | Some error => throw (ThrownApp (parsePostgrestError error op_fetch))
    | None =>
        match r_data resp with
        | None =>
            (* [request.requested_by] on [null] *)
            throw (ThrownOther "TypeError"
                     "Cannot read properties of null (reading 'requested_by')")
        | Some request =>
            presp <- call (SelectProfile (requested_by request))
                          (fun r n => select_profile r n (requested_by request)) ;;
            ret (with_requester request (r_data presp))
        end
    end.

(** *** Retry policies *)

Definition is_code (t : Thrown) (codes : list ErrorCode) : bool :=
  match t with
  | ThrownApp e => existsb (code_eqb (code e)) codes
  | ThrownOther _ _ => false
  end.

(** [retry] of [useMaterialRequests]. *)
Definition retry_list (failureCount : nat) (error : Thrown) : bool :=
  if is_code error [AUTH_SESSION_EXPIRED; DB_PERMISSION_DENIED; AUTH_UNAUTHORIZED]
  then false
  else Nat.ltb failureCount 3.

(** [retry] of [useMaterialRequest]. *)
Definition retry_single (failureCount : nat) (error : Thrown) : bool :=
  if is_code error [DB_NOT_FOUND; DB_PERMISSION_DENIED; AUTH_SESSION_EXPIRED]
  then false
  else Nat.ltb failureCount 2.

(** [retry] of the [QueryClient] defaults. *)
Definition retry_default (failureCount : nat) (error : Thrown) : bool :=
  if is_code error [AUTH_SESSION_EXPIRED; DB_PERMISSION_DENIED;
                    AUTH_UNAUTHORIZED; DB_NOT_FOUND]
  then false
  else Nat.ltb failureCount 2.

(** [retryDelay]: the list reader's own and the [QueryClient] default that
    the single-entity reader inherits are the same function. *)
Definition retryDelay (attemptIndex : nat) : Z :=
  Z.min (1000 * 2 ^ Z.of_nat attemptIndex) 30000.

(** The query library's retryer: run the query function; on failure ask
    [retry] with the number of failures so far, and when it agrees sleep
    [retryDelay] of that number and run again. [fuel] bounds the number of
    re-runs; [None] is fuel exhausted. *)
Fixpoint retryer {A} (retry : nat -> Thrown -> bool) (delay : nat -> Z)
    (fn : M A) (fuel : nat) (failureCount : nat) (w : World)
  : option ((Thrown + A) * World) :=
  match fn (with_event w EvQueryFn) with
  | (inr a, w1) => Some (inr a, w1)
  | (inl error, w1) =>
      if retry failureCount error then
        match fuel with
        | O => None
        | S fuel' =>
            retryer retry delay fn fuel' (S failureCount)
                    (with_event w1 (EvSleep (delay failureCount)))
        end
      else Some (inl error, w1)
  end.

(** The fetch behind [useMaterialRequests]: on success the response
    becomes the data of the list key. *)
Definition useMaterialRequests_fetch (filters : option MaterialRequestFilters)
    (pagination : option PaginationParams) (sorting : option SortingParams)
    (fuel : nat) (w : World) : option ((Thrown + PaginatedResponse) * World) :=
  match retryer retry_list retryDelay
          (fetchMaterialRequests filters pagination sorting) fuel 0 w with
  | Some (inr page, w1) =>
      Some (inr page,
            with_cache w1
              (set_data (QUERY_KEYS.materialRequestsList filters pagination sorting)
                        (DPage page) (cache w1)))
  | other => other
  end.

(** The fetch behind [useMaterialRequest]. *)
Definition useMaterialRequest_fetch (id : string)
    (fuel : nat) (w : World) : option ((Thrown + MaterialRequest) * World) :=
  match retryer retry_single retryDelay (fetchMaterialRequest id) fuel 0 w with
  | Some (inr row, w1) =>
      Some (inr row,
            with_cache w1
              (set_data (QUERY_KEYS.materialRequest id) (DEntity row) (cache w1)))
  | other => other
  end.

(** [Query.isStaleByTime]: a query is stale when it has no data, when it
    is invalidated, or when its data is older than the [staleTime] of the
    observer (30 s for the list, the default 5 min for a single request);
    [aged] says whether that time has passed. *)
Definition isStale (aged : bool) (c : QueryCache) (k : QueryKey) : bool :=
  match find_query k c with
  | Some e =>
      match q_data e with
      | Some _ => q_invalidated e || aged
      | None => true
      end
  | None => true
  end.

(** What [useQuery] does for the key of [useMaterialRequests] when an
    observer mounts on it (and what [invalidateQueries] starts at once for
    a mounted one): a stale query is fetched, a fresh one gives its cached
    data without a fetch. *)
Definition useMaterialRequests_read (filters : option MaterialRequestFilters)
    (pagination : option PaginationParams) (sorting : option SortingParams)
    (aged : bool) (fuel : nat) (w : World)
  : option ((Thrown + option CacheData) * World) :=
  let k := QUERY_KEYS.materialRequestsList filters pagination sorting in
  if isStale aged (cache w) k then
    match useMaterialRequests_fetch filters pagination sorting fuel w with
    | Some (inr page, w1) => Some (inr (Some (DPage page)), w1)
    | Some (inl error, w1) => Some (inl error, w1)
    | None => None
    end
  else Some (inr (getQueryData_in (cache w) k), w).

(** The same for the key of [useMaterialRequest]. *)
Definition useMaterialRequest_read (id : string)
    (aged : bool) (fuel : nat) (w : World)
  : option ((Thrown + option CacheData) * World) :=
  let k := QUERY_KEYS.materialRequest id in
  if isStale aged (cache w) k then
    match useMaterialRequest_fetch id fuel w with
    | Some (inr row, w1) => Some (inr (Some (DEntity row)), w1)
    | Some (inl error, w1) => Some (inl error, w1)
    | None => None
    end
  else Some (inr (getQueryData_in (cache w) k), w).

End Fetch.

(* ------------------------------------------------------------------ *)
(** ** Writers and their optimistic-update hooks *)

Module Mutations.
Import Errors Domain Store.

(** *** The remote writers *)

Definition createMaterialRequest (row : MaterialRequestInsert)
  : M (option MaterialRequest) :=
  online <- navigator_onLine ;;
  if negb online then
    throw (ThrownApp (offlineError (Some
      "You appear to be offline. Please check your connection and try again.")))
  else
    resp <- call (InsertRow row) (fun r n => insert_row r n row) ;;
    match r_error resp with
    | Some error => throw (ThrownApp (parsePostgrestError error op_insert))
    | None => ret (r_data resp)
    end.

Record UpdateMaterialRequestParams := {
  p_id : string;
  p_data : MaterialRequestUpdate
}.

Definition updateMaterialRequest (v : UpdateMaterialRequestParams)
  : M (option MaterialRequest) :=
  online <- navigator_onLine ;;
  if negb online then
    throw (ThrownApp (offlineError (Some
      "You appear to be offline. Your changes could not be saved.")))
  else
    t <- date_now ;;
    let updateData := with_updated_at (p_data v) t in
    resp <- call (UpdateRow (p_id v) updateData)
                 (fun r n => update_row r n (p_id v) updateData) ;;
    match r_error resp with
    | Some error => throw (ThrownApp (parsePostgrestError error op_update))
    | None => ret (r_data resp)
    end.

Definition status_update (s : MaterialRequestStatus) (t : string)
  : MaterialRequestUpdate :=
  {| u_id := None; u_project_id := None; u_material_name := None;
     u_quantity := None; u_unit := None; u_status := Some s;
     u_priority := None; u_requested_by := None; u_requested_at := None;
     u_notes := None; u_company_id := None; u_updated_at := Some t |}.

Definition updateStatus (v : UpdateStatusParams) : M (option MaterialRequest) :=
  online <- navigator_onLine ;;
  if negb online then
    throw (ThrownApp (offlineError (Some
      "You appear to be offline. Status could not be updated.")))
  else
    t <- date_now ;;
    let updateData := status_update (s_status v) t in
    resp <- call (UpdateRow (s_id v) updateData)
                 (fun r n => update_row r n (s_id v) updateData) ;;
    match r_error resp with
    | Some error => throw (ThrownApp (parsePostgrestError error op_update))
    | None => ret (r_data resp)
    end.

Definition deleteMaterialRequest (id : string) : M Datatypes.unit :=
  online <- navigator_onLine ;;
  if negb online then
    throw (ThrownApp (offlineError (Some
      "You appear to be offline. The item could not be deleted.")))
  else
    resp <- call (DeleteRow id) (fun r n => delete_row r n id) ;;
    match r_error resp with
    | Some error => throw (ThrownApp (parsePostgrestError error op_delete))
    | None => ret tt
    end.

(** *** Error surfacing *)

(** [error instanceof AppError ? error : new AppError({ code, message })]. *)
Definition toAppError (error : Thrown) (fallback : ErrorCode) : AppError :=
  match error with
  | ThrownApp e => e
  | ThrownOther _ msg =>
      new_AppError
        {| opt_code := fallback; opt_message := msg;
           opt_userMessage := None; opt_postgrestCode := None;
           opt_severity := None; opt_recoverable := None |}
  end.

Inductive MutationKind := op_creating | op_updating | op_deleting.

Definition operationPast (k : MutationKind) : string :=
  match k with
  | op_creating => "creating"
  | op_updating => "updating"
  | op_deleting => "deleting"
  end.

(** [handleMutationError(appError, operation, entityName,
    { showToast: true, log: true })]: the error is logged and a toast with
    the operation's title is shown (with a log-in action when the session
    expired). *)
Definition handleMutationError (appError : AppError) (k : MutationKind)
    (entityName : string) : M Datatypes.unit :=
  emit (EvLog appError) ;;
  emit (EvToast
          (String.append "Error "
             (String.append (operationPast k) (String.append " " entityName)))
          appError).

(** What the caller of a hook passes. *)
Record HookOptions := {
  showErrorToast : bool;       (* default [true] *)
  with_onSuccess : bool;       (* an [onSuccess] callback is given *)
  with_onError : bool          (* an [onError] callback is given *)
}.

Definition defaultHookOptions : HookOptions :=
  {| showErrorToast := true; with_onSuccess := false; with_onError := false |}.

Definition options_onError (o : HookOptions) (e : AppError) : M Datatypes.unit :=
  if with_onError o then emit (EvOnError e) else ret tt.

Definition options_onSuccess (o : HookOptions) : M Datatypes.unit :=
  if with_onSuccess o then emit EvOnSuccess else ret tt.

Definition surface (o : HookOptions) (error : Thrown) (fallback : ErrorCode)
    (k : MutationKind) (entityName : string) : M Datatypes.unit :=
  let appError := toAppError error fallback in
  (if showErrorToast o then handleMutationError appError k entityName
   else ret tt) ;;
  options_onError o appError.

(** *** The mutation life cycle of the query library *)

Record MutationOptions (V R C : Type) := {
  mutationFn : V -> M R;
  onMutate : V -> M C;
  onError : Thrown -> V -> option C -> M Datatypes.unit;
  onSettled : V -> M Datatypes.unit;
  onSuccess : R -> M Datatypes.unit
}.

(** [Mutation.execute] for a mutation that the library lets start, that is
    one issued while [onlineManager.isOnline()] holds: [onMutate], then the
    mutation function, then [onSuccess] and [onSettled]; a throw anywhere
    on that path runs [onError] and [onSettled] with the context stored so
    far and rethrows. The manager's state is not [navigator.onLine], which
    the mutation functions read themselves; what becomes of a mutation
    issued while the manager reports offline is [execute_networked]
    below. *)
Definition execute {V R C} (o : MutationOptions V R C) (v : V) : M R :=
  fun w =>
    let failed (ctx : option C) (error : Thrown) : M R :=
      onError o error v ctx ;; onSettled o v ;; throw error in
    match onMutate o v w with
    | (inl error, w1) => failed None error w1
    | (inr ctx, w1) =>
        match (result <- mutationFn o v ;;
               onSuccess o result ;;
               onSettled o v ;;
               ret result) w1 with
        | (inl error, w2) => failed (Some ctx) error w2
        | (inr result, w2) => (inr result, w2)
        end
    end.

(** The part of [Mutation.execute] after [onMutate] has returned [ctx]:
    what the retryer runs once it starts, or continues, the mutation. *)
Definition continue_ {V R C} (o : MutationOptions V R C) (v : V) (ctx : C)
  : M R :=
  fun w1 =>
    match (result <- mutationFn o v ;;
           onSuccess o result ;;
           onSettled o v ;;
           ret result) w1 with
    | (inl error, w2) =>
        (onError o error v (Some ctx) ;; onSettled o v ;; throw error) w2
    | (inr result, w2) => (inr result, w2)
    end.

(** What a call of [mutate] has come to when the page is at rest again:
    the mutation has settled, with a result or a throw, or it is paused. *)
Inductive Outcome (R : Type) :=
| Settled (r : Thrown + R)
| IsPaused.

Arguments Settled {R} r.
Arguments IsPaused {R}.

(** [Mutation.execute] under the network mode, which the app leaves at its
    default (online): [onMutate] runs in any case; the retryer then starts
    the mutation function only when [onlineManager.isOnline()]
    ([managerOnline]: the state the library keeps from the online and
    offline events of the window). Otherwise the mutation is paused, until
    the manager reports online again: the mutation function, [onSuccess],
    [onError] and [onSettled] have not run. *)
Definition execute_networked {V R C} (managerOnline : bool)
    (o : MutationOptions V R C) (v : V) (w : World) : Outcome R * World :=
  match onMutate o v w with
  | (inl error, w1) =>
      let (r, w2) := (onError o error v None ;; onSettled o v ;; throw error) w1 in
      (Settled r, w2)
  | (inr ctx, w1) =>
      if managerOnline
      then let (r, w2) := continue_ o v ctx w1 in (Settled r, w2)
      else (IsPaused, w1)
  end.

(** *** useUpdateStatus *)

Module useUpdateStatus.

Record Context := {
  previousData : list (QueryKey * option CacheData)   (* a [Map] *)
}.

Definition updater (id : string) (status : MaterialRequestStatus)
    (old : option CacheData) : Thrown + option CacheData :=
  match old with
  | Some (DArray rows) =>
      inr (Some (DArray
        (map (fun request =>
                if String.eqb (Domain.id request) id
                then with_status request status
                else request) rows)))
  | _ => inr old
  end.

Definition onMutate (v : UpdateStatusParams) : M Context :=
  cancelQueries QUERY_KEYS.materialRequests ;;
  queries <- getQueriesData QUERY_KEYS.materialRequests ;;
  let previousData := queries in
  forEach queries
    (fun q => setQueryData (fst q) (updater (s_id v) (s_status v)) ;; ret tt) ;;
  ret {| previousData := previousData |}.

Definition onError (o : HookOptions) (error : Thrown)
    (_variables : UpdateStatusParams) (context : option Context)
  : M Datatypes.unit :=
  match context with
  | Some ctx =>
      forEach (previousData ctx)
        (fun q => setQueryData_value (fst q) (snd q) ;; ret tt)
  | None => ret tt
  end ;;
  surface o error DB_UPDATE_FAILED op_updating "status".

Definition onSettled (_ : UpdateStatusParams) : M Datatypes.unit :=
  invalidateQueries QUERY_KEYS.materialRequests.

Definition options (o : HookOptions)
  : MutationOptions UpdateStatusParams (option MaterialRequest) Context :=
  Build_MutationOptions
    updateStatus
    onMutate
    (onError o)
    onSettled
    (fun _ => options_onSuccess o).

Definition mutate (o : HookOptions) (v : UpdateStatusParams)
  : M (option MaterialRequest) := execute (options o) v.

End useUpdateStatus.

(** *** useUpdateMaterialRequest *)

Module useUpdateMaterialRequest.

Record Context := {
  previousRequests : option CacheData;
  previousRequest : option CacheData
}.

Definition updater (id : string) (data : MaterialRequestUpdate)
    (old : option CacheData) : Thrown + option CacheData :=
  match old with
  | Some (DArray rows) =>
      inr (Some (DArray
        (map (fun request =>
                if String.eqb (Domain.id request) id
                then spread request data
                else request) rows)))
  | _ => inr old
  end.

(** [{ ...previousRequest, ...data }]. *)
Definition spread_data (d : CacheData) (data : MaterialRequestUpdate)
  : CacheData :=
  match d with
  | DEntity row => DEntity (spread row data)
  | other => DSpread other data
  end.

Definition onMutate (v : UpdateMaterialRequestParams) : M Context :=
  cancelQueries QUERY_KEYS.materialRequests ;;
  previousRequests <- getQueryData QUERY_KEYS.materialRequests ;;
  setQueriesData QUERY_KEYS.materialRequests (updater (p_id v) (p_data v)) ;;
  previousRequest <- getQueryData (QUERY_KEYS.materialRequest (p_id v)) ;;
  match previousRequest with
  | Some d =>
      setQueryData_value (QUERY_KEYS.materialRequest (p_id v))
                         (Some (spread_data d (p_data v))) ;;
      ret tt
  | None => ret tt
  end ;;
  ret {| previousRequests := previousRequests;
         previousRequest := previousRequest |}.

Definition onError (o : HookOptions) (error : Thrown)
    (variables : UpdateMaterialRequestParams) (context : option Context)
  : M Datatypes.unit :=
  match context with
  | Some {| previousRequests := Some d |} =>
      setQueryData_value QUERY_KEYS.materialRequests (Some d) ;; ret tt
  | _ => ret tt
  end ;;
  match context with
  | Some {| previousRequest := Some d |} =>
      setQueryData_value (QUERY_KEYS.materialRequest (p_id variables)) (Some d) ;;
      ret tt
  | _ => ret tt
  end ;;
  surface o error DB_UPDATE_FAILED op_updating "material request".

Definition onSettled (variables : UpdateMaterialRequestParams)
  : M Datatypes.unit :=
  invalidateQueries QUERY_KEYS.materialRequests ;;
  invalidateQueries (QUERY_KEYS.materialRequest (p_id variables)).

Definition options (o : HookOptions)
  : MutationOptions UpdateMaterialRequestParams (option MaterialRequest)
                    Context :=
  Build_MutationOptions
    updateMaterialRequest
    onMutate
    (onError o)
    onSettled
    (fun _ => options_onSuccess o).

Definition mutate (o : HookOptions) (v : UpdateMaterialRequestParams)
  : M (option MaterialRequest) := execute (options o) v.

End useUpdateMaterialRequest.

(** *** useDeleteMaterialRequest *)

Module useDeleteMaterialRequest.

Record Context := {
  previousRequests : option CacheData
}.

(** [old?.filter(request => request.id !== id)]: [undefined] stays
    [undefined], an array is filtered, and any other object has no
    [filter] method to call. *)
Definition updater (id : string) (old : option CacheData)
  : Thrown + option CacheData :=
  match old with
  | None => inr None
  | Some (DArray rows) =>
      inr (Some (DArray
        (filter (fun request => negb (String.eqb (Domain.id request) id))
                rows)))
  | Some _ => inl (ThrownOther "TypeError" "old?.filter is not a function")
  end.

Definition onMutate (id : string) : M Context :=
  cancelQueries QUERY_KEYS.materialRequests ;;
  previousRequests <- getQueryData QUERY_KEYS.materialRequests ;;
  setQueriesData QUERY_KEYS.materialRequests (updater id) ;;
  ret {| previousRequests := previousRequests |}.

Definition onError (o : HookOptions) (error : Thrown) (_id : string)
    (context : option Context) : M Datatypes.unit :=
  match context with
  | Some {| previousRequests := Some d |} =>
      setQueryData_value QUERY_KEYS.materialRequests (Some d) ;; ret tt
  | _ => ret tt
  end ;;
  surface o error DB_DELETE_FAILED op_deleting "material request".

Definition onSettled (_ : string) : M Datatypes.unit :=
  invalidateQueries QUERY_KEYS.materialRequests.

Definition options (o : HookOptions)
  : MutationOptions string Datatypes.unit Context :=
  Build_MutationOptions
    deleteMaterialRequest
    onMutate
    (onError o)
    onSettled
    (fun _ => options_onSuccess o).

Definition mutate (o : HookOptions) (id : string) : M Datatypes.unit :=
  execute (options o) id.

End useDeleteMaterialRequest.

(** *** useCreateMaterialRequest *)

Module useCreateMaterialRequest.

Definition onSuccess (o : HookOptions) (_ : option MaterialRequest)
  : M Datatypes.unit :=
  invalidateQueries QUERY_KEYS.materialRequests ;;
  options_onSuccess o.

Definition onError (o : HookOptions) (error : Thrown)
    (_ : MaterialRequestInsert) (_ : option Datatypes.unit)
  : M Datatypes.unit :=
  surface o error DB_INSERT_FAILED op_creating "material request".

Definition options (o : HookOptions)
  : MutationOptions MaterialRequestInsert (option MaterialRequest)
                    Datatypes.unit :=
  Build_MutationOptions
    createMaterialRequest
    (fun _ => ret tt)
    (onError o)
    (fun _ => ret tt)
    (onSuccess o).

Definition mutate (o : HookOptions) (row : MaterialRequestInsert)
  : M (option MaterialRequest) := execute (options o) row.

End useCreateMaterialRequest.

End Mutations.

(* ------------------------------------------------------------------ *)
(** ** The dropdown in front of the status mutation *)

Module Dropdown.
Import Errors Domain Store Workflow Mutations.

(** [mutation.mutate(v)]: fire and forget; a rejection is not rethrown. *)
Definition mutate_ (o : HookOptions) (v : UpdateStatusParams) (w : World)
  : World :=
  snd (useUpdateStatus.mutate o v w).

(** The user picks [target] in the dropdown of a row whose status is
    [currentStatus] and confirms; the resulting [mutate] calls run. *)
Definition request_transition (o : HookOptions) (requestId : string)
    (currentStatus target : MaterialRequestStatus) (w : World) : World :=
  match pick_and_confirm requestId currentStatus target with
  | Some (_, calls) => fold_left (fun w' v => mutate_ o v w') calls w
  | None => w
  end.

End Dropdown.

(* ------------------------------------------------------------------ *)
(** ** A concrete session *)

Module Scenario.
Import Errors Domain Store Mutations.

(** Request X, pending. *)
Definition X : MaterialRequest :=
  {| id := "x"; project_id := None; material_name := "Steel Bars";
     quantity := 500; unit := kg; status := pending; priority := high;
     requested_by := "u1"; requested_at := "2024-01-01T00:00:00Z";
     notes := None; company_id := "c1";
     created_at := "2024-01-01T00:00:00Z";
     updated_at := "2024-01-01T00:00:00Z"; requester := None |}.

Definition page_of (rows : list MaterialRequest) : PaginatedResponse :=
  {| data := rows;
     pagination :=
       {| totalCount := Z.of_nat (length rows); totalPages := 1;
          currentPage := 0; meta_pageSize := 10;
          hasNextPage := false; hasPreviousPage := false |} |}.

Definition first_page : QueryKey :=
  QUERY_KEYS.materialRequestsList None
    (Some {| pageIndex := 0; pageSize := 10 |}) None.

Definition entry (k : QueryKey) (d : CacheData) : QueryEntry :=
  {| q_key := k; q_data := Some d; q_invalidated := false |}.

(** The cache as the readers fill it: the first page of the list and the
    detail of X. *)
Definition read_cache : QueryCache :=
  [entry first_page (DPage (page_of [X]));
   entry (QUERY_KEYS.materialRequest "x") (DEntity X)].


Definition denied : PostgrestError :=
  {| pg_code := "42501"; pg_message := "permission denied" |}.

Definition failing {A} : Resp A :=
  {| r_data := None; r_error := Some denied; r_count := None |}.

(** A store that refuses everything. *)
Definition refusing : Remote :=
  {| select_list := fun _ _ => failing;
     select_profiles_in := fun _ _ => failing;
     select_single := fun _ _ => failing;
     select_profile := fun _ _ => failing;
     insert_row := fun _ _ => failing;
     update_row := fun _ _ _ => failing;
     delete_row := fun _ _ => failing |}.

Definition world (online : bool) (r : Remote) (c : QueryCache) : World :=
  {| onLine := online; now := "2024-06-01T12:00:00Z"; remote := r;
     cache := c; trace := [] |}.

Definition approve_X : UpdateStatusParams :=
  {| s_id := "x"; s_status := approved |}.

End Scenario.

(* ------------------------------------------------------------------ *)
(** ** Vocabulary of the statements *)

Module Notions.
Import Errors Domain Store Workflow Fetch Mutations Scenario.

(** The dialog only ever targets an available transition. *)
Definition dialog_ok (a : MaterialRequestStatus) (st : ConfirmDialog) : Prop :=
  match targetStatus st with
  | Some s => In s (STATUS_TRANSITIONS a)
  | None => True
  end.

(** The cache is a map: one query per key. *)
Definition wf_cache (c : QueryCache) : Prop := NoDup (map q_key c).

(** What a non-throwing updater leaves at a key. *)
Definition settle (u : option CacheData -> Thrown + option CacheData)
    (x : option CacheData) : option CacheData :=
  match u x with
  | inr (Some d) => Some d
  | _ => x
  end.

(** The cache after [setQueryData(k, u)] for each [k] in turn, stopping at
    the first throw. *)
Fixpoint set_all (u : option CacheData -> Thrown + option CacheData)
    (ks : list QueryKey) (c : QueryCache) : option Thrown * QueryCache :=
  match ks with
  | [] => (None, c)
  | k :: ks' =>
      match u (getQueryData_in c k) with
      | inl t => (Some t, c)
      | inr None => set_all u ks' c
      | inr (Some d) => set_all u ks' (set_data k d c)
      end
  end.

(** The cache after [setQueryData(k, d)] for each pair in turn. *)
Fixpoint restore_all (qs : list (QueryKey * option CacheData))
    (c : QueryCache) : QueryCache :=
  match qs with
  | [] => c
  | (k, Some d) :: qs' => restore_all qs' (set_data k d c)
  | (_, None) :: qs' => restore_all qs' c
  end.

Definition snapshot (filterKey : QueryKey) (c : QueryCache)
  : list (QueryKey * option CacheData) :=
  map (fun e => (q_key e, q_data e)) (findAll filterKey c).

(** A computation that cannot throw. *)
Definition total {A} (m : M A) : Prop :=
  forall w, exists a w', m w = (inr a, w').

Definition ns : QueryKey := QUERY_KEYS.materialRequests.

(** The events a computation added to the trace. *)
Definition new_events (w w' : World) : list Stamped :=
  skipn (length (trace w)) (trace w').

Definition surface_events (o : HookOptions) (appError : AppError)
    (k : MutationKind) (entityName : string) : list Event :=
  (if showErrorToast o
   then [EvLog appError;
         EvToast (String.append "Error "
                    (String.append (operationPast k)
                       (String.append " " entityName))) appError]
   else [])
  ++ (if with_onError o then [EvOnError appError] else []).

Definition stamp (c : QueryCache) (e : Event) : Stamped :=
  {| ev := e; seen := c |}.

Definition with_trace (w : World) (t : list Stamped) : World :=
  {| onLine := onLine w; now := now w; remote := remote w;
     cache := cache w; trace := t |}.

(** The optimistic step of a hook whose updater cannot throw. *)
Definition optimistic (u : option CacheData -> Thrown + option CacheData)
    (c : QueryCache) : QueryCache :=
  snd (set_all u (map q_key (findAll ns c)) c).

Definition status_call (v : UpdateStatusParams) (w : World) : RemoteCall :=
  UpdateRow (s_id v) (status_update (s_status v) (now w)).

Definition status_answer (v : UpdateStatusParams) (w : World)
  : Resp MaterialRequest :=
  update_row (remote w) (length (remote_calls w)) (s_id v)
             (status_update (s_status v) (now w)).

Definition detail (id : string) : QueryKey := QUERY_KEYS.materialRequest id.

Definition update_call (v : UpdateMaterialRequestParams) (w : World)
  : RemoteCall :=
  UpdateRow (p_id v) (with_updated_at (p_data v) (now w)).

Definition update_answer (v : UpdateMaterialRequestParams) (w : World)
  : Resp MaterialRequest :=
  update_row (remote w) (length (remote_calls w)) (p_id v)
             (with_updated_at (p_data v) (now w)).

(** The cache after the optimistic step of a field update. *)
Definition update_optimistic (v : UpdateMaterialRequestParams)
    (c : QueryCache) : QueryCache :=
  let c1 := optimistic (useUpdateMaterialRequest.updater (p_id v) (p_data v)) c in
  match getQueryData_in c1 (detail (p_id v)) with
  | Some d =>
      set_data (detail (p_id v))
               (useUpdateMaterialRequest.spread_data d (p_data v)) c1
  | None => c1
  end.

Definition update_context (v : UpdateMaterialRequestParams) (c : QueryCache)
  : useUpdateMaterialRequest.Context :=
  {| useUpdateMaterialRequest.previousRequests := getQueryData_in c ns;
     useUpdateMaterialRequest.previousRequest :=
       getQueryData_in
         (optimistic (useUpdateMaterialRequest.updater (p_id v) (p_data v)) c)
         (detail (p_id v)) |}.

(** The cache after the rollback of a field update. *)
Definition update_rollback (id : string)
    (ctx : useUpdateMaterialRequest.Context) (c : QueryCache) : QueryCache :=
  let cA := match useUpdateMaterialRequest.previousRequests ctx with
            | Some d => set_data ns d c
            | None => c
            end in
  match useUpdateMaterialRequest.previousRequest ctx with
  | Some d => set_data (detail id) d cA
  | None => cA
  end.

Definition delete_answer (id : string) (w : World) : Resp Datatypes.unit :=
  delete_row (remote w) (length (remote_calls w)) id.

(** The optimistic step of a deletion: the batch of filters, which stops
    at the first cached value that is not an array. *)
Definition delete_batch (id : string) (c : QueryCache)
  : option Thrown * QueryCache :=
  set_all (useDeleteMaterialRequest.updater id) (map q_key (findAll ns c)) c.

Definition delete_rollback (ctx : useDeleteMaterialRequest.Context)
    (c : QueryCache) : QueryCache :=
  match useDeleteMaterialRequest.previousRequests ctx with
  | Some d => set_data ns d c
  | None => c
  end.

(** A failed mutation added to the trace its remote call, made while the
    cache held the optimistic state, and then the [surfaced] events, all
    made while the cache read as before the mutation at the keys [ks]; the
    final cache reads as before at those keys too. *)
Definition rolled_back (ks : QueryKey -> Prop) (w w' : World)
    (surfaced : list Event) : Prop :=
  exists c1 call c2,
    new_events w w' = stamp c1 (EvRemote call) :: map (stamp c2) surfaced /\
    (forall k, ks k -> getQueryData_in c2 k = getQueryData_in (cache w) k) /\
    (forall k, ks k ->
               getQueryData_in (cache w') k = getQueryData_in (cache w) k).

(** A store that accepts every write and answers it with the given row. *)
Definition accepting (row : MaterialRequest) : Remote :=
  let ok {A} (a : A) : Resp A :=
    {| r_data := Some a; r_error := None; r_count := None |} in
  {| select_list := fun _ _ => ok [row];
     select_profiles_in := fun _ _ => ok [];
     select_single := fun _ _ => ok row;
     select_profile := fun _ _ => failing;
     insert_row := fun _ _ => ok row;
     update_row := fun _ _ _ => ok row;
     delete_row := fun _ _ => ok tt |}.

(** A world left by a settled update, status or delete mutation. *)
Definition settled (w' : World) : Prop :=
  (exists o v w, w' = snd (useUpdateMaterialRequest.mutate o v w)) \/
  (exists o v w, w' = snd (useUpdateStatus.mutate o v w)) \/
  (exists o id w, w' = snd (useDeleteMaterialRequest.mutate o id w)).

(** A row as the store holds it, without the requester the readers
    attach. *)
Definition stored (r : MaterialRequest) : MaterialRequest :=
  with_requester r None.

(** The store's answer to the single-row query of a fetch started in
    [w]. *)
Definition detail_answer (id : string) (w : World) : Resp MaterialRequest :=
  select_single (remote w) (length (remote_calls w)) id.

(** X as the store holds it once approved. *)
Definition X_on_server : MaterialRequest :=
  {| id := "x"; project_id := None; material_name := "Steel Bars";
     quantity := 500; unit := kg; status := approved; priority := high;
     requested_by := "u1"; requested_at := "2024-01-01T00:00:00Z";
     notes := None; company_id := "c1";
     created_at := "2024-01-01T00:00:00Z";
     updated_at := "2024-06-01T12:00:03Z"; requester := None |}.

Definition rename_X : UpdateMaterialRequestParams :=
  {| p_id := "x";
     p_data :=
       {| u_id := None; u_project_id := None;
          u_material_name := Some "Rebar"; u_quantity := None;
          u_unit := None; u_status := None; u_priority := None;
          u_requested_by := None; u_requested_at := None; u_notes := None;
          u_company_id := None; u_updated_at := None |} |}.

Definition pageIndex_of (pagination : option PaginationParams) : Z :=
  match pagination with Some p => pageIndex p | None => 0 end.

Definition pageSize_of (pagination : option PaginationParams) : Z :=
  match pagination with Some p => pageSize p | None => DEFAULT_PAGE_SIZE end.

(** The store's answer to the list query of a fetch started in [w]. *)
Definition list_answer (filters : option MaterialRequestFilters)
    (pagination : option PaginationParams) (sorting : option SortingParams)
    (w : World) : Resp (list MaterialRequest) :=
  select_list (remote w) (length (remote_calls w))
              (buildQuery filters pagination sorting).

(** How many of [total] matching rows fall in the window of the page. *)
Definition window_rows (pagination : option PaginationParams) (total : Z) : Z :=
  Z.max 0 (Z.min (pageSize_of pagination)
                 (total - pageIndex_of pagination * pageSize_of pagination)).

(** An answer of the store that agrees with itself: it counts [total]
    matching rows and returns those of them that fall in the window. *)
Definition consistent (pagination : option PaginationParams)
    (resp : Resp (list MaterialRequest)) (total : Z) : Prop :=
  0 <= total /\
  r_count resp = Some total /\
  Z.of_nat (length (or_else (r_data resp) [])) = window_rows pagination total.

(** A store holding 95 requests: every list query is answered with the rows
    of its range among them and the exact count. *)
Definition ninety_five : Remote :=
  {| select_list := fun _ q =>
       {| r_data :=
            Some (repeat X (Z.to_nat (Z.max 0 (Z.min (q_to q + 1) 95 - q_from q))));
          r_error := None; r_count := Some 95 |};
     select_profiles_in := fun _ _ => failing;
     select_single := fun _ _ => failing;
     select_profile := fun _ _ => failing;
     insert_row := fun _ _ => failing;
     update_row := fun _ _ _ => failing;
     delete_row := fun _ _ => failing |}.

Definition page9 : option PaginationParams :=
  Some {| pageIndex := 9; pageSize := 10 |}.

Definition page10 : option PaginationParams :=
  Some {| pageIndex := 10; pageSize := 10 |}.

Definition filters_of (st : option (OrAll MaterialRequestStatus))
    (pr : option (OrAll MaterialRequestPriority)) (search : option JsString.t)
  : option MaterialRequestFilters :=
  Some {| f_status := st; f_priority := pr; f_search := search |}.

Definition status_of (f : option MaterialRequestFilters)
  : option (OrAll MaterialRequestStatus) :=
  match f with Some f' => f_status f' | None => None end.

Definition priority_of (f : option MaterialRequestFilters)
  : option (OrAll MaterialRequestPriority) :=
  match f with Some f' => f_priority f' | None => None end.

Definition search_of (f : option MaterialRequestFilters) : option JsString.t :=
  match f with Some f' => f_search f' | None => None end.

(** *** What the store makes of a text constraint *)

Definition underscore : N := 95.
Definition backslash : N := 92.
Definition asterisk : N := 42.

(** The gateway in front of the database takes an asterisk in the pattern
    of a like or ilike filter for a percent sign. *)
Definition star (c : N) : N := if N.eqb c asterisk then percent else c.

(** SQL LIKE on code units, compared after folding with [lower] as ILIKE
    does: a percent sign matches any sequence of units, an underscore any
    one unit, a backslash makes the unit after it literal, any other unit
    matches itself; a pattern that ends in a lone backslash matches
    nothing. *)
Fixpoint like (lower : N -> N) (pattern : JsString.t) : JsString.t -> bool :=
  match pattern with
  | [] => fun text => match text with [] => true | _ :: _ => false end
  | c :: pattern' =>
      if N.eqb c percent then
        fix any (text : JsString.t) : bool :=
          like lower pattern' text
          || match text with
             | [] => false
             | _ :: text' => any text'
             end
      else if N.eqb c underscore then
        fun text =>
          match text with
          | [] => false
          | _ :: text' => like lower pattern' text'
          end
      else if N.eqb c backslash then
        match pattern' with
        | [] => fun _ => false
        | d :: pattern'' =>
            fun text =>
              match text with
              | [] => false
              | x :: text' =>
                  N.eqb (lower x) (lower d) && like lower pattern'' text'
              end
        end
      else
        fun text =>
          match text with
          | [] => false
          | x :: text' => N.eqb (lower x) (lower c) && like lower pattern' text'
          end
  end.

(** The rows the text constraints of a query let through. *)
Definition ilike_selects (lower : N -> N) (c : Constraint)
    (row : MaterialRequest) : bool :=
  like lower (map star (c_pattern c)) (JsString.of_ascii (material_name row)).

Definition search_selects (lower : N -> N)
    (filters : option MaterialRequestFilters) (row : MaterialRequest) : bool :=
  forallb (fun c => ilike_selects lower c row) (searchConstraint filters).

(** The search as the specification words it: the text occurs in the
    material name, letter case aside. *)
Fixpoint spec_prefix (lower : N -> N) (t text : JsString.t) : bool :=
  match t, text with
  | [], _ => true
  | _ :: _, [] => false
  | c :: t', x :: text' => N.eqb (lower x) (lower c) && spec_prefix lower t' text'
  end.

Fixpoint spec_substring (lower : N -> N) (t text : JsString.t) : bool :=
  spec_prefix lower t text
  || match text with
     | [] => false
     | _ :: text' => spec_substring lower t text'
     end.

Definition spec_search_match (lower : N -> N) (search : JsString.t)
    (row : MaterialRequest) : bool :=
  spec_substring lower (JsString.trim search)
                 (JsString.of_ascii (material_name row)).

(** A text without the units the pattern language gives a meaning to. *)
Definition is_special (c : N) : bool :=
  N.eqb c percent || N.eqb c underscore || N.eqb c backslash
  || N.eqb c asterisk.

Definition plain (t : JsString.t) : bool :=
  forallb (fun c => negb (is_special c)) t.

(** Folding of the letters A to Z, as an instance of [lower]. *)
Definition ascii_lower (c : N) : N :=
  if N.leb 65 c && N.leb c 90 then c + 32 else c.

(** The events of the retry loop itself. *)
Definition retry_event (s : Stamped) : bool :=
  match ev s with
  | EvQueryFn | EvSleep _ => true
  | _ => false
  end.

Definition retry_part (t : list Stamped) : list Event :=
  map ev (filter retry_event t).

(** A query function that logs no retry events of its own. *)
Definition quiet {A} (fn : M A) : Prop :=
  forall w, exists t,
    trace (snd (fn w)) = trace w ++ t /\ filter retry_event t = [].

(** [n] runs of the query function, the first after [failureCount]
    failures, with the delay slept between consecutive runs. *)
Fixpoint schedule (delay : nat -> Z) (failureCount n : nat) : list Event :=
  match n with
  | O => []
  | S O => [EvQueryFn]
  | S n' => EvQueryFn :: EvSleep (delay failureCount)
                      :: schedule delay (S failureCount) n'
  end.

(** A retry policy: never on the listed kinds, otherwise while fewer than
    [bound] failures. *)
Definition policy (codes : list ErrorCode) (bound : nat)
    (failureCount : nat) (error : Thrown) : bool :=
  if is_code error codes then false else Nat.ltb failureCount bound.

Definition no_retry_kinds : list ErrorCode :=
  [AUTH_SESSION_EXPIRED; DB_PERMISSION_DENIED; AUTH_UNAUTHORIZED; DB_NOT_FOUND].

(** The kinds each reader's own [retry] names. *)
Definition list_kinds : list ErrorCode :=
  [AUTH_SESSION_EXPIRED; DB_PERMISSION_DENIED; AUTH_UNAUTHORIZED].

Definition single_kinds : list ErrorCode :=
  [DB_NOT_FOUND; DB_PERMISSION_DENIED; AUTH_SESSION_EXPIRED].

(** Run [k] times in a row as the retryer runs it, from [w] after
    [failureCount] failures and sleeping [delay] in between, the query
    function fails each time with an error outside [codes]; [P] holds of
    the world in which the next run starts. *)
Fixpoint fails_first {A} (fn : M A) (codes : list ErrorCode) (delay : nat -> Z)
    (k failureCount : nat) (w : World) (P : World -> Prop) : Prop :=
  match k with
  | O => P w
  | S k' =>
      exists e w1,
        fn (with_event w EvQueryFn) = (inl e, w1) /\
        is_code e codes = false /\
        fails_first fn codes delay k' (S failureCount)
                    (with_event w1 (EvSleep (delay failureCount))) P
  end.

(** What the readers make of the last run of the query function. *)
Definition list_outcome (f : option MaterialRequestFilters)
    (p : option PaginationParams) (s : option SortingParams)
    (r : Thrown + PaginatedResponse) (w1 : World)
  : (Thrown + PaginatedResponse) * World :=
  match r with
  | inr page =>
      (inr page,
       with_cache w1
         (set_data (QUERY_KEYS.materialRequestsList f p s) (DPage page)
                   (cache w1)))
  | inl e => (inl e, w1)
  end.

Definition single_outcome (id : string) (r : Thrown + MaterialRequest)
    (w1 : World) : (Thrown + MaterialRequest) * World :=
  match r with
  | inr row =>
      (inr row,
       with_cache w1
         (set_data (QUERY_KEYS.materialRequest id) (DEntity row) (cache w1)))
  | inl e => (inl e, w1)
  end.

(** A store that keeps PGRST116, the error of a request for a single
    object, for such requests: no list query is answered with it. *)
Definition conforming (r : Remote) : Prop :=
  forall n q e, r_error (select_list r n q) = Some e -> pg_code e <> "PGRST116".

(** A store on which every query times out. *)
Definition timed_out : PostgrestError :=
  {| pg_code := "57014";
     pg_message := "canceling statement due to statement timeout" |}.

Definition timing_out {A} : Resp A :=
  {| r_data := None; r_error := Some timed_out; r_count := None |}.

Definition an_outage : Remote :=
  {| select_list := fun _ _ => timing_out;
     select_profiles_in := fun _ _ => timing_out;
     select_single := fun _ _ => timing_out;
     select_profile := fun _ _ => timing_out;
     insert_row := fun _ _ => timing_out;
     update_row := fun _ _ _ => timing_out;
     delete_row := fun _ _ => timing_out |}.

End Notions.

(* ================================================================== *)
(** * Properties *)

Module ErrorsFacts.
Import Notions Errors.

(** C9. An error built without a severity or recoverable override gets
    its severity from the prefix of its kind (AUTH_ and DB_ give high,
    NETWORK_ gives medium, VALIDATION_ gives low) and is recoverable unless
    its kind is AUTH_UNAUTHORIZED or DB_PERMISSION_DENIED. *)
Theorem default_severity_and_recoverable (o : AppErrorOptions) :
  opt_severity o = None ->
  opt_recoverable o = None ->
  let e := new_AppError o in
  code e = opt_code o /\
  (startsWith (code_string (code e)) "AUTH_" = true \/
   startsWith (code_string (code e)) "DB_" = true -> severity e = HIGH) /\
  (startsWith (code_string (code e)) "NETWORK_" = true -> severity e = MEDIUM) /\
  (startsWith (code_string (code e)) "VALIDATION_" = true -> severity e = LOW) /\
  (recoverable e = false <->
   code e = AUTH_UNAUTHORIZED \/ code e = DB_PERMISSION_DENIED).
Proof.
  intros Hs Hr. destruct o as [c msg um pc sv rc]. simpl in Hs, Hr. subst.
  unfold new_AppError; simpl.
  split; [reflexivity|].
  destruct c; vm_compute;
    (repeat split; try tauto; try congruence;
     try (intros [H|H]; congruence)).
Qed.

(** A permission error built by the parser: high, not recoverable. *)
Lemma default_severity_and_recoverable_witness :
  let o := {| opt_code := DB_PERMISSION_DENIED; opt_message := "denied";
              opt_userMessage := None; opt_postgrestCode := Some "42501";
              opt_severity := None; opt_recoverable := None |} in
  opt_severity o = None /\ opt_recoverable o = None /\
  severity (new_AppError o) = HIGH /\ recoverable (new_AppError o) = false.
Proof.
  intro o.
  destruct (default_severity_and_recoverable o eq_refl eq_refl)
    as (_ & Hhigh & _ & _ & Hrec).
  split; [reflexivity|]. split; [reflexivity|]. split.
  - apply Hhigh. right. reflexivity.
  - apply Hrec. right. reflexivity.
Defined.

End ErrorsFacts.

Module WorkflowFacts.
Import Notions Errors Domain Store Workflow Mutations Dropdown.

Lemma status_eqb_eq a b : status_eqb a b = true <-> a = b.
Proof.
  unfold status_eqb. destruct (status_eq_dec a b); split; congruence.
Qed.

Lemma existsb_status_In s l :
  existsb (status_eqb s) l = true <-> In s l.
Proof.
  rewrite existsb_exists. split.
  - intros (x & Hin & Heq). apply status_eqb_eq in Heq. subst. assumption.
  - intros Hin. exists s. split; [assumption | now apply status_eqb_eq].
Qed.

(** A click lands only on a rendered item. *)
Lemma gesture_click_In requestId a st s st' calls :
  gesture requestId a st (ClickItem s) = Some (st', calls) ->
  In s (STATUS_TRANSITIONS a) /\ st' = handleStatusClick s /\ calls = [].
Proof.
  unfold gesture, render.
  destruct (negb (Nat.ltb 0 (length (STATUS_TRANSITIONS a)))); [discriminate|].
  destruct (existsb (status_eqb s) (STATUS_TRANSITIONS a)) eqn:E; [|discriminate].
  intros H; inversion H; subst. apply existsb_status_In in E. auto.
Qed.

Lemma gesture_preserves requestId a st g st' calls :
  dialog_ok a st ->
  gesture requestId a st g = Some (st', calls) ->
  dialog_ok a st' /\
  forall c, In c calls -> s_id c = requestId /\ In (s_status c) (STATUS_TRANSITIONS a).
Proof.
  intros Hok H. destruct g.
  - apply gesture_click_In in H. destruct H as (Hin & -> & ->).
    split; [exact Hin | intros c []].
  - unfold gesture, render in H.
    destruct (negb (Nat.ltb 0 (length (STATUS_TRANSITIONS a)))); [discriminate|].
    destruct (open st); [|discriminate].
    inversion H; subst. split; [assumption|].
    unfold handleConfirm. unfold dialog_ok in Hok.
    destruct (targetStatus st') as [s|]; intros c Hc; simpl in Hc;
      [destruct Hc as [<-|[]]; simpl; auto | destruct Hc].
  - unfold gesture, render in H.
    destruct (negb (Nat.ltb 0 (length (STATUS_TRANSITIONS a)))); [discriminate|].
    inversion H; subst. split; [exact Hok | intros c []].
Qed.

Lemma gestures_sound requestId a gs : forall st st' calls,
  dialog_ok a st ->
  gestures requestId a st gs = Some (st', calls) ->
  forall c, In c calls -> s_id c = requestId /\ In (s_status c) (STATUS_TRANSITIONS a).
Proof.
  induction gs as [|g gs IH]; intros st st' calls Hok H c Hc; simpl in H.
  - inversion H; subst. destruct Hc.
  - destruct (gesture requestId a st g) as [[st1 calls1]|] eqn:E1; [|discriminate].
    destruct (gestures requestId a st1 gs) as [[st2 calls2]|] eqn:E2; [|discriminate].
    inversion H; subst.
    destruct (gesture_preserves _ _ _ _ Hok E1) as [Hok1 Hc1].
    apply in_app_or in Hc. destruct Hc as [Hc|Hc].
    + now apply Hc1.
    + now apply (IH _ _ _ Hok1 E2).
Qed.

Lemma pick_and_confirm_spec requestId a b :
  pick_and_confirm requestId a b =
  if existsb (status_eqb b) (STATUS_TRANSITIONS a)
  then Some (handleStatusClick b, [{| s_id := requestId; s_status := b |}])
  else None.
Proof.
  destruct a, b; reflexivity.
Qed.

End WorkflowFacts.

Module StoreFacts.
Import Notions Errors Domain Store.

Lemma key_eqb_eq a b : key_eqb a b = true <-> a = b.
Proof. unfold key_eqb. destruct (QueryKey_eq_dec a b); split; congruence. Qed.

Lemma key_eqb_refl a : key_eqb a a = true.
Proof. now apply key_eqb_eq. Qed.

Lemma key_eqb_neq a b : a <> b -> key_eqb a b = false.
Proof. unfold key_eqb. destruct (QueryKey_eq_dec a b); congruence. Qed.

(** Every key made under the feature's base key matches it. *)
Lemma list_key_matches f p s :
  partialMatchKey (QUERY_KEYS.materialRequestsList f p s)
                  QUERY_KEYS.materialRequests = true.
Proof. reflexivity. Qed.

Lemma detail_key_matches id :
  partialMatchKey (QUERY_KEYS.materialRequest id)
                  QUERY_KEYS.materialRequests = true.
Proof. reflexivity. Qed.

(** *** Lookups after a write *)

Lemma lookup_set_data k d c k' :
  getQueryData_in (set_data k d c) k' =
  if key_eqb k' k then Some d else getQueryData_in c k'.
Proof.
  unfold getQueryData_in, find_query.
  induction c as [|e c IH]; simpl.
  - destruct (key_eqb k k') eqn:E.
    + apply key_eqb_eq in E. subst. now rewrite key_eqb_refl.
    + destruct (key_eqb k' k) eqn:E'; [|reflexivity].
      apply key_eqb_eq in E'. subst. now rewrite key_eqb_refl in E.
  - destruct (key_eqb (q_key e) k) eqn:Ek; simpl.
    + apply key_eqb_eq in Ek. subst k.
      destruct (key_eqb (q_key e) k') eqn:E.
      * apply key_eqb_eq in E. subst. now rewrite key_eqb_refl.
      * destruct (key_eqb k' (q_key e)) eqn:E'; [|reflexivity].
        apply key_eqb_eq in E'. subst. now rewrite key_eqb_refl in E.
    + destruct (key_eqb (q_key e) k') eqn:E; [|exact IH].
      apply key_eqb_eq in E. subst k'. now rewrite Ek.
Qed.

Lemma lookup_set_data_same k d c :
  getQueryData_in (set_data k d c) k = Some d.
Proof. now rewrite lookup_set_data, key_eqb_refl. Qed.

Lemma lookup_set_data_other k d c k' :
  k' <> k -> getQueryData_in (set_data k d c) k' = getQueryData_in c k'.
Proof. intros H. now rewrite lookup_set_data, key_eqb_neq. Qed.

Lemma keys_set_data k d c :
  map q_key (set_data k d c) =
  if existsb (fun e => key_eqb (q_key e) k) c
  then map q_key c else map q_key c ++ [k].
Proof.
  induction c as [|e c IH]; simpl; [reflexivity|].
  destruct (key_eqb (q_key e) k) eqn:E; simpl; [reflexivity|].
  rewrite IH. now destruct (existsb _ c).
Qed.

Lemma existsb_key_In k c :
  existsb (fun e => key_eqb (q_key e) k) c = true <-> In k (map q_key c).
Proof.
  rewrite existsb_exists, in_map_iff. split.
  - intros (e & Hin & He). apply key_eqb_eq in He. eauto.
  - intros (e & He & Hin). exists e. split; [assumption|].
    now apply key_eqb_eq.
Qed.

Lemma wf_set_data k d c : wf_cache c -> wf_cache (set_data k d c).
Proof.
  unfold wf_cache. intros H. rewrite keys_set_data.
  destruct (existsb _ c) eqn:E; [assumption|].
  apply NoDup_app; [assumption | repeat constructor; intros [] | ].
  intros x Hx [<-|[]].
  apply existsb_key_In in Hx. congruence.
Qed.

(** *** Invalidation *)

Lemma keys_invalidate f c : map q_key (invalidate f c) = map q_key c.
Proof.
  unfold invalidate. rewrite map_map. apply map_ext.
  intros e. now destruct (partialMatchKey (q_key e) f).
Qed.

Lemma wf_invalidate f c : wf_cache c -> wf_cache (invalidate f c).
Proof. unfold wf_cache. now rewrite keys_invalidate. Qed.

Lemma lookup_invalidate f c k :
  getQueryData_in (invalidate f c) k = getQueryData_in c k.
Proof.
  unfold getQueryData_in, find_query, invalidate.
  induction c as [|e c IH]; simpl; [reflexivity|].
  destruct (partialMatchKey (q_key e) f); simpl;
    destruct (key_eqb (q_key e) k); simpl; auto.
Qed.

Lemma invalidate_marks f c e :
  In e (invalidate f c) ->
  partialMatchKey (q_key e) f = true -> q_invalidated e = true.
Proof.
  unfold invalidate. rewrite in_map_iff. intros (e0 & <- & _).
  destruct (partialMatchKey (q_key e0) f) eqn:E; simpl; [reflexivity|].
  congruence.
Qed.

Lemma invalidate_keeps_marks f g c :
  (forall e, In e c -> partialMatchKey (q_key e) f = true ->
             q_invalidated e = true) ->
  forall e, In e (invalidate g c) -> partialMatchKey (q_key e) f = true ->
            q_invalidated e = true.
Proof.
  intros H e. unfold invalidate. rewrite in_map_iff. intros (e0 & <- & Hin).
  destruct (partialMatchKey (q_key e0) g); simpl; [reflexivity|].
  now apply H.
Qed.

(** *** World plumbing *)

Lemma with_cache_same w : with_cache w (cache w) = w.
Proof. now destruct w. Qed.

End StoreFacts.

(* ------------------------------------------------------------------ *)
(** ** Batches of cache writes *)

Module BatchFacts.
Import Notions Errors Domain Store StoreFacts.

Lemma forEach_setQueryData {X} (key : X -> QueryKey) u (l : list X) : forall w,
  forEach l (fun x => setQueryData (key x) u ;; ret tt) w =
  match set_all u (map key l) (cache w) with
  | (None, c') => (inr tt, with_cache w c')
  | (Some t, c') => (inl t, with_cache w c')
  end.
Proof.
  induction l as [|x l IH]; intros w; simpl.
  - unfold ret. now rewrite with_cache_same.
  - unfold bind at 1. unfold bind at 1. unfold setQueryData at 1.
    destruct (u (getQueryData_in (cache w) (key x))) as [t|[d|]]; simpl.
    + now rewrite with_cache_same.
    + rewrite IH. simpl. destruct (set_all u (map key l) _) as [[t|] c']; reflexivity.
    + rewrite IH. reflexivity.
Qed.

Lemma forEach_restore (qs : list (QueryKey * option CacheData)) : forall w,
  forEach qs (fun q => setQueryData_value (fst q) (snd q) ;; ret tt) w =
  (inr tt, with_cache w (restore_all qs (cache w))).
Proof.
  induction qs as [|[k [d|]] qs IH]; intros w; simpl.
  - unfold ret. now rewrite with_cache_same.
  - unfold bind at 1. unfold bind at 1.
    unfold setQueryData_value, setQueryData; simpl.
    rewrite IH. reflexivity.
  - unfold bind at 1. unfold bind at 1.
    unfold setQueryData_value, setQueryData; simpl.
    rewrite IH. reflexivity.
Qed.

Lemma set_all_lookup u ks : forall c c',
  NoDup ks ->
  set_all u ks c = (None, c') ->
  forall k,
    (In k ks -> getQueryData_in c' k = settle u (getQueryData_in c k)) /\
    (~ In k ks -> getQueryData_in c' k = getQueryData_in c k).
Proof.
  induction ks as [|k1 ks IH]; intros c c' Hnd H k; simpl in H.
  - inversion H; subst. split; [intros [] | reflexivity].
  - inversion Hnd as [|? ? Hnotin Hnd']; subst.
    destruct (u (getQueryData_in c k1)) as [t|[d|]] eqn:Eu; [discriminate| |].
    + destruct (IH _ _ Hnd' H k) as [Hin Hout].
      destruct (QueryKey_eq_dec k k1) as [->|Hne].
      * split; intros Hk.
        -- rewrite (Hout Hnotin), lookup_set_data_same.
           unfold settle. now rewrite Eu.
        -- exfalso. apply Hk. now left.
      * rewrite (lookup_set_data_other _ _ Hne) in Hin, Hout.
        split.
        -- intros [->|Hk]; [congruence | now apply Hin].
        -- intros Hk. apply Hout. intros Hk'. apply Hk. now right.
    + destruct (IH _ _ Hnd' H k) as [Hin Hout].
      destruct (QueryKey_eq_dec k k1) as [->|Hne].
      * split; intros Hk.
        -- rewrite (Hout Hnotin). unfold settle. now rewrite Eu.
        -- exfalso. apply Hk. now left.
      * split.
        -- intros [->|Hk]; [congruence | now apply Hin].
        -- intros Hk. apply Hout. intros Hk'. apply Hk. now right.
Qed.

Lemma restore_all_lookup qs : forall c k,
  NoDup (map fst qs) ->
  (forall d, In (k, Some d) qs ->
             getQueryData_in (restore_all qs c) k = Some d) /\
  ((forall d, ~ In (k, Some d) qs) ->
   getQueryData_in (restore_all qs c) k = getQueryData_in c k).
Proof.
  induction qs as [|[k1 d1] qs IH]; intros c k Hnd; simpl.
  - split; [intros d [] | reflexivity].
  - simpl in Hnd. inversion Hnd as [|? ? Hnotin Hnd']; subst.
    assert (Hfresh : forall x, In (k1, x) qs -> False).
    { intros x Hx. apply Hnotin. apply in_map_iff. now exists (k1, x). }
    destruct d1 as [d1|].
    + destruct (IH (set_data k1 d1 c) k Hnd') as [Hin Hout]. split.
      * intros d [E|Hd]; [|now apply Hin].
        inversion E; subst.
        rewrite Hout; [apply lookup_set_data_same|].
        intros d' Hd'. eapply Hfresh; eauto.
      * intros Hno. rewrite Hout.
        -- apply lookup_set_data_other. intros ->.
           apply (Hno d1). now left.
        -- intros d Hd. apply (Hno d). now right.
    + destruct (IH c k Hnd') as [Hin Hout]. split.
      * intros d [E|Hd]; [discriminate | now apply Hin].
      * intros Hno. apply Hout. intros d Hd. apply (Hno d). now right.
Qed.

(** *** The queries under a filter key *)

Lemma snapshot_keys f c : map fst (snapshot f c) = map q_key (findAll f c).
Proof. unfold snapshot. rewrite map_map. reflexivity. Qed.

Lemma NoDup_map_filter {A B} (g : A -> B) (p : A -> bool) l :
  NoDup (map g l) -> NoDup (map g (filter p l)).
Proof.
  induction l as [|a l IH]; simpl; intros H; [constructor|].
  inversion H as [|? ? Hnotin Hnd]; subst.
  destruct (p a); simpl; [|now apply IH].
  constructor; [|now apply IH].
  intros Hin. apply Hnotin. apply in_map_iff in Hin.
  destruct Hin as (x & Hx & Hf). apply filter_In in Hf.
  apply in_map_iff. exists x. tauto.
Qed.

Lemma findAll_keys_NoDup f c : wf_cache c -> NoDup (map q_key (findAll f c)).
Proof. apply NoDup_map_filter. Qed.

Lemma In_findAll_keys f c k :
  In k (map q_key (findAll f c)) <->
  In k (map q_key c) /\ partialMatchKey k f = true.
Proof.
  unfold findAll. rewrite !in_map_iff. split.
  - intros (e & <- & He). apply filter_In in He. destruct He. eauto.
  - intros [(e & <- & He) Hm]. exists e. split; [reflexivity|].
    apply filter_In. auto.
Qed.

Lemma lookup_absent c k : ~ In k (map q_key c) -> getQueryData_in c k = None.
Proof.
  unfold getQueryData_in, find_query. intros H.
  destruct (find _ c) as [e|] eqn:E; [|reflexivity].
  apply find_some in E. destruct E as [Hin He]. apply key_eqb_eq in He.
  exfalso. apply H. subst. now apply in_map.
Qed.

Lemma lookup_wf c e :
  wf_cache c -> In e c -> getQueryData_in c (q_key e) = q_data e.
Proof.
  unfold wf_cache, getQueryData_in, find_query.
  induction c as [|e0 c IH]; simpl; [intros _ []|].
  intros Hnd [->|Hin].
  - now rewrite key_eqb_refl.
  - inversion Hnd as [|? ? Hnotin Hnd']; subst.
    destruct (key_eqb (q_key e0) (q_key e)) eqn:E.
    + apply key_eqb_eq in E. exfalso. apply Hnotin. rewrite E. now apply in_map.
    + now apply IH.
Qed.

(** Restoring the snapshot of a filter key over any cache that agrees with
    the snapshotted one outside the filter, and still holds no data where
    the snapshot holds none, gives back the snapshotted data at every key. *)
Lemma restore_snapshot f c c1 :
  wf_cache c ->
  (forall k, ~ In k (map q_key (findAll f c)) ->
             getQueryData_in c1 k = getQueryData_in c k) ->
  (forall k, getQueryData_in c k = None -> getQueryData_in c1 k = None) ->
  forall k, getQueryData_in (restore_all (snapshot f c) c1) k
            = getQueryData_in c k.
Proof.
  intros Hwf Hout Hnone k.
  assert (Hnd : NoDup (map fst (snapshot f c)))
    by (rewrite snapshot_keys; now apply findAll_keys_NoDup).
  destruct (restore_all_lookup (snapshot f c) c1 k Hnd) as [Hin Hno].
  destruct (getQueryData_in c k) as [d|] eqn:Ek.
  - destruct (in_dec QueryKey_eq_dec k (map q_key (findAll f c))) as [Hk|Hk].
    + apply Hin. apply in_map_iff in Hk. destruct Hk as (e & <- & He).
      unfold snapshot. apply in_map_iff. exists e. split; [|assumption].
      f_equal. rewrite <- Ek. symmetry. apply lookup_wf; [assumption|].
      unfold findAll in He. now apply filter_In in He.
    + rewrite Hno; [rewrite (Hout _ Hk); assumption|].
      intros d' Hd'. apply Hk. rewrite <- snapshot_keys.
      apply in_map_iff. now exists (k, Some d').
  - rewrite Hno; [now apply Hnone|].
    intros d Hd. unfold snapshot in Hd. apply in_map_iff in Hd.
    destruct Hd as (e & E & He). inversion E; subst.
    unfold findAll in He. apply filter_In in He. destruct He as [He _].
    rewrite (lookup_wf _ Hwf He) in Ek. congruence.
Qed.

End BatchFacts.

(* ------------------------------------------------------------------ *)
(** ** The mutation life cycle *)

Module LifecycleFacts.
Import Notions Errors Domain Store StoreFacts BatchFacts Mutations.

Lemma total_ret {A} (a : A) : total (ret a).
Proof. intros w. now exists a, w. Qed.

Lemma total_emit e : total (emit e).
Proof. intros w. now exists tt, (with_event w e). Qed.

Lemma total_bind {A B} (m : M A) (k : A -> M B) :
  total m -> (forall a, total (k a)) -> total (bind m k).
Proof.
  intros Hm Hk w. destruct (Hm w) as (a & w1 & E).
  destruct (Hk a w1) as (b & w2 & E2).
  exists b, w2. unfold bind. now rewrite E.
Qed.

Lemma total_invalidateQueries f : total (invalidateQueries f).
Proof. intros w. now eexists _, _. Qed.

Lemma total_setQueryData_value k d : total (setQueryData_value k d).
Proof.
  intros w. unfold setQueryData_value, setQueryData.
  destruct d; now eexists _, _.
Qed.

Lemma total_surface o error fallback k name :
  total (surface o error fallback k name).
Proof.
  unfold surface, handleMutationError, options_onError.
  apply total_bind.
  - destruct (showErrorToast o); [|apply total_ret].
    apply total_bind; [apply total_emit | intros; apply total_emit].
  - intros _. destruct (with_onError o); [apply total_emit | apply total_ret].
Qed.

Lemma total_options_onSuccess o : total (options_onSuccess o).
Proof.
  unfold options_onSuccess.
  destruct (with_onSuccess o); [apply total_emit | apply total_ret].
Qed.

(** Whatever path a mutation takes, a total [onError] and [onSuccess]
    make [onSettled] the last callback to run. *)
Lemma execute_settles {V R C} (o : MutationOptions V R C) (v : V) :
  (forall error ctx, total (onError o error v ctx)) ->
  (forall r, total (onSuccess o r)) ->
  total (onSettled o v) ->
  forall w, exists w0, snd (execute o v w) = snd (onSettled o v w0).
Proof.
  intros He Hs Hset w. unfold execute.
  assert (Hfail : forall ctx error w1,
            exists w0,
              snd ((onError o error v ctx ;; onSettled o v ;; @throw R error) w1)
              = snd (onSettled o v w0)).
  { intros ctx error w1. unfold bind.
    destruct (He error ctx w1) as ([] & w2 & E). rewrite E.
    exists w2. destruct (Hset w2) as ([] & w3 & E3). rewrite E3. reflexivity. }
  destruct (onMutate o v w) as [[error|ctx] w1]; [apply Hfail|].
  unfold bind at 1.
  destruct (mutationFn o v w1) as [[error|r] w2] eqn:Efn.
  - apply Hfail.
  - unfold bind at 1. destruct (Hs r w2) as ([] & w3 & E3). rewrite E3.
    unfold bind at 1. destruct (Hset w3) as ([] & w4 & E4). rewrite E4.
    simpl. exists w3. now rewrite E4.
Qed.

Lemma total_forEach {A} (l : list A) (f : A -> M Datatypes.unit) :
  (forall a, total (f a)) -> total (forEach l f).
Proof.
  intros Hf. induction l as [|a l IH]; simpl; [apply total_ret|].
  apply total_bind; [apply Hf | intros _; exact IH].
Qed.

Lemma total_status_onError o error v ctx :
  total (useUpdateStatus.onError o error v ctx).
Proof.
  unfold useUpdateStatus.onError. apply total_bind.
  - destruct ctx as [ctx|]; [|apply total_ret].
    apply total_forEach. intros q.
    apply total_bind; [apply total_setQueryData_value | intros; apply total_ret].
  - intros _. apply total_surface.
Qed.

Lemma total_update_onError o error v ctx :
  total (useUpdateMaterialRequest.onError o error v ctx).
Proof.
  unfold useUpdateMaterialRequest.onError.
  apply total_bind; [|intros _; apply total_bind; [|intros _; apply total_surface]].
  - destruct ctx as [[[d|] pr]|]; try apply total_ret.
    apply total_bind; [apply total_setQueryData_value | intros; apply total_ret].
  - destruct ctx as [[prs [d|]]|]; try apply total_ret.
    apply total_bind; [apply total_setQueryData_value | intros; apply total_ret].
Qed.

Lemma total_delete_onError o error id ctx :
  total (useDeleteMaterialRequest.onError o error id ctx).
Proof.
  unfold useDeleteMaterialRequest.onError.
  apply total_bind; [|intros _; apply total_surface].
  destruct ctx as [[[d|]]|]; try apply total_ret.
  apply total_bind; [apply total_setQueryData_value | intros; apply total_ret].
Qed.

(** *** Reading after a mutation *)

Lemma find_query_some k c e :
  find_query k c = Some e -> In e c /\ q_key e = k.
Proof.
  unfold find_query. intros H. apply find_some in H.
  destruct H as [Hin Hk]. split; [exact Hin | now apply key_eqb_eq].
Qed.

Lemma invalidated_is_stale c :
  (forall e, In e c ->
             partialMatchKey (q_key e) QUERY_KEYS.materialRequests = true ->
             q_invalidated e = true) ->
  forall aged k,
    partialMatchKey k QUERY_KEYS.materialRequests = true ->
    Fetch.isStale aged c k = true.
Proof.
  intros H aged k Hk. unfold Fetch.isStale.
  destruct (find_query k c) as [e|] eqn:E; [|reflexivity].
  apply find_query_some in E. destruct E as [Hin Hkey].
  destruct (q_data e); [|reflexivity].
  rewrite (H e Hin) by (now rewrite Hkey). reflexivity.
Qed.

Lemma fresh_after_set_data k d c :
  Fetch.isStale false (set_data k d c) k = false.
Proof.
  unfold Fetch.isStale, find_query.
  induction c as [|e c IH]; cbn [set_data find q_key].
  - rewrite key_eqb_refl. reflexivity.
  - destruct (key_eqb (q_key e) k) eqn:E; cbn [find q_key]; rewrite E.
    + reflexivity.
    + exact IH.
Qed.

Lemma calls_before_query_function w :
  length (remote_calls (with_event w EvQueryFn)) = length (remote_calls w).
Proof.
  unfold remote_calls, with_event. cbn [trace].
  rewrite filter_app. cbn. now rewrite app_nil_r.
Qed.

(** A list query the store answers without error makes the query function
    return the store's rows and count. *)
Lemma list_query_answered f p s w :
  onLine w = true ->
  r_error (list_answer f p s w) = None ->
  exists page w1,
    Fetch.fetchMaterialRequests f p s (with_event w EvQueryFn)
    = (inr page, w1) /\
    cache w1 = cache w /\
    map stored (data page)
    = map stored (or_else (r_data (list_answer f p s w)) []) /\
    totalCount (pagination page) = or_else (r_count (list_answer f p s w)) 0.
Proof.
  intros Hon Herr.
  unfold Fetch.fetchMaterialRequests, bind, navigator_onLine, call, ret, emit.
  cbn [onLine with_event negb fst snd remote]. rewrite Hon. cbn [negb].
  rewrite calls_before_query_function.
  change (remote (with_event w EvQueryFn)) with (remote w).
  fold (list_answer f p s w). rewrite Herr.
  destruct (r_data (list_answer f p s w)) as [[|r rows]|];
    cbn [fst snd or_else].
  - eexists _, _. split; [reflexivity|]. repeat split.
  - destruct (r_error (select_profiles_in _ _ _));
      eexists _, _; (split; [reflexivity|]); cbn [data pagination totalCount];
      (split; [reflexivity|]); (split; [|reflexivity]);
      rewrite map_map; apply map_ext; intros x; reflexivity.
  - eexists _, _. split; [reflexivity|]. repeat split.
Qed.

(** A single-row query the store answers with a row makes the query
    function return that row. *)
Lemma detail_query_answered id w request :
  onLine w = true ->
  r_error (detail_answer id w) = None ->
  r_data (detail_answer id w) = Some request ->
  exists row w1,
    Fetch.fetchMaterialRequest id (with_event w EvQueryFn) = (inr row, w1) /\
    cache w1 = cache w /\
    stored row = stored request.
Proof.
  intros Hon Herr Hdata.
  unfold Fetch.fetchMaterialRequest, bind, navigator_onLine, call, ret.
  cbn [onLine with_event negb fst snd remote]. rewrite Hon. cbn [negb].
  rewrite calls_before_query_function.
  change (remote (with_event w EvQueryFn)) with (remote w).
  fold (detail_answer id w). rewrite Herr, Hdata. cbn [fst snd].
  eexists _, _. split; [reflexivity|]. split; reflexivity.
Qed.

Lemma retryer_first_success {A} retry delay (fn : M A) fuel w a w1 :
  fn (with_event w EvQueryFn) = (inr a, w1) ->
  Fetch.retryer retry delay fn fuel 0 w = Some (inr a, w1).
Proof. intros H. destruct fuel; cbn [Fetch.retryer]; now rewrite H. Qed.

(** With fuel for every retry its policy allows, a retryer ends, and it
    has run the query function. *)
Lemma retryer_ends {A} retry delay (fn : M A) bound :
  (forall failureCount error,
      retry failureCount error = true -> (failureCount < bound)%nat) ->
  (forall w, exists t, trace (snd (fn w)) = trace w ++ t) ->
  forall fuel failureCount w,
    (bound <= failureCount + fuel)%nat ->
    exists res w',
      Fetch.retryer retry delay fn fuel failureCount w = Some (res, w') /\
      exists t, trace w' = trace w ++ stamp (cache w) EvQueryFn :: t.
Proof.
  intros Hb Hext. induction fuel as [|fuel IH]; intros fc w Hfuel;
    cbn [Fetch.retryer];
    destruct (Hext (with_event w EvQueryFn)) as [t Ht];
    destruct (fn (with_event w EvQueryFn)) as [[error|a] w1];
    cbn [snd trace with_event] in Ht; rewrite <- app_assoc in Ht;
    try (eexists _, _; split; [reflexivity|]; exists t; exact Ht);
    destruct (retry fc error) eqn:E;
    try (eexists _, _; split; [reflexivity|]; exists t; exact Ht).
  - apply Hb in E. lia.
  - destruct (IH (S fc) (with_event w1 (EvSleep (delay fc))))
      as (res & w' & Hrun & t' & Ht'); [lia|].
    exists res, w'. split; [exact Hrun|].
    cbn [trace with_event] in Ht'. rewrite Ht in Ht'.
    eexists. rewrite Ht'. rewrite <- !app_assoc. cbn [app]. reflexivity.
Qed.

Lemma fetch_list_extends f p s w :
  exists t, trace (snd (Fetch.fetchMaterialRequests f p s w)) = trace w ++ t.
Proof.
  unfold Fetch.fetchMaterialRequests, bind, navigator_onLine, call, throw,
    ret, emit.
  destruct (onLine w); cbn [negb fst snd];
    [|exists []; now rewrite app_nil_r].
  destruct (r_error (select_list _ _ _)); cbn [fst snd trace with_event];
    [eexists; reflexivity|].
  destruct (r_data (select_list _ _ _)) as [[|r rows]|];
    cbn [fst snd trace with_event]; try (eexists; reflexivity).
  destruct (r_error (select_profiles_in _ _ _));
    cbn [fst snd trace with_event]; rewrite <- ?app_assoc;
    eexists; reflexivity.
Qed.

Lemma fetch_single_extends id w :
  exists t, trace (snd (Fetch.fetchMaterialRequest id w)) = trace w ++ t.
Proof.
  unfold Fetch.fetchMaterialRequest, bind, navigator_onLine, call, throw, ret.
  destruct (onLine w); cbn [negb fst snd];
    [|exists []; now rewrite app_nil_r].
  destruct (r_error (select_single _ _ _)); cbn [fst snd trace with_event];
    [eexists; reflexivity|].
  destruct (r_data (select_single _ _ _)); cbn [fst snd trace with_event];
    rewrite <- ?app_assoc; eexists; reflexivity.
Qed.

Lemma retry_list_bound failureCount error :
  Fetch.retry_list failureCount error = true -> (failureCount < 3)%nat.
Proof.
  unfold Fetch.retry_list. destruct (Fetch.is_code _ _); [discriminate|].
  apply Nat.ltb_lt.
Qed.

Lemma retry_single_bound failureCount error :
  Fetch.retry_single failureCount error = true -> (failureCount < 2)%nat.
Proof.
  unfold Fetch.retry_single. destruct (Fetch.is_code _ _); [discriminate|].
  apply Nat.ltb_lt.
Qed.

(** C5. However an update, status or delete mutation ends (remote
    success, remote failure, offline, or a throw in the optimistic step),
    once it has settled every cache entry whose key lies under the
    material-requests base key (the list keys and the detail keys, among
    them the one of the mutated id) is marked invalidated. So every such
    key is stale, whatever its age, and a read of a list or detail key
    after the mutation does not serve the cache: it runs the fetch, which
    ends (given fuel for the retries its policy allows), and when the
    store answers the query it returns the store's rows and count (for a
    single request the store's row), stores them at the key in place of
    what the mutation wrote there, and leaves the key fresh. *)
Theorem settled_mutation_invalidates_namespace :
  (forall f p s, partialMatchKey (QUERY_KEYS.materialRequestsList f p s)
                                 QUERY_KEYS.materialRequests = true) /\
  (forall id, partialMatchKey (QUERY_KEYS.materialRequest id)
                              QUERY_KEYS.materialRequests = true) /\
  (forall o v w e,
      In e (cache (snd (useUpdateMaterialRequest.mutate o v w))) ->
      partialMatchKey (q_key e) QUERY_KEYS.materialRequests = true ->
      q_invalidated e = true) /\
  (forall o v w e,
      In e (cache (snd (useUpdateStatus.mutate o v w))) ->
      partialMatchKey (q_key e) QUERY_KEYS.materialRequests = true ->
      q_invalidated e = true) /\
  (forall o id w e,
      In e (cache (snd (useDeleteMaterialRequest.mutate o id w))) ->
      partialMatchKey (q_key e) QUERY_KEYS.materialRequests = true ->
      q_invalidated e = true) /\
  (forall w' aged k,
      settled w' ->
      partialMatchKey k QUERY_KEYS.materialRequests = true ->
      Fetch.isStale aged (cache w') k = true) /\
  (forall w' f p s aged fuel,
      settled w' ->
      ((3 <= fuel)%nat ->
       exists res w'',
         Fetch.useMaterialRequests_read f p s aged fuel w' = Some (res, w'') /\
         exists t, trace w'' = trace w' ++ stamp (cache w') EvQueryFn :: t) /\
      (onLine w' = true ->
       r_error (list_answer f p s w') = None ->
       exists page w'',
         Fetch.useMaterialRequests_read f p s aged fuel w'
         = Some (inr (Some (DPage page)), w'') /\
         map stored (data page)
         = map stored (or_else (r_data (list_answer f p s w')) []) /\
         totalCount (pagination page)
         = or_else (r_count (list_answer f p s w')) 0 /\
         getQueryData_in (cache w'') (QUERY_KEYS.materialRequestsList f p s)
         = Some (DPage page) /\
         Fetch.isStale false (cache w'')
                       (QUERY_KEYS.materialRequestsList f p s) = false)) /\
  (forall w' id aged fuel,
      settled w' ->
      ((2 <= fuel)%nat ->
       exists res w'',
         Fetch.useMaterialRequest_read id aged fuel w' = Some (res, w'') /\
         exists t, trace w'' = trace w' ++ stamp (cache w') EvQueryFn :: t) /\
      (forall request,
          onLine w' = true ->
          r_error (detail_answer id w') = None ->
          r_data (detail_answer id w') = Some request ->
          exists row w'',
            Fetch.useMaterialRequest_read id aged fuel w'
            = Some (inr (Some (DEntity row)), w'') /\
            stored row = stored request /\
            getQueryData_in (cache w'') (QUERY_KEYS.materialRequest id)
            = Some (DEntity row) /\
            Fetch.isStale false (cache w'') (QUERY_KEYS.materialRequest id)
            = false)).
Proof.
  assert (Hupdate : forall o v w e,
      In e (cache (snd (useUpdateMaterialRequest.mutate o v w))) ->
      partialMatchKey (q_key e) QUERY_KEYS.materialRequests = true ->
      q_invalidated e = true).
  { intros o v w e.
    destruct (execute_settles (useUpdateMaterialRequest.options o) v) with (w := w)
      as [w0 E].
    + intros; apply total_update_onError.
    + intros; apply total_options_onSuccess.
    + apply total_bind; intros; apply total_invalidateQueries.
    + unfold useUpdateMaterialRequest.mutate. rewrite E. simpl.
      apply invalidate_keeps_marks. apply invalidate_marks. }
  assert (Hstatus : forall o v w e,
      In e (cache (snd (useUpdateStatus.mutate o v w))) ->
      partialMatchKey (q_key e) QUERY_KEYS.materialRequests = true ->
      q_invalidated e = true).
  { intros o v w e.
    destruct (execute_settles (useUpdateStatus.options o) v) with (w := w)
      as [w0 E].
    + intros; apply total_status_onError.
    + intros; apply total_options_onSuccess.
    + apply total_invalidateQueries.
    + unfold useUpdateStatus.mutate. rewrite E. simpl. apply invalidate_marks. }
  assert (Hdelete : forall o id w e,
      In e (cache (snd (useDeleteMaterialRequest.mutate o id w))) ->
      partialMatchKey (q_key e) QUERY_KEYS.materialRequests = true ->
      q_invalidated e = true).
  { intros o id w e.
    destruct (execute_settles (useDeleteMaterialRequest.options o) id) with (w := w)
      as [w0 E].
    + intros; apply total_delete_onError.
    + intros; apply total_options_onSuccess.
    + apply total_invalidateQueries.
    + unfold useDeleteMaterialRequest.mutate. rewrite E. simpl.
      apply invalidate_marks. }
  assert (Hstale : forall w' aged k,
      settled w' ->
      partialMatchKey k QUERY_KEYS.materialRequests = true ->
      Fetch.isStale aged (cache w') k = true).
  { intros w' aged k Hset. apply invalidated_is_stale.
    destruct Hset as [(o & v & w & ->) | [(o & v & w & ->) | (o & v & w & ->)]];
      [apply Hupdate | apply Hstatus | apply Hdelete]. }
  split; [exact list_key_matches|]. split; [exact detail_key_matches|].
  split; [exact Hupdate|]. split; [exact Hstatus|]. split; [exact Hdelete|].
  split; [exact Hstale|]. split.
  - intros w' f p s aged fuel Hset.
    unfold Fetch.useMaterialRequests_read.
    rewrite (Hstale w' aged _ Hset (list_key_matches f p s)).
    unfold Fetch.useMaterialRequests_fetch. split.
    + intros Hfuel.
      destruct (@retryer_ends _ Fetch.retry_list Fetch.retryDelay
                  (Fetch.fetchMaterialRequests f p s) 3 retry_list_bound
                  (fetch_list_extends f p s) fuel 0%nat w')
        as (res & w1 & Hrun & t & Ht); [lia|].
      rewrite Hrun. destruct res as [error|page]; eexists _, _;
        (split; [reflexivity|]); exists t; exact Ht.
    + intros Hon Herr.
      destruct (list_query_answered f p s w' Hon Herr)
        as (page & w1 & Hfn & Hc & Hrows & Hcount).
      rewrite (retryer_first_success _ _ _ fuel _ Hfn).
      exists page. eexists. split; [reflexivity|].
      split; [exact Hrows|]. split; [exact Hcount|].
      cbn [cache with_cache]. split;
        [apply lookup_set_data_same | apply fresh_after_set_data].
  - intros w' id aged fuel Hset.
    unfold Fetch.useMaterialRequest_read.
    rewrite (Hstale w' aged _ Hset (detail_key_matches id)).
    unfold Fetch.useMaterialRequest_fetch. split.
    + intros Hfuel.
      destruct (@retryer_ends _ Fetch.retry_single
                  Fetch.retryDelay (Fetch.fetchMaterialRequest id) 2
                  retry_single_bound (fetch_single_extends id) fuel 0%nat w')
        as (res & w1 & Hrun & t & Ht); [lia|].
      rewrite Hrun. destruct res as [error|row]; eexists _, _;
        (split; [reflexivity|]); exists t; exact Ht.
    + intros request Hon Herr Hdata.
      destruct (detail_query_answered id w' Hon Herr Hdata)
        as (row & w1 & Hfn & Hc & Hrow).
      rewrite (retryer_first_success _ _ _ fuel _ Hfn).
      exists row. eexists. split; [reflexivity|].
      split; [exact Hrow|].
      cbn [cache with_cache]. split;
        [apply lookup_set_data_same | apply fresh_after_set_data].
Qed.

End LifecycleFacts.

Module LifecycleWitness.
Import Notions Errors Domain Store Mutations Scenario.

(** X is approved against a store that accepts the change; the first page,
    read afterwards, is fetched and shows the row as the store holds it. *)
Lemma settled_mutation_invalidates_namespace_witness :
  let w' := snd (useUpdateStatus.mutate defaultHookOptions approve_X
                   (world true (accepting X_on_server) read_cache)) in
  settled w' /\
  Fetch.isStale false (cache w') first_page = true /\
  exists page w'',
    Fetch.useMaterialRequests_read
      None (Some {| pageIndex := 0; pageSize := 10 |}) None false 0 w'
    = Some (inr (Some (DPage page)), w'') /\
    map stored (data page) = [X_on_server] /\
    getQueryData_in (cache w'') first_page = Some (DPage page) /\
    Fetch.isStale false (cache w'') first_page = false.
Proof.
  intros w'.
  assert (Hset : settled w')
    by (right; left; eexists _, _, _; reflexivity).
  destruct LifecycleFacts.settled_mutation_invalidates_namespace
    as (_ & _ & _ & _ & _ & Hstale & Hlist & _).
  split; [exact Hset|]. split; [now apply Hstale|].
  destruct (Hlist w' None (Some {| pageIndex := 0; pageSize := 10 |}) None
              false 0%nat Hset) as [_ Hread].
  destruct (Hread eq_refl eq_refl)
    as (page & w'' & Hrun & Hrows & _ & Hc & Hfresh).
  exists page, w''. split; [exact Hrun|]. split; [exact Hrows|].
  split; [exact Hc | exact Hfresh].
Defined.

End LifecycleWitness.

(* ------------------------------------------------------------------ *)
(** ** Optimistic update and rollback *)

Module RollbackFacts.
Import Notions Errors Domain Store StoreFacts BatchFacts Mutations LifecycleFacts.

Lemma surface_run o error fallback k name w :
  surface o error fallback k name w =
  (inr tt,
   with_trace w (trace w ++
                 map (stamp (cache w))
                     (surface_events o (toAppError error fallback) k name))).
Proof.
  unfold surface, handleMutationError, options_onError, surface_events, bind, emit.
  destruct w as [ol nw rm c t].
  destruct (showErrorToast o), (with_onError o); unfold with_trace, with_event, ret;
    simpl; rewrite <- ?app_assoc; simpl; rewrite ?app_nil_r; reflexivity.
Qed.

Lemma new_events_app w t :
  skipn (length (trace w)) (trace w ++ t) = t.
Proof.
  rewrite skipn_app, skipn_all, Nat.sub_diag. reflexivity.
Qed.

Lemma set_all_total u ks :
  (forall x, exists y, u x = inr y) ->
  forall c, fst (set_all u ks c) = None.
Proof.
  intros Hu. induction ks as [|k ks IH]; intros c; simpl; [reflexivity|].
  destruct (Hu (getQueryData_in c k)) as [[d|] E]; rewrite E; apply IH.
Qed.

Lemma optimistic_lookup u c :
  wf_cache c ->
  (forall x, exists y, u x = inr y) ->
  u None = inr None ->
  forall k,
    getQueryData_in (optimistic u c) k =
    if partialMatchKey k ns then settle u (getQueryData_in c k)
    else getQueryData_in c k.
Proof.
  intros Hwf Hu Hnone k. unfold optimistic.
  destruct (set_all u (map q_key (findAll ns c)) c) as [t c1] eqn:E.
  assert (Ht : t = None).
  { change t with (fst (t, c1)). rewrite <- E. now apply set_all_total. }
  subst t. simpl.
  destruct (@set_all_lookup u _ c c1 (findAll_keys_NoDup ns Hwf) E k)
    as [Hin Hout].
  destruct (in_dec QueryKey_eq_dec k (map q_key (findAll ns c))) as [Hk|Hk].
  - rewrite (Hin Hk). apply In_findAll_keys in Hk. destruct Hk as [_ ->].
    reflexivity.
  - rewrite (Hout Hk).
    destruct (partialMatchKey k ns) eqn:Em; [|reflexivity].
    assert (Habs : ~ In k (map q_key c)).
    { intros Hin'. apply Hk. apply In_findAll_keys. auto. }
    rewrite (lookup_absent _ _ Habs). unfold settle. now rewrite Hnone.
Qed.

Lemma setQueriesData_run u w :
  (forall x, exists y, u x = inr y) ->
  setQueriesData ns u w = (inr tt, with_cache w (optimistic u (cache w))).
Proof.
  intros Hu. unfold setQueriesData, optimistic.
  rewrite (forEach_setQueryData q_key).
  pose proof (set_all_total u (map q_key (findAll ns (cache w))) Hu (cache w)) as Ht.
  destruct (set_all u _ (cache w)) as [t c1]. simpl in Ht. subst t. reflexivity.
Qed.

(** *** Status changes *)

Lemma status_updater_total id st x :
  exists y, useUpdateStatus.updater id st x = inr y.
Proof. destruct x as [[rows|page|row|b p]|]; simpl; eauto. Qed.

Lemma status_onMutate_run v w :
  useUpdateStatus.onMutate v w =
  (inr {| useUpdateStatus.previousData := snapshot ns (cache w) |},
   with_cache w
     (optimistic (useUpdateStatus.updater (s_id v) (s_status v)) (cache w))).
Proof.
  unfold useUpdateStatus.onMutate, cancelQueries, getQueriesData.
  unfold bind at 1. unfold ret at 1. unfold bind at 1. unfold bind at 1.
  rewrite (forEach_setQueryData fst).
  fold (snapshot QUERY_KEYS.materialRequests (cache w)). fold ns.
  rewrite snapshot_keys. unfold optimistic.
  pose proof (set_all_total (useUpdateStatus.updater (s_id v) (s_status v))
                (map q_key (findAll ns (cache w)))
                (status_updater_total (s_id v) (s_status v)) (cache w)) as Ht.
  destruct (set_all _ _ (cache w)) as [t c1]. simpl in Ht. subst t. reflexivity.
Qed.

Lemma status_onError_run o error v ctx w :
  useUpdateStatus.onError o error v (Some ctx) w =
  surface o error DB_UPDATE_FAILED op_updating "status"
          (with_cache w (restore_all (useUpdateStatus.previousData ctx) (cache w))).
Proof.
  unfold useUpdateStatus.onError. unfold bind at 1.
  rewrite forEach_restore. reflexivity.
Qed.

(** After the optimistic step and the rollback every key reads as before. *)
Lemma status_rollback_lookup id st c :
  wf_cache c ->
  forall k,
    getQueryData_in
      (restore_all (snapshot ns c)
                   (optimistic (useUpdateStatus.updater id st) c)) k
    = getQueryData_in c k.
Proof.
  intros Hwf. apply restore_snapshot; [assumption| |].
  - intros k Hk.
    rewrite optimistic_lookup;
      [|assumption|apply status_updater_total|reflexivity].
    destruct (partialMatchKey k ns) eqn:Em; [|reflexivity].
    assert (Habs : ~ In k (map q_key c)).
    { intros Hin'. apply Hk. apply In_findAll_keys. auto. }
    now rewrite (lookup_absent _ _ Habs).
  - intros k Hk.
    rewrite optimistic_lookup;
      [|assumption|apply status_updater_total|reflexivity].
    rewrite Hk. now destruct (partialMatchKey k ns).
Qed.

Lemma updateStatus_run v w :
  updateStatus v w =
  if negb (onLine w)
  then (inl (ThrownApp (offlineError (Some
          "You appear to be offline. Status could not be updated."))), w)
  else
    match r_error (status_answer v w) with
    | Some e => (inl (ThrownApp (parsePostgrestError e op_update)),
                 with_event w (EvRemote (status_call v w)))
    | None => (inr (r_data (status_answer v w)),
               with_event w (EvRemote (status_call v w)))
    end.
Proof.
  unfold updateStatus, bind, navigator_onLine, date_now, call, throw, ret,
    status_answer, status_call.
  destruct (onLine w); simpl; [|reflexivity].
  destruct (r_error _); reflexivity.
Qed.

(** The whole run of a status mutation whose remote call fails. *)
Lemma status_mutate_failure o v w e :
  onLine w = true ->
  r_error (status_answer v w) = Some e ->
  let c1 := optimistic (useUpdateStatus.updater (s_id v) (s_status v)) (cache w) in
  let c2 := restore_all (snapshot ns (cache w)) c1 in
  useUpdateStatus.mutate o v w =
  (inl (ThrownApp (parsePostgrestError e op_update)),
   {| onLine := onLine w; now := now w; remote := remote w;
      cache := invalidate ns c2;
      trace := trace w ++
               stamp c1 (EvRemote (status_call v w)) ::
               map (stamp c2)
                   (surface_events o (parsePostgrestError e op_update)
                                   op_updating "status") |}).
Proof.
  intros Hon He c1 c2.
  unfold useUpdateStatus.mutate, execute. simpl.
  rewrite status_onMutate_run. fold c1.
  unfold bind. rewrite updateStatus_run.
  change (onLine (with_cache w c1)) with (onLine w). rewrite Hon. simpl.
  change (status_answer v (with_cache w c1)) with (status_answer v w).
  change (status_call v (with_cache w c1)) with (status_call v w).
  rewrite He, status_onError_run, surface_run. simpl.
  unfold with_trace, stamp, throw, with_cache. simpl. fold c2.
  rewrite ?Hon, <- ?app_assoc. reflexivity.
Qed.

(** *** Field updates *)

Lemma detail_neq_ns id : detail id <> ns.
Proof. discriminate. Qed.

Lemma update_updater_total id data x :
  exists y, useUpdateMaterialRequest.updater id data x = inr y.
Proof. destruct x as [[rows|page|row|b p]|]; simpl; eauto. Qed.

Lemma updateMaterialRequest_run v w :
  updateMaterialRequest v w =
  if negb (onLine w)
  then (inl (ThrownApp (offlineError (Some
          "You appear to be offline. Your changes could not be saved."))), w)
  else
    match r_error (update_answer v w) with
    | Some e => (inl (ThrownApp (parsePostgrestError e op_update)),
                 with_event w (EvRemote (update_call v w)))
    | None => (inr (r_data (update_answer v w)),
               with_event w (EvRemote (update_call v w)))
    end.
Proof.
  unfold updateMaterialRequest, bind, navigator_onLine, date_now, call, throw,
    ret, update_answer, update_call.
  destruct (onLine w); simpl; [|reflexivity].
  destruct (r_error _); reflexivity.
Qed.

Lemma update_onMutate_run v w :
  useUpdateMaterialRequest.onMutate v w =
  (inr (update_context v (cache w)),
   with_cache w (update_optimistic v (cache w))).
Proof.
  unfold useUpdateMaterialRequest.onMutate, cancelQueries.
  unfold bind at 1. unfold ret at 1.
  unfold bind at 1. unfold getQueryData at 1.
  unfold bind at 1. fold ns.
  rewrite setQueriesData_run by apply update_updater_total.
  unfold bind at 1. unfold getQueryData at 1. simpl.
  unfold update_optimistic, update_context, detail.
  destruct (getQueryData_in _ (QUERY_KEYS.materialRequest (p_id v))) as [d|];
    unfold bind, setQueryData_value, setQueryData, ret; simpl.
  - reflexivity.
  - reflexivity.
Qed.

Lemma update_onError_run o error v ctx w :
  useUpdateMaterialRequest.onError o error v (Some ctx) w =
  surface o error DB_UPDATE_FAILED op_updating "material request"
          (with_cache w (update_rollback (p_id v) ctx (cache w))).
Proof.
  unfold useUpdateMaterialRequest.onError, update_rollback.
  destruct ctx as [[d0|] [d|]]; simpl;
    unfold bind, setQueryData_value, setQueryData, ret; simpl;
    rewrite ?with_cache_same; reflexivity.
Qed.

Lemma update_mutate_failure o v w e :
  onLine w = true ->
  r_error (update_answer v w) = Some e ->
  let c1 := update_optimistic v (cache w) in
  let c2 := update_rollback (p_id v) (update_context v (cache w)) c1 in
  useUpdateMaterialRequest.mutate o v w =
  (inl (ThrownApp (parsePostgrestError e op_update)),
   {| onLine := onLine w; now := now w; remote := remote w;
      cache := invalidate (detail (p_id v)) (invalidate ns c2);
      trace := trace w ++
               stamp c1 (EvRemote (update_call v w)) ::
               map (stamp c2)
                   (surface_events o (parsePostgrestError e op_update)
                                   op_updating "material request") |}).
Proof.
  intros Hon He c1 c2.
  unfold useUpdateMaterialRequest.mutate, execute. simpl.
  rewrite update_onMutate_run. fold c1.
  unfold bind. rewrite updateMaterialRequest_run.
  change (onLine (with_cache w c1)) with (onLine w). rewrite Hon. simpl.
  change (update_answer v (with_cache w c1)) with (update_answer v w).
  change (update_call v (with_cache w c1)) with (update_call v w).
  rewrite He, update_onError_run, surface_run. simpl.
  unfold with_trace, stamp, throw, with_cache. simpl. fold c2.
  rewrite ?Hon, <- ?app_assoc. reflexivity.
Qed.

(** Both snapshotted keys read as before once the rollback has run, as
    long as the detail entry is not an array. *)
Lemma update_rollback_lookup v c :
  wf_cache c ->
  isArray (getQueryData_in c (detail (p_id v))) = false ->
  let c2 := update_rollback (p_id v) (update_context v c)
                            (update_optimistic v c) in
  getQueryData_in c2 ns = getQueryData_in c ns /\
  getQueryData_in c2 (detail (p_id v)) = getQueryData_in c (detail (p_id v)).
Proof.
  intros Hwf Harr.
  set (u := useUpdateMaterialRequest.updater (p_id v) (p_data v)).
  assert (Hopt : forall k, getQueryData_in (optimistic u c) k =
                           (if partialMatchKey k ns
                            then settle u (getQueryData_in c k)
                            else getQueryData_in c k)).
  { apply optimistic_lookup;
      [assumption | apply update_updater_total | reflexivity]. }
  assert (Hprev : getQueryData_in (optimistic u c) (detail (p_id v))
                  = getQueryData_in c (detail (p_id v))).
  { rewrite Hopt. simpl. unfold settle, u.
    destruct (getQueryData_in c (detail (p_id v))) as [[rows|page|row|b p]|];
      simpl in *; congruence. }
  assert (Hbase : getQueryData_in (update_optimistic v c) ns
                  = settle u (getQueryData_in c ns)).
  { unfold update_optimistic. fold u.
    destruct (getQueryData_in (optimistic u c) (detail (p_id v))).
    - rewrite lookup_set_data_other by (intros E; symmetry in E;
                                        now apply detail_neq_ns in E).
      now rewrite Hopt.
    - now rewrite Hopt. }
  unfold update_rollback, update_context. simpl. fold u. rewrite Hprev.
  split.
  - destruct (getQueryData_in c (detail (p_id v))) as [d|] eqn:Ed.
    + rewrite lookup_set_data_other by (intros E; symmetry in E;
                                        now apply detail_neq_ns in E).
      destruct (getQueryData_in c ns) as [d0|] eqn:E0.
      * apply lookup_set_data_same.
      * rewrite Hbase. reflexivity.
    + destruct (getQueryData_in c ns) as [d0|] eqn:E0.
      * apply lookup_set_data_same.
      * rewrite Hbase. reflexivity.
  - destruct (getQueryData_in c (detail (p_id v))) as [d|] eqn:Ed.
    + apply lookup_set_data_same.
    + destruct (getQueryData_in c ns) as [d0|] eqn:E0.
      * rewrite lookup_set_data_other by apply detail_neq_ns.
        unfold update_optimistic. fold u. rewrite Hprev. exact Hprev.
      * unfold update_optimistic. fold u. rewrite Hprev. exact Hprev.
Qed.

(** *** Deletions *)

Lemma deleteMaterialRequest_run id w :
  deleteMaterialRequest id w =
  if negb (onLine w)
  then (inl (ThrownApp (offlineError (Some
          "You appear to be offline. The item could not be deleted."))), w)
  else
    match r_error (delete_answer id w) with
    | Some e => (inl (ThrownApp (parsePostgrestError e op_delete)),
                 with_event w (EvRemote (DeleteRow id)))
    | None => (inr tt, with_event w (EvRemote (DeleteRow id)))
    end.
Proof.
  unfold deleteMaterialRequest, bind, navigator_onLine, call, throw, ret,
    delete_answer.
  destruct (onLine w); simpl; [|reflexivity].
  destruct (r_error _); reflexivity.
Qed.

Lemma delete_onMutate_run id w :
  useDeleteMaterialRequest.onMutate id w =
  match delete_batch id (cache w) with
  | (Some t, c1) => (inl t, with_cache w c1)
  | (None, c1) =>
      (inr {| useDeleteMaterialRequest.previousRequests :=
                getQueryData_in (cache w) ns |},
       with_cache w c1)
  end.
Proof.
  unfold useDeleteMaterialRequest.onMutate, cancelQueries, delete_batch.
  unfold bind at 1. unfold ret at 1.
  unfold bind at 1. unfold getQueryData at 1.
  unfold bind at 1. unfold setQueriesData. fold ns.
  rewrite (forEach_setQueryData q_key).
  destruct (set_all _ _ (cache w)) as [[t|] c1]; reflexivity.
Qed.

Lemma delete_onError_run o error id ctx w :
  useDeleteMaterialRequest.onError o error id (Some ctx) w =
  surface o error DB_DELETE_FAILED op_deleting "material request"
          (with_cache w (delete_rollback ctx (cache w))).
Proof.
  unfold useDeleteMaterialRequest.onError, delete_rollback.
  destruct ctx as [[d0|]]; simpl;
    unfold bind, setQueryData_value, setQueryData, ret; simpl;
    rewrite ?with_cache_same; reflexivity.
Qed.

Lemma delete_mutate_failure o id w e c1 :
  onLine w = true ->
  delete_batch id (cache w) = (None, c1) ->
  r_error (delete_answer id w) = Some e ->
  let ctx := {| useDeleteMaterialRequest.previousRequests :=
                  getQueryData_in (cache w) ns |} in
  let c2 := delete_rollback ctx c1 in
  useDeleteMaterialRequest.mutate o id w =
  (inl (ThrownApp (parsePostgrestError e op_delete)),
   {| onLine := onLine w; now := now w; remote := remote w;
      cache := invalidate ns c2;
      trace := trace w ++
               stamp c1 (EvRemote (DeleteRow id)) ::
               map (stamp c2)
                   (surface_events o (parsePostgrestError e op_delete)
                                   op_deleting "material request") |}).
Proof.
  intros Hon Hb He ctx c2.
  unfold useDeleteMaterialRequest.mutate, execute. simpl.
  rewrite delete_onMutate_run, Hb.
  unfold bind. rewrite deleteMaterialRequest_run.
  change (onLine (with_cache w c1)) with (onLine w). rewrite Hon. simpl.
  change (delete_answer id (with_cache w c1)) with (delete_answer id w).
  rewrite He, delete_onError_run, surface_run. simpl.
  unfold with_trace, stamp, throw, with_cache. simpl. fold ctx. fold c2.
  rewrite ?Hon, <- ?app_assoc. reflexivity.
Qed.

Lemma delete_rollback_lookup id c c1 :
  wf_cache c ->
  delete_batch id c = (None, c1) ->
  getQueryData_in
    (delete_rollback
       {| useDeleteMaterialRequest.previousRequests := getQueryData_in c ns |}
       c1) ns
  = getQueryData_in c ns.
Proof.
  intros Hwf Hb. unfold delete_rollback. simpl.
  destruct (getQueryData_in c ns) as [d|] eqn:E.
  - apply lookup_set_data_same.
  - destruct (@set_all_lookup _ _ c c1 (findAll_keys_NoDup ns Hwf) Hb ns)
      as [Hin Hout].
    destruct (in_dec QueryKey_eq_dec ns (map q_key (findAll ns c))) as [Hk|Hk].
    + rewrite (Hin Hk), E. reflexivity.
    + rewrite (Hout Hk). exact E.
Qed.

(** A cached value that is not an array stops the batch of a deletion. *)
Lemma delete_batch_stops id ks : forall c k d,
  NoDup ks -> In k ks ->
  getQueryData_in c k = Some d -> isArray (Some d) = false ->
  exists t c1, set_all (useDeleteMaterialRequest.updater id) ks c = (Some t, c1).
Proof.
  induction ks as [|k1 ks IH]; intros c k d Hnd Hin Hk Harr; [destruct Hin|].
  inversion Hnd as [|? ? Hnotin Hnd']; subst. simpl.
  destruct (QueryKey_eq_dec k k1) as [->|Hne].
  - rewrite Hk. destruct d; simpl in *; try discriminate; eauto.
  - destruct Hin as [->|Hin]; [congruence|].
    destruct (useDeleteMaterialRequest.updater id (getQueryData_in c k1))
      as [t|[d'|]]; [eauto| |].
    + apply (IH _ k d); auto. now rewrite lookup_set_data_other.
    + apply (IH _ k d); auto.
Qed.

(** The whole run of a deletion whose optimistic step throws. *)
Lemma delete_mutate_thrown o id w t c1 :
  delete_batch id (cache w) = (Some t, c1) ->
  useDeleteMaterialRequest.mutate o id w =
  (inl t,
   {| onLine := onLine w; now := now w; remote := remote w;
      cache := invalidate ns c1;
      trace := trace w ++
               map (stamp c1)
                   (surface_events o (toAppError t DB_DELETE_FAILED)
                                   op_deleting "material request") |}).
Proof.
  intros Hb.
  unfold useDeleteMaterialRequest.mutate, execute. simpl.
  rewrite delete_onMutate_run, Hb.
  unfold useDeleteMaterialRequest.onError.
  unfold bind at 2. unfold ret at 1. unfold bind at 1.
  rewrite surface_run. reflexivity.
Qed.

(** *** The rollback claim *)

(** C1. When the remote call of a status, update or delete mutation
    fails, the hook first writes its snapshot back and only then logs,
    toasts and calls back with the classified error: at every snapshotted
    key (all keys of the namespace for a status change; the base key and
    the detail key for an update, whose detail entry is a single row; the
    base key for a delete) the cache reads exactly as before the mutation,
    both when the error is surfaced and once the mutation has settled. In
    particular every cached list reads as before a failed status change. *)
Theorem failed_mutation_rolls_back (w : World) (o : HookOptions)
    (e : PostgrestError) :
  wf_cache (cache w) ->
  onLine w = true ->
  (forall v,
      r_error (status_answer v w) = Some e ->
      exists w',
        useUpdateStatus.mutate o v w
        = (inl (ThrownApp (parsePostgrestError e op_update)), w') /\
        rolled_back (fun _ => True) w w'
          (surface_events o (parsePostgrestError e op_update)
                          op_updating "status")) /\
  (forall v,
      isArray (getQueryData_in (cache w) (detail (p_id v))) = false ->
      r_error (update_answer v w) = Some e ->
      exists w',
        useUpdateMaterialRequest.mutate o v w
        = (inl (ThrownApp (parsePostgrestError e op_update)), w') /\
        rolled_back (fun k => k = ns \/ k = detail (p_id v)) w w'
          (surface_events o (parsePostgrestError e op_update)
                          op_updating "material request")) /\
  (forall id ctx w1,
      useDeleteMaterialRequest.onMutate id w = (inr ctx, w1) ->
      r_error (delete_answer id w) = Some e ->
      exists w',
        useDeleteMaterialRequest.mutate o id w
        = (inl (ThrownApp (parsePostgrestError e op_delete)), w') /\
        rolled_back (fun k => k = ns) w w'
          (surface_events o (parsePostgrestError e op_delete)
                          op_deleting "material request")).
Proof.
  intros Hwf Hon. split; [|split].
  - intros v He. eexists. split; [apply status_mutate_failure; assumption|].
    unfold rolled_back, new_events. simpl. rewrite new_events_app.
    eexists _, _, _. split; [reflexivity|]. split.
    + intros k _. now apply status_rollback_lookup.
    + intros k _. rewrite lookup_invalidate. now apply status_rollback_lookup.
  - intros v Harr He.
    destruct (update_rollback_lookup v Hwf Harr) as [Hns Hdet].
    eexists. split; [apply update_mutate_failure; assumption|].
    unfold rolled_back, new_events. simpl. rewrite new_events_app.
    eexists _, _, _. split; [reflexivity|]. split.
    + intros k [->| ->]; assumption.
    + intros k Hk. rewrite !lookup_invalidate.
      destruct Hk as [->| ->]; assumption.
  - intros id ctx w1 Hm He.
    rewrite delete_onMutate_run in Hm.
    destruct (delete_batch id (cache w)) as [[t|] c1] eqn:Hb; [discriminate|].
    pose proof (delete_rollback_lookup id Hwf Hb) as Hns.
    eexists. split; [eapply delete_mutate_failure; eassumption|].
    unfold rolled_back, new_events. simpl. rewrite new_events_app.
    eexists _, _, _. split; [reflexivity|]. split.
    + intros k ->. assumption.
    + intros k ->. rewrite lookup_invalidate. assumption.
Qed.

End RollbackFacts.


Module RollbackWitness.
Import Notions Errors Domain Store StoreFacts Mutations RollbackFacts Scenario.

Lemma wf_read_cache : wf_cache read_cache.
Proof.
  unfold wf_cache, read_cache. simpl.
  repeat constructor; simpl; intuition discriminate.
Qed.

(** Approving X against a refusing store: the first page reads as before. *)
Lemma failed_mutation_rolls_back_witness :
  wf_cache read_cache /\
  onLine (world true refusing read_cache) = true /\
  exists w',
    useUpdateStatus.mutate defaultHookOptions approve_X
                           (world true refusing read_cache)
    = (inl (ThrownApp (parsePostgrestError denied op_update)), w') /\
    getQueryData_in (cache w') first_page = Some (DPage (page_of [X])).
Proof.
  split; [exact wf_read_cache|]. split; [reflexivity|].
  destruct (@failed_mutation_rolls_back (world true refusing read_cache)
              defaultHookOptions denied wf_read_cache eq_refl)
    as [Hstatus _].
  destruct (Hstatus approve_X eq_refl) as (w' & Hrun & c1 & call & c2 & _ & _ & Hfinal).
  exists w'. split; [exact Hrun|].
  rewrite (Hfinal first_page I). reflexivity.
Defined.

End RollbackWitness.

(* ------------------------------------------------------------------ *)
(** ** What the optimistic step reaches *)

Module OptimisticFacts.
Import Notions Errors Domain Store StoreFacts BatchFacts Mutations LifecycleFacts
       RollbackFacts Scenario.

(** The whole run of a status mutation whose remote call succeeds. *)
Lemma status_mutate_success o v w :
  onLine w = true ->
  r_error (status_answer v w) = None ->
  let c1 := optimistic (useUpdateStatus.updater (s_id v) (s_status v)) (cache w) in
  useUpdateStatus.mutate o v w =
  (inr (r_data (status_answer v w)),
   {| onLine := onLine w; now := now w; remote := remote w;
      cache := invalidate ns c1;
      trace := trace w ++
               stamp c1 (EvRemote (status_call v w)) ::
               (if with_onSuccess o then [stamp c1 EvOnSuccess] else []) |}).
Proof.
  intros Hon He c1.
  unfold useUpdateStatus.mutate, execute. simpl.
  rewrite status_onMutate_run. fold c1.
  unfold bind. rewrite updateStatus_run.
  change (onLine (with_cache w c1)) with (onLine w). rewrite Hon. simpl.
  change (status_answer v (with_cache w c1)) with (status_answer v w).
  change (status_call v (with_cache w c1)) with (status_call v w).
  rewrite He. unfold options_onSuccess, emit, ret.
  destruct (with_onSuccess o); simpl;
    unfold with_event, with_cache, stamp; simpl;
    rewrite ?Hon, <- ?app_assoc; reflexivity.
Qed.

(** The status updater leaves a paginated response as it is. *)
Lemma status_settle_page id st page :
  settle (useUpdateStatus.updater id st) (Some (DPage page))
  = Some (DPage page).
Proof. reflexivity. Qed.

(** C2, as the code has it. The optimistic step of a status change
    leaves every cached paginated list untouched, so the remote call is
    issued while the lists still show the old row; and the optimistic step
    of a delete throws on the first cached value under the base key that is
    not an array, so that the remote delete is never issued. On the cache
    the readers fill (first page holding X pending, detail of X): approving
    X changes nothing in the cache, renaming X patches only the detail
    entry, and deleting X fails with a TypeError before any remote call,
    even against a store that would accept it. *)
Theorem optimistic_step_misses_paginated_lists :
  (forall o v w k page,
      wf_cache (cache w) -> onLine w = true ->
      getQueryData_in (cache w) k = Some (DPage page) ->
      exists c1 rest,
        new_events w (snd (useUpdateStatus.mutate o v w))
        = stamp c1 (EvRemote (status_call v w)) :: rest /\
        getQueryData_in c1 k = Some (DPage page)) /\
  (forall o id w k d,
      wf_cache (cache w) ->
      In k (map q_key (cache w)) -> partialMatchKey k ns = true ->
      getQueryData_in (cache w) k = Some d -> isArray (Some d) = false ->
      exists t,
        fst (useDeleteMaterialRequest.mutate o id w) = inl t /\
        filter is_remote
               (new_events w (snd (useDeleteMaterialRequest.mutate o id w)))
        = []) /\
  cache (snd (useUpdateStatus.onMutate approve_X
                (world true (accepting X) read_cache))) = read_cache /\
  (let w1 := snd (useUpdateMaterialRequest.onMutate rename_X
                    (world true (accepting X) read_cache)) in
   getQueryData_in (cache w1) first_page = Some (DPage (page_of [X])) /\
   getQueryData_in (cache w1) (QUERY_KEYS.materialRequest "x")
   = Some (DEntity (spread X (p_data rename_X)))) /\
  (let w := world true (accepting X) read_cache in
   fst (useDeleteMaterialRequest.onMutate "x" w)
   = inl (ThrownOther "TypeError" "old?.filter is not a function") /\
   fst (useDeleteMaterialRequest.mutate defaultHookOptions "x" w)
   = inl (ThrownOther "TypeError" "old?.filter is not a function") /\
   remote_calls (snd (useDeleteMaterialRequest.mutate defaultHookOptions "x" w))
   = [] /\
   getQueryData_in
     (cache (snd (useDeleteMaterialRequest.mutate defaultHookOptions "x" w)))
     first_page = Some (DPage (page_of [X]))).
Proof.
  split; [|split; [|split; [|split]]].
  - intros o v w k page Hwf Hon Hk.
    assert (Hc1 : getQueryData_in
                    (optimistic (useUpdateStatus.updater (s_id v) (s_status v))
                                (cache w)) k = Some (DPage page)).
    { rewrite optimistic_lookup;
        [|assumption|apply status_updater_total|reflexivity].
      rewrite Hk. now destruct (partialMatchKey k ns). }
    destruct (r_error (status_answer v w)) as [e|] eqn:He.
    + rewrite (status_mutate_failure o v w Hon He). unfold new_events. simpl.
      rewrite new_events_app. eauto.
    + rewrite (status_mutate_success o v w Hon He). unfold new_events. simpl.
      rewrite new_events_app. eauto.
  - intros o id w k d Hwf Hin Hm Hk Harr.
    destruct (@delete_batch_stops id (map q_key (findAll ns (cache w)))
                (cache w) k d) as (t & c1 & Hb); auto.
    { now apply findAll_keys_NoDup. }
    { apply In_findAll_keys. auto. }
    exists t. rewrite (@delete_mutate_thrown o id w t c1 Hb).
    split; [reflexivity|]. unfold new_events. simpl.
    rewrite new_events_app. unfold surface_events.
    destruct (showErrorToast o), (with_onError o); reflexivity.
  - vm_compute. reflexivity.
  - vm_compute. split; reflexivity.
  - vm_compute. repeat split; reflexivity.
Qed.

End OptimisticFacts.

(* ------------------------------------------------------------------ *)
(** ** The transition gate *)

Module GateFacts.
Import Notions Errors Domain Store StoreFacts Workflow Mutations Dropdown
       WorkflowFacts RollbackFacts OptimisticFacts.

Lemma request_transition_refused o requestId a b w :
  ~ In b (STATUS_TRANSITIONS a) ->
  request_transition o requestId a b w = w.
Proof.
  intros H. unfold request_transition. rewrite pick_and_confirm_spec.
  destruct (existsb (status_eqb b) (STATUS_TRANSITIONS a)) eqn:E; [|reflexivity].
  apply existsb_status_In in E. contradiction.
Qed.

Lemma request_transition_allowed o requestId a b w :
  In b (STATUS_TRANSITIONS a) ->
  request_transition o requestId a b w
  = snd (useUpdateStatus.mutate o {| s_id := requestId; s_status := b |} w).
Proof.
  intros H. unfold request_transition. rewrite pick_and_confirm_spec.
  apply existsb_status_In in H. rewrite H. reflexivity.
Qed.

(** C3. The transition table is exactly pending -> approved, rejected;
    approved -> fulfilled, rejected; rejected -> pending; fulfilled ->
    nothing. Picking a target in the dropdown and confirming issues the
    status mutation exactly when the target is in the table for the current
    status; no sequence of gestures issues a mutation to any other status;
    a refused request leaves the world untouched (no remote call), and an
    allowed one, when online, reaches the remote store. In particular
    fulfilled -> pending is refused without a remote call and rejected ->
    pending goes through. *)
Theorem transition_allowed_iff_in_table :
  (forall b, In b (STATUS_TRANSITIONS pending) <-> b = approved \/ b = rejected) /\
  (forall b, In b (STATUS_TRANSITIONS approved) <-> b = fulfilled \/ b = rejected) /\
  (forall b, In b (STATUS_TRANSITIONS rejected) <-> b = pending) /\
  (forall b, ~ In b (STATUS_TRANSITIONS fulfilled)) /\
  (forall requestId a b,
      In b (STATUS_TRANSITIONS a) <->
      exists st, pick_and_confirm requestId a b
                 = Some (st, [{| s_id := requestId; s_status := b |}])) /\
  (forall requestId a b,
      ~ In b (STATUS_TRANSITIONS a) ->
      pick_and_confirm requestId a b = None /\
      forall o w, request_transition o requestId a b w = w) /\
  (forall requestId a gs st calls,
      gestures requestId a initialDialog gs = Some (st, calls) ->
      forall c, In c calls ->
                s_id c = requestId /\ In (s_status c) (STATUS_TRANSITIONS a)) /\
  (forall o requestId a b w,
      In b (STATUS_TRANSITIONS a) -> onLine w = true ->
      exists c1 rest,
        new_events w (request_transition o requestId a b w)
        = stamp c1 (EvRemote
                      (UpdateRow requestId (status_update b (now w)))) :: rest) /\
  (forall o requestId w,
      pick_and_confirm requestId fulfilled pending = None /\
      request_transition o requestId fulfilled pending w = w) /\
  (forall requestId,
      pick_and_confirm requestId rejected pending
      = Some (handleStatusClick pending,
              [{| s_id := requestId; s_status := pending |}])).
Proof.
  repeat match goal with |- _ /\ _ => split end.
  - intros b. simpl. destruct b; intuition discriminate.
  - intros b. simpl. destruct b; intuition discriminate.
  - intros b. simpl. destruct b; intuition discriminate.
  - intros b H. destruct H.
  - intros requestId a b. rewrite pick_and_confirm_spec.
    rewrite <- existsb_status_In.
    destruct (existsb (status_eqb b) (STATUS_TRANSITIONS a)); split.
    + intros _. eexists. reflexivity.
    + reflexivity.
    + discriminate.
    + intros [st H]. discriminate.
  - intros requestId a b H. split.
    + rewrite pick_and_confirm_spec.
      destruct (existsb (status_eqb b) (STATUS_TRANSITIONS a)) eqn:E;
        [|reflexivity].
      apply existsb_status_In in E. contradiction.
    + intros o w. now apply request_transition_refused.
  - intros requestId a gs st calls H.
    eapply gestures_sound; [|exact H]. exact I.
  - intros o requestId a b w Hin Hon.
    rewrite (@request_transition_allowed o requestId a b w Hin).
    set (v := {| s_id := requestId; s_status := b |}).
    change (UpdateRow requestId (status_update b (now w)))
      with (status_call v w).
    destruct (r_error (status_answer v w)) as [e|] eqn:He.
    + rewrite (status_mutate_failure o v w Hon He). unfold new_events. simpl.
      rewrite new_events_app. eauto.
    + rewrite (status_mutate_success o v w Hon He). unfold new_events. simpl.
      rewrite new_events_app. eauto.
  - intros o requestId w. split; [reflexivity|].
    apply request_transition_refused. intros H. destruct H.
  - reflexivity.
Qed.

End GateFacts.

(* ------------------------------------------------------------------ *)
(** ** The list query and its pagination metadata *)

Module FetchFacts.
Import Notions Errors Domain Store StoreFacts Fetch Scenario.

Lemma ceil_div_spec a b :
  0 < b -> (ceil_div a b - 1) * b < a <= ceil_div a b * b.
Proof.
  intros Hb. unfold ceil_div.
  pose proof (Z.div_mod (- a) b ltac:(lia)) as Hdm.
  pose proof (Z.mod_pos_bound (- a) b Hb) as Hm.
  nia.
Qed.

Lemma ceil_div_unique a b n :
  0 < b -> (n - 1) * b < a <= n * b -> ceil_div a b = n.
Proof.
  intros Hb Hn. pose proof (ceil_div_spec a Hb) as Hc. nia.
Qed.

(** The fetch on an empty page: the early return. *)
Lemma fetch_empty_page filters pagination sorting w :
  onLine w = true ->
  r_error (list_answer filters pagination sorting w) = None ->
  (r_data (list_answer filters pagination sorting w) = None \/
   r_data (list_answer filters pagination sorting w) = Some []) ->
  fetchMaterialRequests filters pagination sorting w =
  (inr {| data := [];
          pagination :=
            {| totalCount :=
                 or_else (r_count (list_answer filters pagination sorting w)) 0;
               totalPages :=
                 ceil_div
                   (or_else (r_count (list_answer filters pagination sorting w)) 0)
                   (pageSize_of pagination);
               currentPage := pageIndex_of pagination;
               meta_pageSize := pageSize_of pagination;
               hasNextPage := false;
               hasPreviousPage := 0 <? pageIndex_of pagination |} |},
   with_event w (EvRemote (SelectList (buildQuery filters pagination sorting)))).
Proof.
  intros Hon Herr Hdata.
  unfold fetchMaterialRequests, bind, navigator_onLine, call, ret.
  rewrite Hon. simpl. fold (list_answer filters pagination sorting w).
  rewrite Herr. destruct Hdata as [-> | ->]; reflexivity.
Qed.

(** The fetch on a page with rows: the metadata of its result. *)
Lemma fetch_rows_meta filters pagination sorting w r rows :
  onLine w = true ->
  r_error (list_answer filters pagination sorting w) = None ->
  r_data (list_answer filters pagination sorting w) = Some (r :: rows) ->
  exists page w',
    fetchMaterialRequests filters pagination sorting w = (inr page, w') /\
    length (data page) = S (length rows) /\
    Domain.pagination page =
    {| totalCount :=
         or_else (r_count (list_answer filters pagination sorting w)) 0;
       totalPages :=
         ceil_div
           (or_else (r_count (list_answer filters pagination sorting w)) 0)
           (pageSize_of pagination);
       currentPage := pageIndex_of pagination;
       meta_pageSize := pageSize_of pagination;
       hasNextPage :=
         pageIndex_of pagination <?
         ceil_div
           (or_else (r_count (list_answer filters pagination sorting w)) 0)
           (pageSize_of pagination) - 1;
       hasPreviousPage := 0 <? pageIndex_of pagination |}.
Proof.
  intros Hon Herr Hdata.
  unfold fetchMaterialRequests, bind, navigator_onLine, call, ret.
  rewrite Hon. simpl. fold (list_answer filters pagination sorting w).
  rewrite Herr, Hdata.
  destruct (r_error (select_profiles_in _ _ _)); simpl;
    eexists _, _; (split; [reflexivity|]); simpl;
    rewrite length_map; split; reflexivity.
Qed.

(** A successful fetch went through one of the two branches. *)
Lemma fetch_success_cases filters pagination sorting w page w' :
  fetchMaterialRequests filters pagination sorting w = (inr page, w') ->
  onLine w = true /\
  r_error (list_answer filters pagination sorting w) = None /\
  (r_data (list_answer filters pagination sorting w) = None \/
   r_data (list_answer filters pagination sorting w) = Some [] \/
   exists r rows,
     r_data (list_answer filters pagination sorting w) = Some (r :: rows)).
Proof.
  unfold fetchMaterialRequests, bind, navigator_onLine, call, throw.
  destruct (onLine w); simpl; [|discriminate].
  fold (list_answer filters pagination sorting w).
  destruct (r_error (list_answer filters pagination sorting w));
    [discriminate|].
  intros _. split; [reflexivity|]. split; [reflexivity|].
  destruct (r_data (list_answer filters pagination sorting w)) as [[|r rows]|];
    eauto.
Qed.

(** C6. When the store answers a list query for a page of non-negative
    index and positive size without error, counting [total] matching rows
    and returning those of them that fall in the window of the page, the
    fetch succeeds with [totalCount = total],
    [totalPages = ceil(totalCount / pageSize)] (the least number of pages
    that hold the rows), [hasNextPage = (pageIndex < totalPages - 1)] and
    [hasPreviousPage = (pageIndex > 0)], whether the page holds rows or
    not; with a count of 95 at page 9 of size 10 this is 10 pages, no next
    page, a previous page. *)
Theorem pagination_metadata filters pagination sorting w total :
  0 <= pageIndex_of pagination ->
  0 < pageSize_of pagination ->
  onLine w = true ->
  r_error (list_answer filters pagination sorting w) = None ->
  consistent pagination (list_answer filters pagination sorting w) total ->
  exists page w',
    fetchMaterialRequests filters pagination sorting w = (inr page, w') /\
    Z.of_nat (length (data page)) = window_rows pagination total /\
    totalCount (Domain.pagination page) = total /\
    totalPages (Domain.pagination page)
    = ceil_div total (pageSize_of pagination) /\
    (totalPages (Domain.pagination page) - 1) * pageSize_of pagination
    < total <= totalPages (Domain.pagination page) * pageSize_of pagination /\
    hasNextPage (Domain.pagination page)
    = (pageIndex_of pagination <? totalPages (Domain.pagination page) - 1) /\
    hasPreviousPage (Domain.pagination page) = (0 <? pageIndex_of pagination) /\
    (total = 95 -> pageSize_of pagination = 10 -> pageIndex_of pagination = 9 ->
     totalPages (Domain.pagination page) = 10 /\
     hasNextPage (Domain.pagination page) = false /\
     hasPreviousPage (Domain.pagination page) = true).
Proof.
  intros Hi Hs Hon Herr (Htot & Hcount & Hlen).
  pose proof (ceil_div_spec total Hs) as Hceil.
  assert (Hex : total = 95 -> pageSize_of pagination = 10 ->
                ceil_div total (pageSize_of pagination) = 10)
    by (intros -> ->; reflexivity).
  unfold window_rows in *.
  destruct (r_data (list_answer filters pagination sorting w))
    as [[|r rows]|] eqn:Hd.
  - eexists _, _.
    split; [apply fetch_empty_page; [assumption|assumption|now right]|].
    rewrite Hcount. cbn [or_else data Domain.pagination totalCount totalPages
                         hasNextPage hasPreviousPage length] in *.
    split; [exact Hlen|]. split; [reflexivity|]. split; [reflexivity|].
    split; [exact Hceil|].
    assert (Hno : (pageIndex_of pagination
                   <? ceil_div total (pageSize_of pagination) - 1) = false)
      by (apply Z.ltb_ge; nia).
    split; [now rewrite Hno|]. split; [reflexivity|].
    intros H95 H10 H9. rewrite (Hex H95 H10), H9. repeat split.
  - destruct (fetch_rows_meta _ _ _ _ Hon Herr Hd)
      as (page & w' & Hf & Hl & Hm).
    exists page, w'. split; [exact Hf|]. rewrite Hm, Hcount.
    cbn [or_else totalCount totalPages hasNextPage hasPreviousPage].
    split; [rewrite Hl; exact Hlen|].
    split; [reflexivity|]. split; [reflexivity|]. split; [exact Hceil|].
    split; [reflexivity|]. split; [reflexivity|].
    intros H95 H10 H9. rewrite (Hex H95 H10), H9. repeat split.
  - eexists _, _.
    split; [apply fetch_empty_page; [assumption|assumption|now left]|].
    rewrite Hcount. cbn [or_else data Domain.pagination totalCount totalPages
                         hasNextPage hasPreviousPage length] in *.
    split; [exact Hlen|]. split; [reflexivity|]. split; [reflexivity|].
    split; [exact Hceil|].
    assert (Hno : (pageIndex_of pagination
                   <? ceil_div total (pageSize_of pagination) - 1) = false)
      by (apply Z.ltb_ge; nia).
    split; [now rewrite Hno|]. split; [reflexivity|].
    intros H95 H10 H9. rewrite (Hex H95 H10), H9. repeat split.
Qed.

(** The last page of 95 requests: five rows at page 9 of size 10. *)
Lemma pagination_metadata_witness :
  let w := world true ninety_five [] in
  0 <= pageIndex_of page9 /\ 0 < pageSize_of page9 /\ onLine w = true /\
  r_error (list_answer None page9 None w) = None /\
  consistent page9 (list_answer None page9 None w) 95 /\
  exists page w',
    fetchMaterialRequests None page9 None w = (inr page, w') /\
    length (data page) = 5%nat /\
    totalPages (Domain.pagination page) = 10 /\
    hasNextPage (Domain.pagination page) = false /\
    hasPreviousPage (Domain.pagination page) = true.
Proof.
  intros w.
  assert (H1 : 0 <= pageIndex_of page9) by (vm_compute; discriminate).
  assert (H2 : 0 < pageSize_of page9) by reflexivity.
  assert (H3 : consistent page9 (list_answer None page9 None w) 95).
  { split; [vm_compute; discriminate|]. split; reflexivity. }
  split; [exact H1|]. split; [exact H2|]. split; [reflexivity|].
  split; [reflexivity|]. split; [exact H3|].
  destruct (@pagination_metadata None page9 None w 95 H1 H2 eq_refl eq_refl H3)
    as (page & w' & Hrun & Hlen & _ & _ & _ & _ & _ & Hex).
  exists page, w'. split; [exact Hrun|].
  split; [apply Nat2Z.inj; rewrite Hlen; reflexivity|].
  apply Hex; reflexivity.
Defined.

(** C10. When the store answers the list query of a page of positive size
    without error and without rows, the fetch returns no data and
    [hasNextPage = false] whatever the count and the page index are, with
    [totalCount] the count of the store (0 when it gives none),
    [totalPages = ceil(totalCount / pageSize)], the least number of pages
    that hold that many rows, and [hasPreviousPage = (pageIndex > 0)]. *)
Theorem empty_page_has_no_next_page filters pagination sorting w :
  0 < pageSize_of pagination ->
  onLine w = true ->
  r_error (list_answer filters pagination sorting w) = None ->
  (r_data (list_answer filters pagination sorting w) = None \/
   r_data (list_answer filters pagination sorting w) = Some []) ->
  exists page w',
    fetchMaterialRequests filters pagination sorting w = (inr page, w') /\
    data page = [] /\
    hasNextPage (Domain.pagination page) = false /\
    totalCount (Domain.pagination page)
    = or_else (r_count (list_answer filters pagination sorting w)) 0 /\
    totalPages (Domain.pagination page)
    = ceil_div (totalCount (Domain.pagination page)) (pageSize_of pagination) /\
    (totalPages (Domain.pagination page) - 1) * pageSize_of pagination
    < totalCount (Domain.pagination page)
    <= totalPages (Domain.pagination page) * pageSize_of pagination /\
    hasPreviousPage (Domain.pagination page) = (0 <? pageIndex_of pagination).
Proof.
  intros Hs Hon Herr Hdata. eexists _, _.
  split; [apply fetch_empty_page; assumption|].
  cbn [data Domain.pagination hasNextPage totalCount totalPages
       hasPreviousPage].
  split; [reflexivity|]. split; [reflexivity|]. split; [reflexivity|].
  split; [reflexivity|]. split; [|reflexivity].
  now apply ceil_div_spec.
Qed.

(** Past the last page of 95 requests: no rows at page 10 of size 10. *)
Lemma empty_page_has_no_next_page_witness :
  let w := world true ninety_five [] in
  0 < pageSize_of page10 /\ onLine w = true /\
  r_error (list_answer None page10 None w) = None /\
  r_data (list_answer None page10 None w) = Some [] /\
  exists page w',
    fetchMaterialRequests None page10 None w = (inr page, w') /\
    data page = [] /\
    hasNextPage (Domain.pagination page) = false /\
    totalCount (Domain.pagination page) = 95 /\
    totalPages (Domain.pagination page) = 10 /\
    hasPreviousPage (Domain.pagination page) = true.
Proof.
  intros w.
  assert (H1 : 0 < pageSize_of page10) by reflexivity.
  split; [exact H1|]. split; [reflexivity|]. split; [reflexivity|].
  split; [reflexivity|].
  destruct (@empty_page_has_no_next_page None page10 None w H1 eq_refl eq_refl
              (or_intror eq_refl))
    as (page & w' & Hrun & Hd & Hn & Hc & Hp & _ & Hprev).
  exists page, w'. split; [exact Hrun|]. split; [exact Hd|].
  split; [exact Hn|]. split; [rewrite Hc; reflexivity|].
  split; [rewrite Hp, Hc; reflexivity | rewrite Hprev; reflexivity].
Defined.

End FetchFacts.

(* ------------------------------------------------------------------ *)
(** ** Filters of the list query *)

Module FilterFacts.
Import Notions Errors Domain Store Fetch Scenario.

Lemma trimStart_all_ws s :
  forallb JsString.isWhiteSpace s = true -> JsString.trimStart s = [].
Proof.
  induction s as [|c s IH]; simpl; [reflexivity|].
  intros H. apply andb_prop in H. destruct H as [Hc Hs].
  rewrite Hc. auto.
Qed.

Lemma trim_all_ws s :
  forallb JsString.isWhiteSpace s = true -> JsString.trim s = [].
Proof.
  intros H. unfold JsString.trim. now rewrite (trimStart_all_ws _ H).
Qed.

Lemma searchConstraint_blank st pr s :
  forallb JsString.isWhiteSpace s = true ->
  searchConstraint (filters_of st pr (Some s)) = [].
Proof.
  intros H. unfold searchConstraint, filters_of. simpl.
  rewrite (trim_all_ws _ H). simpl. now rewrite andb_false_r.
Qed.

Lemma constraints_cases f p s c :
  In c (q_constraints (buildQuery f p s)) ->
  In c (statusConstraint f) \/ In c (priorityConstraint f)
  \/ In c (searchConstraint f).
Proof.
  unfold buildQuery. simpl. intros H.
  apply in_app_or in H. destruct H as [H|H]; [auto|].
  apply in_app_or in H. tauto.
Qed.

Lemma statusConstraint_shape f c :
  In c (statusConstraint f) ->
  exists st, status_of f = Some (only st) /\ c = eq_ "status" (status_string st).
Proof.
  unfold statusConstraint, status_of.
  destruct f as [f|]; [|intros []].
  destruct (f_status f) as [[|st]|]; simpl;
    try (intros H; exact (False_ind _ H)).
  intros [<-|[]]. eauto.
Qed.

Lemma priorityConstraint_shape f c :
  In c (priorityConstraint f) ->
  exists pr, priority_of f = Some (only pr)
             /\ c = eq_ "priority" (priority_string pr).
Proof.
  unfold priorityConstraint, priority_of.
  destruct f as [f|]; [|intros []].
  destruct (f_priority f) as [[|pr]|]; simpl;
    try (intros H; exact (False_ind _ H)).
  intros [<-|[]]. eauto.
Qed.

Lemma searchConstraint_shape f c :
  In c (searchConstraint f) ->
  exists search,
    search_of f = Some search /\ JsString.trim search <> [] /\
    c = ilike "material_name" (percent :: JsString.trim search ++ [percent]).
Proof.
  unfold searchConstraint, search_of.
  destruct f as [f|]; [|intros []].
  destruct (f_search f) as [search|]; [|intros []].
  destruct (JsString.truthy search); simpl; [|intros []].
  destruct (JsString.trim search) eqn:E; simpl; [intros []|].
  intros [<-|[]]. exists search. split; [reflexivity|].
  split; [congruence | now rewrite E].
Qed.

(** *** Trimming *)

Lemma trimStart_spec s :
  exists l,
    s = l ++ JsString.trimStart s /\
    forallb JsString.isWhiteSpace l = true /\
    (forall c rest, JsString.trimStart s = c :: rest ->
                    JsString.isWhiteSpace c = false).
Proof.
  induction s as [|x s (l & Hs & Hl & Hfirst)]; cbn [JsString.trimStart].
  - exists []. repeat split. intros; discriminate.
  - destruct (JsString.isWhiteSpace x) eqn:E.
    + exists (x :: l). cbn [app forallb]. rewrite E, Hl.
      split; [now rewrite <- Hs|]. split; [reflexivity | exact Hfirst].
    + exists []. repeat split. intros c rest H. injection H as <- _. exact E.
Qed.

Lemma trimStart_keeps_end s init c :
  JsString.trimStart s = init ++ [c] -> exists l, s = l ++ init ++ [c].
Proof.
  intros H. destruct (trimStart_spec s) as (l & Hs & _).
  exists l. now rewrite <- H.
Qed.

Lemma trimStart_last s init c :
  JsString.isWhiteSpace c = false ->
  JsString.trimStart (init ++ [c]) = s ->
  exists init', s = init' ++ [c].
Proof.
  intros Hc <-. induction init as [|x init IH]; cbn [app JsString.trimStart].
  - rewrite Hc. now exists [].
  - destruct (JsString.isWhiteSpace x); [exact IH|].
    now exists (x :: init).
Qed.

Lemma trimEnd_spec s :
  exists r,
    s = JsString.trimEnd s ++ r /\
    forallb JsString.isWhiteSpace r = true /\
    (forall init c, JsString.trimEnd s = init ++ [c] ->
                    JsString.isWhiteSpace c = false).
Proof.
  unfold JsString.trimEnd.
  destruct (trimStart_spec (rev s)) as (l & Hs & Hl & Hfirst).
  exists (rev l). split; [|split].
  - rewrite <- rev_app_distr, <- Hs. now rewrite rev_involutive.
  - rewrite forallb_forall in *. intros x Hx. apply Hl. now apply in_rev.
  - intros init c H. apply (Hfirst c (rev init)).
    rewrite <- (rev_involutive (JsString.trimStart (rev s))), H.
    rewrite rev_app_distr. reflexivity.
Qed.

Lemma trimEnd_first s c rest :
  JsString.trimEnd s = c :: rest -> exists rest', s = c :: rest'.
Proof.
  intros H. destruct (trimEnd_spec s) as (r & Hs & _).
  rewrite H in Hs. now exists (rest ++ r).
Qed.

(** [trim] removes the white space at both ends and nothing else. *)
Lemma trim_spec search :
  exists l r,
    search = l ++ JsString.trim search ++ r /\
    forallb JsString.isWhiteSpace l = true /\
    forallb JsString.isWhiteSpace r = true /\
    (forall c rest, JsString.trim search = c :: rest ->
                    JsString.isWhiteSpace c = false) /\
    (forall init c, JsString.trim search = init ++ [c] ->
                    JsString.isWhiteSpace c = false).
Proof.
  unfold JsString.trim.
  destruct (trimStart_spec search) as (l & Hs & Hl & Hfirst).
  destruct (trimEnd_spec (JsString.trimStart search)) as (r & Hm & Hr & Hlast).
  exists l, r. split; [now rewrite <- Hm|]. split; [exact Hl|].
  split; [exact Hr|]. split; [|exact Hlast].
  intros c rest H. apply trimEnd_first in H. destruct H as [rest' H].
  exact (Hfirst c rest' H).
Qed.

(** *** ILIKE on a plain text *)

Lemma like_percent lower pattern text :
  like lower (percent :: pattern) text
  = like lower pattern text
    || match text with
       | [] => false
       | _ :: text' => like lower (percent :: pattern) text'
       end.
Proof. destruct text; reflexivity. Qed.

Lemma like_percent_any lower text : like lower [percent] text = true.
Proof.
  induction text as [|x text IH]; [reflexivity|].
  rewrite like_percent. rewrite IH. apply orb_true_r.
Qed.

Lemma like_literal lower c pattern text :
  is_special c = false ->
  like lower (c :: pattern) text
  = match text with
    | [] => false
    | x :: text' => N.eqb (lower x) (lower c) && like lower pattern text'
    end.
Proof.
  unfold is_special. intros H.
  apply orb_false_elim in H. destruct H as [H Hstar].
  apply orb_false_elim in H. destruct H as [H Hback].
  apply orb_false_elim in H. destruct H as [Hpercent Hunder].
  cbn [like]. rewrite Hpercent, Hunder, Hback. reflexivity.
Qed.

Lemma like_plain_prefix lower t text :
  plain t = true ->
  like lower (t ++ [percent]) text = spec_prefix lower t text.
Proof.
  revert text. induction t as [|c t IH]; intros text Hp.
  - cbn [app spec_prefix]. apply like_percent_any.
  - cbn [plain forallb] in Hp. apply andb_prop in Hp. destruct Hp as [Hc Hp].
    apply negb_true_iff in Hc. cbn [app]. rewrite (@like_literal lower c _ _ Hc).
    destruct text as [|x text]; [reflexivity|].
    cbn [spec_prefix]. now rewrite IH.
Qed.

Lemma like_plain_substring lower t text :
  plain t = true ->
  like lower (percent :: t ++ [percent]) text = spec_substring lower t text.
Proof.
  intros Hp. induction text as [|x text IH];
    rewrite like_percent, (@like_plain_prefix lower t _ Hp);
    cbn [spec_substring];
    [reflexivity | now rewrite IH].
Qed.

Lemma star_plain t : plain t = true -> map star t = t.
Proof.
  induction t as [|c t IH]; [reflexivity|].
  cbn [plain forallb map]. intros H. apply andb_prop in H.
  destruct H as [Hc Ht]. fold (plain t) in Ht. rewrite (IH Ht).
  apply negb_true_iff in Hc. unfold is_special in Hc.
  apply orb_false_elim in Hc. destruct Hc as [_ Hstar].
  unfold star. now rewrite Hstar.
Qed.

(** For a plain search the text constraint is the substring match. *)
Lemma search_selects_plain lower st pr search row :
  plain (JsString.trim search) = true ->
  search_selects lower (filters_of st pr (Some search)) row
  = spec_search_match lower search row.
Proof.
  intros Hp. unfold search_selects, spec_search_match, ilike_selects.
  cbn [searchConstraint filters_of f_search].
  destruct (JsString.trim search) as [|c t] eqn:E.
  - rewrite andb_false_r. destruct (JsString.of_ascii _); reflexivity.
  - assert (Hs : JsString.truthy search = true).
    { destruct search; [discriminate E | reflexivity]. }
    rewrite Hs. cbn [JsString.truthy andb forallb c_pattern ilike].
    rewrite andb_true_r. cbn [map].
    rewrite map_app, (@star_plain _ Hp). cbn [map].
    change (star percent) with percent.
    apply (@like_plain_substring lower (c :: t) _ Hp).
Qed.

(** C7. The list query carries no status constraint when the status
    filter is absent or all, no priority constraint when the priority
    filter is absent or all; its only text constraint is an ILIKE on
    material_name with the pattern %t% where t is the trimmed search, added
    exactly when t is not empty; t is the search without the white space
    at its two ends, and nothing else removed; when t holds no percent
    sign, underscore, backslash or asterisk, the rows the constraint lets
    through are those whose material name contains t, letter case aside;
    a blank search builds the same query as no search, so a search of two
    spaces and an empty search build (and fetch with) the same query. *)
Theorem filter_constraints :
  (forall f p s c,
      status_of f = None \/ status_of f = Some all ->
      In c (q_constraints (buildQuery f p s)) -> c_column c <> "status") /\
  (forall f p s c,
      priority_of f = None \/ priority_of f = Some all ->
      In c (q_constraints (buildQuery f p s)) -> c_column c <> "priority") /\
  (forall f p s c,
      In c (q_constraints (buildQuery f p s)) ->
      c_operator c = "ilike" ->
      exists search,
        search_of f = Some search /\
        c = ilike "material_name"
                  (percent :: JsString.trim search ++ [percent])) /\
  (forall st pr search p s,
      JsString.trim search <> [] ->
      In (ilike "material_name" (percent :: JsString.trim search ++ [percent]))
         (q_constraints (buildQuery (filters_of st pr (Some search)) p s))) /\
  (forall st pr search p s,
      forallb JsString.isWhiteSpace search = true ->
      buildQuery (filters_of st pr (Some search)) p s
      = buildQuery (filters_of st pr None) p s) /\
  (forall st pr p s,
      buildQuery (filters_of st pr (Some (JsString.of_ascii "  "))) p s
      = buildQuery (filters_of st pr (Some (JsString.of_ascii ""))) p s) /\
  (forall st pr p s w,
      fetchMaterialRequests (filters_of st pr (Some (JsString.of_ascii "  "))) p s w
      = fetchMaterialRequests (filters_of st pr (Some (JsString.of_ascii ""))) p s w) /\
  (forall search,
      exists l r,
        search = l ++ JsString.trim search ++ r /\
        forallb JsString.isWhiteSpace l = true /\
        forallb JsString.isWhiteSpace r = true /\
        (forall c rest, JsString.trim search = c :: rest ->
                        JsString.isWhiteSpace c = false) /\
        (forall init c, JsString.trim search = init ++ [c] ->
                        JsString.isWhiteSpace c = false)) /\
  (forall lower st pr search row,
      plain (JsString.trim search) = true ->
      search_selects lower (filters_of st pr (Some search)) row
      = spec_search_match lower search row).
Proof.
  assert (Hblank : forall st pr search p s,
             forallb JsString.isWhiteSpace search = true ->
             buildQuery (filters_of st pr (Some search)) p s
             = buildQuery (filters_of st pr None) p s).
  { intros st pr search p s H. unfold buildQuery.
    rewrite (searchConstraint_blank st pr _ H). reflexivity. }
  assert (Htwo : forall st pr p s,
             buildQuery (filters_of st pr (Some (JsString.of_ascii "  "))) p s
             = buildQuery (filters_of st pr (Some (JsString.of_ascii ""))) p s).
  { intros. rewrite !Hblank by reflexivity. reflexivity. }
  repeat match goal with |- _ /\ _ => split end.
  - intros f p s c Hst Hin.
    destruct (constraints_cases _ _ _ _ Hin) as [H|[H|H]].
    + apply statusConstraint_shape in H. destruct H as (st & E & _).
      destruct Hst; congruence.
    + apply priorityConstraint_shape in H. destruct H as (pr & _ & ->).
      discriminate.
    + apply searchConstraint_shape in H. destruct H as (x & _ & _ & ->).
      discriminate.
  - intros f p s c Hpr Hin.
    destruct (constraints_cases _ _ _ _ Hin) as [H|[H|H]].
    + apply statusConstraint_shape in H. destruct H as (st & _ & ->).
      discriminate.
    + apply priorityConstraint_shape in H. destruct H as (pr & E & _).
      destruct Hpr; congruence.
    + apply searchConstraint_shape in H. destruct H as (x & _ & _ & ->).
      discriminate.
  - intros f p s c Hin Hop.
    destruct (constraints_cases _ _ _ _ Hin) as [H|[H|H]].
    + apply statusConstraint_shape in H. destruct H as (st & _ & ->).
      discriminate.
    + apply priorityConstraint_shape in H. destruct H as (pr & _ & ->).
      discriminate.
    + apply searchConstraint_shape in H. destruct H as (x & E & _ & ->).
      eauto.
  - intros st pr search p s Hne. unfold buildQuery. simpl.
    apply in_or_app. right. apply in_or_app. right.
    assert (Hs : JsString.truthy search = true).
    { destruct search; [|reflexivity]. exfalso. apply Hne. reflexivity. }
    rewrite Hs. destruct (JsString.trim search); [congruence|].
    simpl. now left.
  - exact Hblank.
  - exact Htwo.
  - intros st pr p s w. unfold fetchMaterialRequests. now rewrite Htwo.
  - exact trim_spec.
  - exact search_selects_plain.
Qed.

(** The search steel_bars, whose underscore the store reads as any one
    unit, selects the request for Steel Bars, in whose name it does not
    occur; and a search of one percent sign selects every request. *)
Lemma search_wildcards_are_not_escaped :
  (search_selects ascii_lower
     (filters_of None None (Some (JsString.of_ascii "steel_bars"))) X = true /\
   spec_search_match ascii_lower (JsString.of_ascii "steel_bars") X = false) /\
  (forall lower row,
      search_selects lower
        (filters_of None None (Some (JsString.of_ascii "%"))) row = true) /\
  spec_search_match ascii_lower (JsString.of_ascii "%") X = false.
Proof.
  split; [split; reflexivity|]. split; [|reflexivity].
  intros lower row. unfold search_selects, ilike_selects.
  cbn [searchConstraint filters_of f_search forallb].
  change (JsString.truthy (JsString.of_ascii "%")
          && JsString.truthy (JsString.trim (JsString.of_ascii "%")))
    with true.
  cbn [forallb c_pattern ilike]. rewrite andb_true_r.
  change (map star (percent :: JsString.trim (JsString.of_ascii "%")
                    ++ [percent]))
    with [percent; percent; percent].
  rewrite (like_percent lower [percent; percent]).
  rewrite (like_percent lower [percent]).
  rewrite like_percent_any. reflexivity.
Qed.


End FilterFacts.

(* ------------------------------------------------------------------ *)
(** ** Connectivity check *)

Module OfflineFacts.
Import Notions Errors Domain Store Fetch Mutations Scenario.

(** C8. With [navigator.onLine] false, each of the six remote
    operations (list fetch, single fetch, insert, update, status update,
    delete) throws a NETWORK_OFFLINE error and leaves the world as it was:
    no remote call is logged. *)
Theorem offline_fails_fast (w : World) :
  onLine w = false ->
  (forall f p s, exists e,
      fetchMaterialRequests f p s w = (inl (ThrownApp e), w)
      /\ code e = NETWORK_OFFLINE) /\
  (forall id, exists e,
      fetchMaterialRequest id w = (inl (ThrownApp e), w)
      /\ code e = NETWORK_OFFLINE) /\
  (forall row, exists e,
      createMaterialRequest row w = (inl (ThrownApp e), w)
      /\ code e = NETWORK_OFFLINE) /\
  (forall v, exists e,
      updateMaterialRequest v w = (inl (ThrownApp e), w)
      /\ code e = NETWORK_OFFLINE) /\
  (forall v, exists e,
      updateStatus v w = (inl (ThrownApp e), w)
      /\ code e = NETWORK_OFFLINE) /\
  (forall id, exists e,
      deleteMaterialRequest id w = (inl (ThrownApp e), w)
      /\ code e = NETWORK_OFFLINE).
Proof.
  intros Hoff.
  repeat match goal with |- _ /\ _ => split end; intros;
    unfold fetchMaterialRequests, fetchMaterialRequest, createMaterialRequest,
      updateMaterialRequest, updateStatus, deleteMaterialRequest,
      bind, navigator_onLine, throw;
    rewrite Hoff; simpl; eexists; split; reflexivity.
Qed.

(** Approving X while offline. *)
Lemma offline_fails_fast_witness :
  let w := world false refusing read_cache in
  onLine w = false /\
  exists e,
    updateStatus approve_X w = (inl (ThrownApp e), w) /\
    code e = NETWORK_OFFLINE /\ remote_calls w = [].
Proof.
  intros w. split; [reflexivity|].
  destruct (@offline_fails_fast w eq_refl) as (_ & _ & _ & _ & Hst & _).
  destruct (Hst approve_X) as (e & Hrun & Hcode).
  exists e. split; [exact Hrun|]. split; [exact Hcode | reflexivity].
Defined.

End OfflineFacts.

(* ------------------------------------------------------------------ *)
(** ** Retry policies of the readers *)

Module RetryFacts.
Import Notions Errors Domain Store Fetch Scenario.

Lemma retry_list_policy :
  retry_list
  = policy [AUTH_SESSION_EXPIRED; DB_PERMISSION_DENIED; AUTH_UNAUTHORIZED] 3.
Proof. reflexivity. Qed.

Lemma retry_single_policy :
  retry_single
  = policy [DB_NOT_FOUND; DB_PERMISSION_DENIED; AUTH_SESSION_EXPIRED] 2.
Proof. reflexivity. Qed.

Lemma retry_part_app t1 t2 :
  retry_part (t1 ++ t2) = retry_part t1 ++ retry_part t2.
Proof. unfold retry_part. now rewrite filter_app, map_app. Qed.

Lemma schedule_step delay fc n :
  (1 <= n)%nat ->
  EvQueryFn :: EvSleep (delay fc) :: schedule delay (S fc) n
  = schedule delay fc (S n).
Proof. destruct n; [lia | reflexivity]. Qed.

(** With enough fuel the retryer ends, after between one and
    [bound + 1 - failureCount] runs laid out as [schedule] says. *)
Lemma retryer_schedule {A} codes bound delay (fn : M A) :
  quiet fn ->
  forall fuel failureCount w,
    (failureCount <= bound)%nat ->
    (bound <= failureCount + fuel)%nat ->
    exists res w' t n,
      retryer (policy codes bound) delay fn fuel failureCount w
      = Some (res, w') /\
      trace w' = trace w ++ t /\
      retry_part t = schedule delay failureCount n /\
      (1 <= n <= bound + 1 - failureCount)%nat /\
      (forall error w1,
          fn (with_event w EvQueryFn) = (inl error, w1) ->
          policy codes bound failureCount error = true -> (2 <= n)%nat).
Proof.
  intros Hq. induction fuel as [|fuel IH]; intros fc w Hfc Hfuel.
  - simpl. destruct (Hq (with_event w EvQueryFn)) as (t & Ht & Hf).
    destruct (fn (with_event w EvQueryFn)) as [[error|a] w1] eqn:E;
      simpl in Ht.
    + assert (Hno : policy codes bound fc error = false).
      { unfold policy. destruct (is_code error codes); [reflexivity|].
        apply Nat.ltb_ge. lia. }
      rewrite Hno. exists (inl error), w1, ({| ev := EvQueryFn; seen := cache w |} :: t), 1%nat.
      split; [reflexivity|]. split; [rewrite Ht; simpl; now rewrite <- app_assoc|].
      split; [unfold retry_part; simpl; now rewrite Hf|].
      split; [lia|]. intros error' w1' E' Hp'. congruence.
    + exists (inr a), w1, ({| ev := EvQueryFn; seen := cache w |} :: t), 1%nat.
      split; [reflexivity|]. split; [rewrite Ht; simpl; now rewrite <- app_assoc|].
      split; [unfold retry_part; simpl; now rewrite Hf|].
      split; [lia|]. intros error' w1' E' Hp'. congruence.
  - simpl. destruct (Hq (with_event w EvQueryFn)) as (t & Ht & Hf).
    destruct (fn (with_event w EvQueryFn)) as [[error|a] w1] eqn:E;
      simpl in Ht.
    + destruct (policy codes bound fc error) eqn:Hp.
      * assert (Hlt : (fc < bound)%nat).
        { unfold policy in Hp. destruct (is_code error codes); [discriminate|].
          now apply Nat.ltb_lt. }
        destruct (IH (S fc) (with_event w1 (EvSleep (delay fc))))
          as (res & w' & t' & n & Hrun & Htr & Hsched & Hn & _); [lia|lia|].
        exists res, w',
          ({| ev := EvQueryFn; seen := cache w |} :: t
           ++ {| ev := EvSleep (delay fc); seen := cache w1 |} :: t'),
          (S n).
        split; [exact Hrun|]. split.
        { rewrite Htr. simpl. rewrite Ht. simpl.
          rewrite <- !app_assoc. reflexivity. }
        split; [|split; [lia | intros; lia]].
        change ({| ev := EvQueryFn; seen := cache w |} :: t ++
                {| ev := EvSleep (delay fc); seen := cache w1 |} :: t')
          with ([{| ev := EvQueryFn; seen := cache w |}] ++ t ++
                [{| ev := EvSleep (delay fc); seen := cache w1 |}] ++ t').
        rewrite !retry_part_app, Hsched.
        unfold retry_part at 2. rewrite Hf. simpl.
        apply schedule_step. lia.
      * exists (inl error), w1, ({| ev := EvQueryFn; seen := cache w |} :: t), 1%nat.
        split; [reflexivity|]. split; [rewrite Ht; simpl; now rewrite <- app_assoc|].
        split; [unfold retry_part; simpl; now rewrite Hf|].
      split; [lia|]. intros error' w1' E' Hp'. congruence.
    + exists (inr a), w1, ({| ev := EvQueryFn; seen := cache w |} :: t), 1%nat.
      split; [reflexivity|]. split; [rewrite Ht; simpl; now rewrite <- app_assoc|].
      split; [unfold retry_part; simpl; now rewrite Hf|].
      split; [lia|]. intros error' w1' E' Hp'. congruence.
Qed.

(** A first failure of a listed kind ends the retryer at once. *)
Lemma retryer_suppressed {A} codes bound delay (fn : M A) fuel w error w1 :
  fn (with_event w EvQueryFn) = (inl error, w1) ->
  is_code error codes = true ->
  retryer (policy codes bound) delay fn fuel 0 w = Some (inl error, w1).
Proof.
  intros Hfn Hc. destruct fuel; simpl; rewrite Hfn; unfold policy; now rewrite Hc.
Qed.

Lemma quiet_fetchMaterialRequests f p s : quiet (fetchMaterialRequests f p s).
Proof.
  intros w.
  unfold fetchMaterialRequests, bind, navigator_onLine, call, throw, ret, emit.
  destruct (onLine w); simpl; [|exists []; now rewrite app_nil_r].
  destruct (r_error (select_list _ _ _)); simpl; [eexists; split; reflexivity|].
  destruct (r_data (select_list _ _ _)) as [[|r rows]|]; simpl;
    try (eexists; split; reflexivity).
  destruct (r_error (select_profiles_in _ _ _)); simpl;
    rewrite <- ?app_assoc; eexists; split; reflexivity.
Qed.

Lemma quiet_fetchMaterialRequest id : quiet (fetchMaterialRequest id).
Proof.
  intros w.
  unfold fetchMaterialRequest, bind, navigator_onLine, call, throw, ret.
  destruct (onLine w); simpl; [|exists []; now rewrite app_nil_r].
  destruct (r_error (select_single _ _ _)); simpl; [eexists; split; reflexivity|].
  destruct (r_data (select_single _ _ _)); simpl;
    rewrite <- ?app_assoc; eexists; split; reflexivity.
Qed.

(** The retryer runs exactly as long as the policy says: after [k] failures
    in a row of kinds the policy does not name, a run that succeeds, or
    fails with a named kind, or is the one after which [bound] failures
    have occurred, is the last. *)
Lemma retryer_exact {A} codes bound delay (fn : M A) :
  quiet fn ->
  forall k failureCount w r w1 fuel,
    (failureCount + k <= bound)%nat ->
    (k <= fuel)%nat ->
    fails_first fn codes delay k failureCount w
      (fun wk => fn (with_event wk EvQueryFn) = (r, w1)) ->
    match r with
    | inr _ => True
    | inl e => is_code e codes = true \/ (failureCount + k)%nat = bound
    end ->
    retryer (policy codes bound) delay fn fuel failureCount w = Some (r, w1) /\
    exists t, trace w1 = trace w ++ t /\
              retry_part t = schedule delay failureCount (S k).
Proof.
  intros Hq. induction k as [|k IH]; intros fc w r w1 fuel Hb Hfuel Hk Hstop.
  - cbn [fails_first] in Hk.
    destruct (Hq (with_event w EvQueryFn)) as (t & Ht & Hf).
    rewrite Hk in Ht. cbn [snd trace with_event] in Ht.
    assert (Hrun : retryer (policy codes bound) delay fn fuel fc w
                   = Some (r, w1)).
    { destruct r as [e|a].
      - assert (Hno : policy codes bound fc e = false).
        { unfold policy. destruct Hstop as [-> | Hfc]; [reflexivity|].
          destruct (is_code e codes); [reflexivity|].
          apply Nat.ltb_ge. lia. }
        destruct fuel; cbn [retryer]; rewrite Hk, Hno; reflexivity.
      - destruct fuel; cbn [retryer]; rewrite Hk; reflexivity. }
    split; [exact Hrun|].
    exists ({| ev := EvQueryFn; seen := cache w |} :: t). split.
    + rewrite Ht. now rewrite <- app_assoc.
    + unfold retry_part. cbn. unfold retry_part in Hf. now rewrite Hf.
  - cbn [fails_first] in Hk. destruct Hk as (e0 & w0 & Hfn & Hc0 & Hk).
    destruct fuel as [|fuel]; [lia|].
    destruct (Hq (with_event w EvQueryFn)) as (t & Ht & Hf).
    rewrite Hfn in Ht. cbn [snd trace with_event] in Ht.
    assert (Hp : policy codes bound fc e0 = true).
    { unfold policy. rewrite Hc0. apply Nat.ltb_lt. lia. }
    destruct (IH (S fc) (with_event w0 (EvSleep (delay fc))) r w1 fuel)
      as (Hrun & t' & Htr & Hsched); [lia | lia | exact Hk | |].
    { destruct r as [e|a]; [|exact I].
      destruct Hstop as [Hs|Hs]; [now left | right; lia]. }
    split.
    + cbn [retryer]. rewrite Hfn, Hp. exact Hrun.
    + exists ([{| ev := EvQueryFn; seen := cache w |}] ++ t ++
              [{| ev := EvSleep (delay fc); seen := cache w0 |}] ++ t').
      split.
      * rewrite Htr. cbn [trace with_event]. rewrite Ht.
        rewrite <- !app_assoc. reflexivity.
      * rewrite !retry_part_app, Hsched.
        remember (S k) as n eqn:Hn.
        unfold retry_part at 2. rewrite Hf. simpl.
        apply schedule_step. lia.
Qed.

(** What the readers' query functions throw. A list fetch throws an error
    of one of the four kinds only when it is one of its own three, on a
    store that keeps PGRST116 for single-object requests; a single-entity
    fetch never throws AUTH_UNAUTHORIZED. *)
Lemma list_fetch_kinds f p s w0 e w1 :
  conforming (remote w0) ->
  fetchMaterialRequests f p s w0 = (inl e, w1) ->
  is_code e no_retry_kinds = true -> is_code e list_kinds = true.
Proof.
  intros Hconf.
  unfold fetchMaterialRequests, bind, navigator_onLine, call, throw, ret, emit.
  destruct (onLine w0); cbn [negb fst snd];
    [|intros H; inversion H; subst; intros Hk; vm_compute in Hk; discriminate].
  destruct (r_error (select_list _ _ _)) as [pe|] eqn:Herr.
  - apply Hconf in Herr. apply String.eqb_neq in Herr.
    intros H. inversion H; subst. clear H.
    unfold is_code, parsePostgrestError. rewrite Herr.
    destruct (includes (pg_message pe) "row-level security");
      [reflexivity|].
    repeat match goal with
           | |- context [String.eqb (pg_code pe) ?c] =>
               destruct (String.eqb (pg_code pe) c)
           end; try reflexivity; intros Hk; exact Hk.
  - destruct (r_data (select_list _ _ _)) as [[|r rows]|];
      cbn [fst snd]; try discriminate.
    destruct (r_error (select_profiles_in _ _ _)); discriminate.
Qed.

Lemma single_fetch_kinds id w0 e w1 :
  fetchMaterialRequest id w0 = (inl e, w1) ->
  is_code e no_retry_kinds = true -> is_code e single_kinds = true.
Proof.
  unfold fetchMaterialRequest, bind, navigator_onLine, call, throw, ret.
  destruct (onLine w0); cbn [negb fst snd];
    [|intros H; inversion H; subst; intros Hk; vm_compute in Hk; discriminate].
  destruct (r_error (select_single _ _ _)) as [pe|] eqn:Herr.
  - intros H. inversion H; subst. clear H.
    unfold is_code, parsePostgrestError.
    destruct (includes (pg_message pe) "row-level security");
      [reflexivity|].
    repeat match goal with
           | |- context [String.eqb (pg_code pe) ?c] =>
               destruct (String.eqb (pg_code pe) c)
           end; try reflexivity; intros Hk; exact Hk.
  - destruct (r_data (select_single _ _ _)); cbn [fst snd];
      intros H; inversion H; subst; intros Hk; discriminate Hk.
Qed.

Lemma list_fetch_outcome f p s fuel w r w1 :
  retryer retry_list retryDelay (fetchMaterialRequests f p s) fuel 0 w
  = Some (r, w1) ->
  useMaterialRequests_fetch f p s fuel w = Some (list_outcome f p s r w1).
Proof.
  intros H. unfold useMaterialRequests_fetch. rewrite H.
  destruct r; reflexivity.
Qed.

Lemma single_fetch_outcome id fuel w r w1 :
  retryer retry_single retryDelay (fetchMaterialRequest id) fuel 0 w
  = Some (r, w1) ->
  useMaterialRequest_fetch id fuel w = Some (single_outcome id r w1).
Proof.
  intros H. unfold useMaterialRequest_fetch. rewrite H.
  destruct r; reflexivity.
Qed.

(** C4. The delay before retry number n is min(1000 * 2^n, 30000) ms. A
    read always ends, after at most four runs of the query function for
    the list and three for a single request, with that delay slept between
    runs. It is retried exactly while fewer than 3 (list) or 2 (single)
    failures have occurred and the failure is not of a kind the reader
    names: after k failures of other kinds, a run that succeeds, or fails
    with a named kind, or is the fourth (third) is the last one, so that
    k + 1 runs are made and its result is the result of the read. A read
    whose query function fails with AUTH_SESSION_EXPIRED,
    DB_PERMISSION_DENIED, AUTH_UNAUTHORIZED or DB_NOT_FOUND is run once
    and the error propagates: the single-entity reader names all of them
    but AUTH_UNAUTHORIZED, which its query function never throws, and the
    list reader all but DB_NOT_FOUND, which its query function only throws
    if the store answers a list query with PGRST116, the error of a
    single-object request. *)
Theorem read_retry_policy :
  (forall n, retryDelay n = Z.min (1000 * 2 ^ Z.of_nat n) 30000) /\
  schedule retryDelay 0 4
  = [EvQueryFn; EvSleep 1000; EvQueryFn; EvSleep 2000;
     EvQueryFn; EvSleep 4000; EvQueryFn] /\
  (forall f p s fuel w,
      (3 <= fuel)%nat ->
      exists res w' t n,
        useMaterialRequests_fetch f p s fuel w = Some (res, w') /\
        trace w' = trace w ++ t /\
        retry_part t = schedule retryDelay 0 n /\
        (1 <= n <= 4)%nat) /\
  (forall f p s fuel w k r w1,
      (k <= 3)%nat -> (k <= fuel)%nat ->
      fails_first (fetchMaterialRequests f p s) list_kinds retryDelay k 0 w
        (fun wk =>
           fetchMaterialRequests f p s (with_event wk EvQueryFn) = (r, w1)) ->
      match r with
      | inr _ => True
      | inl e => is_code e list_kinds = true \/ k = 3%nat
      end ->
      useMaterialRequests_fetch f p s fuel w = Some (list_outcome f p s r w1) /\
      exists t, trace w1 = trace w ++ t /\
                retry_part t = schedule retryDelay 0 (S k)) /\
  (forall f p s w0 e w1,
      conforming (remote w0) ->
      fetchMaterialRequests f p s w0 = (inl e, w1) ->
      is_code e no_retry_kinds = true -> is_code e list_kinds = true) /\
  (forall f p s fuel w e w1,
      conforming (remote w) ->
      fetchMaterialRequests f p s (with_event w EvQueryFn) = (inl e, w1) ->
      is_code e no_retry_kinds = true ->
      useMaterialRequests_fetch f p s fuel w = Some (inl e, w1) /\
      exists t, trace w1 = trace w ++ t /\ retry_part t = [EvQueryFn]) /\
  (forall id fuel w,
      (2 <= fuel)%nat ->
      exists res w' t n,
        useMaterialRequest_fetch id fuel w = Some (res, w') /\
        trace w' = trace w ++ t /\
        retry_part t = schedule retryDelay 0 n /\
        (1 <= n <= 3)%nat) /\
  (forall id fuel w k r w1,
      (k <= 2)%nat -> (k <= fuel)%nat ->
      fails_first (fetchMaterialRequest id) single_kinds retryDelay k 0 w
        (fun wk => fetchMaterialRequest id (with_event wk EvQueryFn) = (r, w1)) ->
      match r with
      | inr _ => True
      | inl e => is_code e single_kinds = true \/ k = 2%nat
      end ->
      useMaterialRequest_fetch id fuel w = Some (single_outcome id r w1) /\
      exists t, trace w1 = trace w ++ t /\
                retry_part t = schedule retryDelay 0 (S k)) /\
  (forall id w0 e w1,
      fetchMaterialRequest id w0 = (inl e, w1) ->
      is_code e no_retry_kinds = true -> is_code e single_kinds = true) /\
  (forall id fuel w e w1,
      fetchMaterialRequest id (with_event w EvQueryFn) = (inl e, w1) ->
      is_code e no_retry_kinds = true ->
      useMaterialRequest_fetch id fuel w = Some (inl e, w1) /\
      exists t, trace w1 = trace w ++ t /\ retry_part t = [EvQueryFn]).
Proof.
  split; [reflexivity|]. split; [reflexivity|].
  split; [|split; [|split; [|split; [|split; [|split; [|split]]]]]].
  - intros f p s fuel w Hfuel.
    destruct (@retryer_schedule _ list_kinds 3%nat retryDelay _
                (quiet_fetchMaterialRequests f p s) fuel 0%nat w)
      as (res & w' & t & n & Hrun & Htr & Hsched & Hn & _); [lia|lia|].
    change (policy list_kinds 3) with retry_list in Hrun.
    rewrite (list_fetch_outcome _ _ _ _ _ Hrun).
    destruct res as [error|page]; eexists _, _, t, n;
      (split; [reflexivity|]); repeat split; try assumption; lia.
  - intros f p s fuel w k r w1 Hk Hfuel Hfails Hstop.
    destruct (@retryer_exact _ list_kinds 3%nat retryDelay _
                (quiet_fetchMaterialRequests f p s) k 0%nat w r w1 fuel)
      as (Hrun & Ht); [lia | lia | exact Hfails | |].
    { destruct r; [|exact I]. destruct Hstop; [now left | right; lia]. }
    change (policy list_kinds 3) with retry_list in Hrun.
    split; [now apply list_fetch_outcome | exact Ht].
  - exact list_fetch_kinds.
  - intros f p s fuel w e w1 Hconf Hfn Hk.
    assert (Hl : is_code e list_kinds = true)
      by (apply (list_fetch_kinds f p s (with_event w EvQueryFn) Hconf Hfn Hk)).
    destruct (@retryer_exact _ list_kinds 3%nat retryDelay _
                (quiet_fetchMaterialRequests f p s) 0%nat 0%nat w
                (inl e) w1 fuel)
      as (Hrun & Ht); [lia | lia | exact Hfn | now left |].
    change (policy list_kinds 3) with retry_list in Hrun.
    split; [exact (list_fetch_outcome _ _ _ _ _ Hrun) | exact Ht].
  - intros id fuel w Hfuel.
    destruct (@retryer_schedule _ single_kinds 2%nat retryDelay _
                (quiet_fetchMaterialRequest id) fuel 0%nat w)
      as (res & w' & t & n & Hrun & Htr & Hsched & Hn & _); [lia|lia|].
    change (policy single_kinds 2) with retry_single in Hrun.
    rewrite (single_fetch_outcome _ _ _ Hrun).
    destruct res as [error|row]; eexists _, _, t, n;
      (split; [reflexivity|]); repeat split; try assumption; lia.
  - intros id fuel w k r w1 Hk Hfuel Hfails Hstop.
    destruct (@retryer_exact _ single_kinds 2%nat retryDelay _
                (quiet_fetchMaterialRequest id) k 0%nat w r w1 fuel)
      as (Hrun & Ht); [lia | lia | exact Hfails | |].
    { destruct r; [|exact I]. destruct Hstop; [now left | right; lia]. }
    change (policy single_kinds 2) with retry_single in Hrun.
    split; [now apply single_fetch_outcome | exact Ht].
  - exact single_fetch_kinds.
  - intros id fuel w e w1 Hfn Hk.
    assert (Hl : is_code e single_kinds = true)
      by (apply (single_fetch_kinds id (with_event w EvQueryFn) Hfn Hk)).
    destruct (@retryer_exact _ single_kinds 2%nat retryDelay _
                (quiet_fetchMaterialRequest id) 0%nat 0%nat w
                (inl e) w1 fuel)
      as (Hrun & Ht); [lia | lia | exact Hfn | now left |].
    change (policy single_kinds 2) with retry_single in Hrun.
    split; [exact (single_fetch_outcome _ _ _ Hrun) | exact Ht].
Qed.

(** During an outage the first page is asked for four times, 1, 2 and 4
    seconds apart; refused by the store it is asked for once. *)
Lemma read_retry_policy_witness :
  (exists e w1,
      useMaterialRequests_fetch None None None 5 (world true an_outage [])
      = Some (inl e, w1) /\
      retry_part (trace w1)
      = [EvQueryFn; EvSleep 1000; EvQueryFn; EvSleep 2000;
         EvQueryFn; EvSleep 4000; EvQueryFn]) /\
  (exists e w1,
      useMaterialRequests_fetch None None None 5 (world true refusing [])
      = Some (inl e, w1) /\
      is_code e no_retry_kinds = true /\
      retry_part (trace w1) = [EvQueryFn]).
Proof.
  destruct read_retry_policy
    as (_ & _ & _ & Hexact & _ & Hone & _).
  split.
  - edestruct (Hexact None None None 5%nat (world true an_outage []) 3%nat)
      as (Hrun & t & Ht & Hsched).
    + lia.
    + lia.
    + cbn [fails_first].
      do 3 (eexists _, _; split; [lazy; reflexivity|];
            split; [reflexivity|]).
      lazy. reflexivity.
    + right. reflexivity.
    + eexists _, _. split; [exact Hrun|].
      rewrite Ht. exact Hsched.
  - destruct (Hone None None None 5%nat (world true refusing [])
                (ThrownApp (parsePostgrestError denied op_fetch))
                (snd (fetchMaterialRequests None None None
                        (with_event (world true refusing []) EvQueryFn))))
      as (Hrun & t & Ht & Hsched).
    + intros n q e H. cbn in H. injection H as <-. discriminate.
    + reflexivity.
    + reflexivity.
    + eexists _, _. split; [exact Hrun|]. split; [reflexivity|].
      rewrite Ht. exact Hsched.
Defined.

End RetryFacts.

(* ================================================================== *)
(** * Further embedding: errors, handlers and the list page *)

(* ------------------------------------------------------------------ *)
(** ** Error guards, network parser, query error fallback *)

Module Guards.
Import Errors.

Section WithLowerCase.

(** [String.prototype.toLowerCase], left abstract: what is proved below
    holds for any lowercasing. *)
Variable toLowerCase : string -> string.

(** [isNetworkError(error)] on a thrown [Error]. *)
Definition isNetworkError (error : Thrown) : bool :=
  match error with
  | ThrownApp e => startsWith (code_string (code e)) "NETWORK_"
  | ThrownOther _ msg =>
      let message := toLowerCase msg in
      includes message "network" || includes message "fetch"
      || includes message "connection" || includes message "offline"
  end.

(** [isAuthError(error)]. *)
Definition isAuthError (error : Thrown) : bool :=
  match error with
  | ThrownApp e => startsWith (code_string (code e)) "AUTH_"
  | ThrownOther _ _ => false
  end.

(** [parseNetworkError(error)], given [navigator.onLine] and the message
    of the error. *)
Definition parseNetworkError (onLine : bool) (msg : string) : AppError :=
  let message := toLowerCase msg in
  let make (c : ErrorCode) :=
    new_AppError
      {| opt_code := c; opt_message := msg; opt_userMessage := None;
         opt_postgrestCode := None; opt_severity := None;
         opt_recoverable := Some true |} in
  if negb onLine || includes message "offline" then make NETWORK_OFFLINE
  else if includes message "timeout" || includes message "timed out"
  then make NETWORK_TIMEOUT
  else if includes message "fetch" || includes message "network"
          || includes message "connection"
          || includes message "failed to fetch"
  then make NETWORK_CONNECTION_FAILED
  else make NETWORK_CONNECTION_FAILED.

(** The title [QueryErrorFallback] shows when none is passed. *)
Definition displayTitle (error : Thrown) (entityName : option string) : string :=
  if isNetworkError error then "Connection Error"
  else if isAuthError error then "Authentication Error"
  else
    match entityName with
    | Some n => if String.eqb n "" then "Error Loading Data"
                else String.append "Failed to load " n
    | None => "Error Loading Data"
    end.

(** The label of its retry button. *)
Definition actionText (error : Thrown) : string :=
  if isNetworkError error then "Try Again" else "Retry".

End WithLowerCase.

End Guards.

(* ------------------------------------------------------------------ *)
(** ** Error log ([src/lib/errors/logger.ts]) *)

Module Logger.
Import Errors.

Definition LogContext := list (string * string).

Record ErrorLogEntry := {
  timestamp : string;
  error : AppError;              (* [appError.toJSON()] *)
  context : LogContext;
  url : string;
  userAgent : string
}.

Definition MAX_LOG_SIZE : nat := 100.

Inductive ConsoleMethod := console_error | console_warn | console_info.

Definition getLogMethod (s : ErrorSeverity) : ConsoleMethod :=
  match s with
  | CRITICAL | HIGH => console_error
  | MEDIUM => console_warn
  | LOW => console_info
  end.

(** A console call: the method and the line ["[code] message"]. *)
Record ConsoleCall := {
  method : ConsoleMethod;
  line : string
}.

(** The browser as the logger reads it. *)
Record Browser := {
  b_now : string;
  b_href : string;
  b_userAgent : string;
  b_prod : bool                  (* [import.meta.env.PROD] *)
}.

(** [errorLog.pop()]. *)
Definition pop {A} (l : list A) : list A := removelast l.

(** [logError(appError, context)] on the in-memory log: the new log, the
    console calls made, and the error returned. *)
Definition logError (b : Browser) (appError : AppError) (ctx : LogContext)
    (errorLog : list ErrorLogEntry)
  : list ErrorLogEntry * list ConsoleCall * AppError :=
  let logEntry :=
    {| timestamp := b_now b; error := appError; context := ctx;
       url := b_href b; userAgent := b_userAgent b |} in
  let log1 := logEntry :: errorLog in
  let log2 := if Nat.ltb MAX_LOG_SIZE (length log1) then pop log1 else log1 in
  let call :=
    {| method := getLogMethod (severity appError);
       line := String.append "["
                 (String.append (code_string (code appError))
                    (String.append "] " (message appError))) |} in
  let tracking :=
    if b_prod b
    then [{| method := console_error; line := "[Error Tracking]" |}]
    else [] in
  (log2, call :: tracking, appError).

(** [clearErrorLog()]. *)
Definition clearErrorLog (errorLog : list ErrorLogEntry) : list ErrorLogEntry := [].

(** [getRecentErrors()]. *)
Definition getRecentErrors (errorLog : list ErrorLogEntry) : list ErrorLogEntry :=
  errorLog.

(** What the application does to the log. *)
Inductive LogOp :=
| OpLog (b : Browser) (e : AppError) (ctx : LogContext)
| OpClear.

Definition apply_op (errorLog : list ErrorLogEntry) (op : LogOp)
  : list ErrorLogEntry :=
  match op with
  | OpLog b e ctx => fst (fst (logError b e ctx errorLog))
  | OpClear => clearErrorLog errorLog
  end.

Definition entry_of (b : Browser) (e : AppError) (ctx : LogContext)
  : ErrorLogEntry :=
  {| timestamp := b_now b; error := e; context := ctx;
     url := b_href b; userAgent := b_userAgent b |}.

End Logger.

(* ------------------------------------------------------------------ *)
(** ** Error handlers ([src/lib/errors/handlers.ts]) *)

Module Handlers.
Import Errors Mutations.

Inductive ToastAction := ActLogIn | ActRetry.

Inductive Effect :=
| HLog (e : AppError)
| HAuthError                                   (* [onAuthError()] *)
| HToast (title description : string) (action : option ToastAction).

Record HandleErrorOptions := {
  showToast : bool;              (* default [true] *)
  toastTitle : option string;
  log : bool;                    (* default [true] *)
  with_onAuthError : bool;
  with_onRetry : bool
}.

(** [a || b] on an optional string. *)
Definition or_string (a : option string) (b : string) : string :=
  match a with
  | Some s => if String.eqb s "" then b else s
  | None => b
  end.

(** [handleError(appError, options)] for an error that already is an
    [AppError]: the error returned and the effects, in order. *)
Definition handleError (appError : AppError) (o : HandleErrorOptions)
  : AppError * list Effect :=
  let logged := if log o then [HLog appError] else [] in
  if startsWith (code_string (code appError)) "AUTH_"
     && code_eqb (code appError) AUTH_SESSION_EXPIRED
  then
    (appError,
     logged
     ++ (if with_onAuthError o then [HAuthError] else [])
     ++ (if showToast o
         then [HToast (or_string (toastTitle o) "Session Expired")
                      (userMessage appError) (Some ActLogIn)]
         else []))
  else
    (appError,
     logged
     ++ (if showToast o
         then [HToast (or_string (toastTitle o) "Error")
                      (userMessage appError)
                      (if recoverable appError && with_onRetry o
                       then Some ActRetry else None)]
         else [])).

(** The options a caller passes to the wrappers ([Omit<..., "toastTitle">]),
    with the defaults of the destructuring. *)
Record WrapperOptions := {
  w_showToast : option bool;
  w_log : option bool;
  w_onAuthError : bool;
  w_onRetry : bool
}.

Definition with_title (o : option WrapperOptions) (title : string)
  : HandleErrorOptions :=
  match o with
  | Some o' =>
      {| showToast := Domain.or_else (w_showToast o') true;
         toastTitle := Some title;
         log := Domain.or_else (w_log o') true;
         with_onAuthError := w_onAuthError o';
         with_onRetry := w_onRetry o' |}
  | None =>
      {| showToast := true; toastTitle := Some title; log := true;
         with_onAuthError := false; with_onRetry := false |}
  end.

Definition handleMutationError (appError : AppError) (k : MutationKind)
    (entityName : string) (o : option WrapperOptions)
  : AppError * list Effect :=
  handleError appError
    (with_title o
       (String.append "Error "
          (String.append (operationPast k) (String.append " " entityName)))).

(** The options the mutation hooks pass. *)
Definition hook_options : option WrapperOptions :=
  Some {| w_showToast := Some true; w_log := Some true;
          w_onAuthError := false; w_onRetry := false |}.

(** What the trace of the hooks keeps of an effect. *)
Definition as_event (appError : AppError) (e : Effect) : list Store.Event :=
  match e with
  | HLog e' => [Store.EvLog e']
  | HAuthError => []
  | HToast title _ _ => [Store.EvToast title appError]
  end.

End Handlers.

(* ------------------------------------------------------------------ *)
(** ** The list page: filters bar, URL state, table, pagination bar *)

Module ListPage.
Import Errors Domain Store Fetch.

(** *** Filters bar ([MaterialRequestFiltersComponent]) *)

Definition handleStatusChange (filters : MaterialRequestFilters)
    (value : OrAll MaterialRequestStatus) : MaterialRequestFilters :=
  {| f_status := Some value; f_priority := f_priority filters;
     f_search := f_search filters |}.

Definition handlePriorityChange (filters : MaterialRequestFilters)
    (value : OrAll MaterialRequestPriority) : MaterialRequestFilters :=
  {| f_status := f_status filters; f_priority := Some value;
     f_search := f_search filters |}.

Definition handleSearchChange (filters : MaterialRequestFilters)
    (value : JsString.t) : MaterialRequestFilters :=
  {| f_status := f_status filters; f_priority := f_priority filters;
     f_search := Some value |}.

Definition handleClearFilters : MaterialRequestFilters :=
  {| f_status := Some all; f_priority := Some all; f_search := Some [] |}.

(** Truthiness of [hasActiveFilters], which shows the Clear button. *)
Definition hasActiveFilters (filters : MaterialRequestFilters) : bool :=
  match f_status filters with Some (only _) => true | _ => false end
  || match f_priority filters with Some (only _) => true | _ => false end
  || match f_search filters with Some s => JsString.truthy s | None => false end.

(** *** URL state of the page *)

Record SearchParams := {
  page : Z;
  sp_pageSize : Z;
  sp_status : OrAll MaterialRequestStatus;
  sp_priority : OrAll MaterialRequestPriority;
  search : JsString.t;
  sortColumn : string;
  sortDirection : Direction
}.

(** The state derived from the URL; [debouncedSearch] is the search the
    debounce has let through. *)
Definition filters_of_params (sp : SearchParams) (debouncedSearch : JsString.t)
  : MaterialRequestFilters :=
  {| f_status := Some (sp_status sp); f_priority := Some (sp_priority sp);
     f_search := Some debouncedSearch |}.

Definition pagination_of_params (sp : SearchParams) : PaginationParams :=
  {| pageIndex := page sp; pageSize := sp_pageSize sp |}.

Definition sorting_of_params (sp : SearchParams) : SortingParams :=
  {| column := sortColumn sp; direction := sortDirection sp |}.

Definition handleFiltersChange (prev : SearchParams)
    (newFilters : MaterialRequestFilters) : SearchParams :=
  {| page := 0;
     sp_pageSize := sp_pageSize prev;
     sp_status := or_else (f_status newFilters) all;
     sp_priority := or_else (f_priority newFilters) all;
     search := or_else (f_search newFilters) [];
     sortColumn := sortColumn prev;
     sortDirection := sortDirection prev |}.

Definition handlePaginationChange (prev : SearchParams)
    (newPagination : PaginationParams) : SearchParams :=
  {| page := pageIndex newPagination;
     sp_pageSize := pageSize newPagination;
     sp_status := sp_status prev;
     sp_priority := sp_priority prev;
     search := search prev;
     sortColumn := sortColumn prev;
     sortDirection := sortDirection prev |}.

Definition handleSortingChange (prev : SearchParams)
    (newSorting : SortingParams) : SearchParams :=
  {| page := 0;
     sp_pageSize := sp_pageSize prev;
     sp_status := sp_status prev;
     sp_priority := sp_priority prev;
     search := search prev;
     sortColumn := column newSorting;
     sortDirection := direction newSorting |}.

(** The page keeps the search box in local state beside the URL;
    [useDebounce] hands it on once the input has been still for 300 ms. *)
Record PageState := {
  searchParams : SearchParams;
  searchInput : JsString.t
}.

(** [handleFiltersChange] on both: [setSearchInput] when a search is given,
    then the URL update. *)
Definition page_handleFiltersChange (st : PageState)
    (newFilters : MaterialRequestFilters) : PageState :=
  {| searchParams := handleFiltersChange (searchParams st) newFilters;
     searchInput :=
       match f_search newFilters with
       | Some s => s
       | None => searchInput st
       end |}.

(** The filters of a render after the debounce has caught up. *)
Definition settled_filters (st : PageState) : MaterialRequestFilters :=
  filters_of_params (searchParams st) (searchInput st).

(** [displayFilters], what the filters bar is given. *)
Definition displayFilters (st : PageState) (debouncedSearch : JsString.t)
  : MaterialRequestFilters :=
  {| f_status := f_status (filters_of_params (searchParams st) debouncedSearch);
     f_priority :=
       f_priority (filters_of_params (searchParams st) debouncedSearch);
     f_search := Some (searchInput st) |}.

(** The filters of a render, what the query is given. *)
Definition queryFilters (st : PageState) (debouncedSearch : JsString.t)
  : MaterialRequestFilters :=
  filters_of_params (searchParams st) debouncedSearch.

(** A page whose search box has just been emptied. *)
Definition emptied_box : PageState :=
  {| searchParams :=
       {| page := 0; sp_pageSize := 10; sp_status := all; sp_priority := all;
          search := []; sortColumn := "requested_at"; sortDirection := desc |};
     searchInput := [] |}.

(** What the user does in the filters bar, and what the bar then hands to
    [onFiltersChange]. *)
Inductive BarGesture :=
| PickStatus (value : OrAll MaterialRequestStatus)
| PickPriority (value : OrAll MaterialRequestPriority)
| TypeSearch (value : JsString.t)
| ClickClear.

Definition bar (filters : MaterialRequestFilters) (g : BarGesture)
  : MaterialRequestFilters :=
  match g with
  | PickStatus v => handleStatusChange filters v
  | PickPriority v => handlePriorityChange filters v
  | TypeSearch v => handleSearchChange filters v
  | ClickClear => handleClearFilters
  end.

(** *** Table ([MaterialRequestTable]) *)

(** [handleSortClick(columnId)]: the sorting handed to [onSortingChange]. *)
Definition handleSortClick (sorting : SortingParams) (columnId : string)
  : SortingParams :=
  let newDirection :=
    if String.eqb (column sorting) columnId
    then match direction sorting with asc => desc | desc => asc end
    else desc in
  {| column := columnId; direction := newDirection |}.

(** What the pagination bar is given by the table, when it is shown at
    all ([pagination && pagination.totalCount > 0]). *)
Record PaginationBar := {
  bar_pageIndex : Z;
  bar_pageSize : Z;
  bar_totalCount : Z;
  canPreviousPage : option bool;
  canNextPage : option bool
}.

Definition pagination_bar (meta : option PaginationMeta) : option PaginationBar :=
  match meta with
  | Some mt =>
      if 0 <? totalCount mt
      then Some {| bar_pageIndex := currentPage mt;
                   bar_pageSize := meta_pageSize mt;
                   bar_totalCount := totalCount mt;
                   canPreviousPage := Some (hasPreviousPage mt);
                   canNextPage := Some (hasNextPage mt) |}
      else None
  | None => None
  end.

(** [onPreviousPage] / [onNextPage] of the table. *)
Definition onPreviousPage (mt : PaginationMeta) : PaginationParams :=
  {| pageIndex := currentPage mt - 1; pageSize := meta_pageSize mt |}.

Definition onNextPage (mt : PaginationMeta) : PaginationParams :=
  {| pageIndex := currentPage mt + 1; pageSize := meta_pageSize mt |}.

(** *** Pagination bar ([TablePagination]) *)

Record BarView := {
  startItem : Z;
  endItem : Z;
  shownPage : Z;                 (* "Page n" *)
  shownPages : Z;                (* "of m" *)
  previousEnabled : bool;
  nextEnabled : bool
}.

Definition TablePagination (b : PaginationBar) : BarView :=
  let totalPages := ceil_div (bar_totalCount b) (bar_pageSize b) in
  let hasPreviousPage :=
    match canPreviousPage b with
    | Some v => v
    | None => 0 <? bar_pageIndex b
    end in
  let hasNextPage :=
    match canNextPage b with
    | Some v => v
    | None => bar_pageIndex b <? totalPages - 1
    end in
  {| startItem :=
       if bar_totalCount b =? 0 then 0
       else bar_pageIndex b * bar_pageSize b + 1;
     endItem := Z.min ((bar_pageIndex b + 1) * bar_pageSize b) (bar_totalCount b);
     shownPage := bar_pageIndex b + 1;
     shownPages := totalPages;
     previousEnabled := hasPreviousPage;
     nextEnabled := hasNextPage |}.

(** *** Prefetch of the next page ([useMaterialRequests]) *)

(** The effect after a render: with data saying there is a next page, and
    pagination given, the arguments of the prefetch. *)
Definition prefetch_target (queryData : option PaginatedResponse)
    (pagination : option PaginationParams) : option PaginationParams :=
  match queryData, pagination with
  | Some d, Some p =>
      if hasNextPage (Domain.pagination d)
      then Some {| pageIndex := pageIndex p + 1; pageSize := pageSize p |}
      else None
  | _, _ => None
  end.

(** [query.data] of [useMaterialRequests]: the data of the key of this
    render when it has some, else ([placeholderData]) the data that were
    shown before, kept while the key is loading. *)
Definition query_data (own previous : option PaginatedResponse)
  : option PaginatedResponse :=
  match own with
  | Some d => Some d
  | None => previous
  end.

Definition prefetch_key (filters : option MaterialRequestFilters)
    (nextPageParams : PaginationParams) (sorting : option SortingParams)
  : QueryKey :=
  QUERY_KEYS.materialRequestsList filters (Some nextPageParams) sorting.

(** *** Requester column and export cell *)

(** [requester?.full_name ?? requester?.email ?? "Unknown"]. *)
Definition getRequesterName (request : MaterialRequest) : string :=
  match requester request with
  | Some p =>
      match full_name p with
      | Some n => n
      | None => email p
      end
  | None => "Unknown"
  end.

End ListPage.

(* ================================================================== *)
(** * Further properties *)

(* ------------------------------------------------------------------ *)
(** ** Errors as built and parsed *)

Module ErrorBuildFacts.
Import Errors Domain Store Scenario Notions.

Lemma default_message_not_empty c : getDefaultUserMessage c <> "".
Proof. destruct c; discriminate. Qed.

(** X1. Whatever options an [AppError] is built from, its user-facing
    message is not empty: a missing or empty one is replaced by the default
    of the code, and every default is a non-empty sentence. *)
Theorem user_message_never_empty (o : AppErrorOptions) :
  userMessage (new_AppError o) <> "" /\
  (forall s, opt_userMessage o = Some s -> s <> "" ->
             userMessage (new_AppError o) = s) /\
  (opt_userMessage o = None \/ opt_userMessage o = Some "" ->
   userMessage (new_AppError o) = getDefaultUserMessage (opt_code o)).
Proof.
  unfold new_AppError; simpl. repeat split.
  - destruct (opt_userMessage o) as [s|]; [|apply default_message_not_empty].
    destruct (String.eqb s "") eqn:E; [apply default_message_not_empty|].
    now apply String.eqb_neq.
  - intros s -> Hs. apply String.eqb_neq in Hs. now rewrite Hs.
  - intros [-> | ->]; reflexivity.
Qed.

Definition mentions_rls (e : PostgrestError) : bool :=
  includes (pg_message e) "row-level security".

Definition store_codes (op : Operation) : list ErrorCode :=
  [operationCodeMap op; DB_NOT_FOUND; DB_CONSTRAINT_VIOLATION;
   DB_PERMISSION_DENIED; DB_FETCH_FAILED; AUTH_SESSION_EXPIRED].

Lemma parse_code_cases e op :
  code (parsePostgrestError e op) =
  if mentions_rls e then DB_PERMISSION_DENIED
  else if String.eqb (pg_code e) "PGRST116" then DB_NOT_FOUND
  else if String.eqb (pg_code e) "23505" then DB_CONSTRAINT_VIOLATION
  else if String.eqb (pg_code e) "23503" then DB_CONSTRAINT_VIOLATION
  else if String.eqb (pg_code e) "42501" then DB_PERMISSION_DENIED
  else if String.eqb (pg_code e) "42P01" then DB_FETCH_FAILED
  else if String.eqb (pg_code e) "PGRST301" then AUTH_SESSION_EXPIRED
  else operationCodeMap op.
Proof.
  unfold parsePostgrestError, mentions_rls. simpl.
  destruct (includes (pg_message e) "row-level security"); [reflexivity|].
  repeat match goal with
         | |- context [String.eqb ?a ?b] => destruct (String.eqb a b)
         end; reflexivity.
Qed.

Lemma parse_recoverable e op :
  recoverable (parsePostgrestError e op)
  = isRecoverableByDefault (code (parsePostgrestError e op)).
Proof. reflexivity. Qed.

Lemma parse_severity e op :
  severity (parsePostgrestError e op)
  = getDefaultSeverity (code (parsePostgrestError e op)).
Proof. reflexivity. Qed.

(** X2. An error parsed from the remote store keeps the store's message
    and code, always has severity high, carries one of the store kinds (the
    operation's own failure kind, not-found, constraint violation,
    permission denied, fetch failed, session expired), and is
    non-recoverable exactly when the store code is 42501 or the message
    mentions row-level security, the latter overriding any code. *)
Theorem parsed_store_error (e : PostgrestError) (op : Operation) :
  let a := parsePostgrestError e op in
  message a = pg_message e /\
  postgrestCode a = Some (pg_code e) /\
  In (code a) (store_codes op) /\
  severity a = HIGH /\
  (mentions_rls e = true -> code a = DB_PERMISSION_DENIED) /\
  (recoverable a = false <-> pg_code e = "42501" \/ mentions_rls e = true).
Proof.
  cbv zeta. split; [reflexivity|]. split; [reflexivity|].
  rewrite parse_severity, parse_recoverable, parse_code_cases.
  destruct (mentions_rls e) eqn:Er;
    repeat match goal with
           | |- context [if String.eqb ?a ?b then _ else _] =>
               destruct (String.eqb a b) eqn:?
           end;
    repeat match goal with
           | H : String.eqb _ _ = true |- _ => apply String.eqb_eq in H
           | H : String.eqb _ _ = false |- _ => apply String.eqb_neq in H
           end;
    destruct op; unfold isRecoverableByDefault; simpl;
    (split; [auto 10|]); (split; [reflexivity|]);
    (split; [intros; first [reflexivity | discriminate]|]);
    (split;
     [ intros H; first [discriminate H | auto]
     | intros [H|H]; first [reflexivity | congruence | discriminate H] ]).
Qed.

End ErrorBuildFacts.

(* ------------------------------------------------------------------ *)
(** ** Guards and the fallback shown for a failed read *)

Module GuardFacts.
Import Errors Domain Store Fetch Scenario Notions Guards ErrorBuildFacts.

(** X3. Whatever the lowercasing, [parseNetworkError] returns a
    recoverable error of severity medium whose kind is one of the three
    network kinds and which [isNetworkError] recognises; it keeps the
    message, and when the browser is offline the kind is NETWORK_OFFLINE
    whatever the message says. *)
Theorem network_errors_are_recoverable (toLowerCase : string -> string)
    (onLine : bool) (msg : string) :
  let a := parseNetworkError toLowerCase onLine msg in
  In (code a) [NETWORK_OFFLINE; NETWORK_TIMEOUT; NETWORK_CONNECTION_FAILED] /\
  recoverable a = true /\ severity a = MEDIUM /\ message a = msg /\
  isNetworkError toLowerCase (ThrownApp a) = true /\
  isAuthError (ThrownApp a) = false /\
  (onLine = false -> code a = NETWORK_OFFLINE).
Proof.
  unfold parseNetworkError.
  destruct onLine; simpl;
    repeat match goal with
           | |- context [includes ?a ?b] => destruct (includes a b)
           end; simpl; intuition congruence.
Qed.

(** X4. The title of the fallback shown for a failed list read, for any
    lowercasing: the offline error of the reader gives "Connection Error"
    with a "Try Again" button; an error parsed from the store gives
    "Authentication Error" exactly when it is a session-expired error and
    "Failed to load material requests" otherwise, never "Connection
    Error". *)
Theorem fallback_title_of_read_errors (toLowerCase : string -> string) :
  (forall f p s w,
      onLine w = false ->
      exists t,
        fst (fetchMaterialRequests f p s w) = inl t /\
        displayTitle toLowerCase t (Some "material requests")
        = "Connection Error" /\
        actionText toLowerCase t = "Try Again") /\
  (forall e,
      let t := ThrownApp (parsePostgrestError e op_fetch) in
      displayTitle toLowerCase t (Some "material requests")
      = (if code_eqb (code (parsePostgrestError e op_fetch)) AUTH_SESSION_EXPIRED
         then "Authentication Error"
         else "Failed to load material requests") /\
      actionText toLowerCase t = "Retry").
Proof.
  split.
  - intros f p s w Hoff. eexists.
    unfold fetchMaterialRequests, bind, navigator_onLine, throw.
    rewrite Hoff. simpl. repeat split; reflexivity.
  - intros e. cbv zeta.
    unfold displayTitle, actionText, isNetworkError, isAuthError.
    rewrite parse_code_cases.
    destruct (mentions_rls e); [split; vm_compute; reflexivity|].
    repeat match goal with
           | |- context [String.eqb (pg_code e) ?b] =>
               destruct (String.eqb (pg_code e) b)
           end; split; vm_compute; reflexivity.
Qed.

End GuardFacts.

(* ------------------------------------------------------------------ *)
(** ** The in-memory error log *)

Module LoggerFacts.
Import Errors Logger.

Lemma firstn_app_firstn {A} (l1 l2 : list A) : forall n m,
  (n <= m)%nat -> firstn n (l1 ++ firstn m l2) = firstn n (l1 ++ l2).
Proof.
  induction l1 as [|a l1 IH]; intros n m Hnm.
  - simpl. rewrite firstn_firstn. now replace (Nat.min n m) with n by lia.
  - destruct n as [|n]; [reflexivity|]. simpl. f_equal. apply IH. lia.
Qed.

Lemma logError_log b e ctx errorLog :
  (length errorLog <= MAX_LOG_SIZE)%nat ->
  fst (fst (logError b e ctx errorLog))
  = firstn MAX_LOG_SIZE (entry_of b e ctx :: errorLog).
Proof.
  intros Hlen. unfold logError. cbv zeta. cbn [fst].
  fold (entry_of b e ctx).
  destruct (Nat.ltb MAX_LOG_SIZE (length (entry_of b e ctx :: errorLog))) eqn:E.
  - apply Nat.ltb_lt in E. simpl length in E.
    assert (Hl : length errorLog = MAX_LOG_SIZE) by lia.
    unfold pop. rewrite removelast_firstn_len. simpl length.
    rewrite Hl. reflexivity.
  - apply Nat.ltb_ge in E. symmetry. apply firstn_all2. exact E.
Qed.

Lemma apply_op_bounded errorLog op :
  (length errorLog <= MAX_LOG_SIZE)%nat ->
  (length (apply_op errorLog op) <= MAX_LOG_SIZE)%nat.
Proof.
  intros Hlen. destruct op as [b e ctx|].
  - unfold apply_op. rewrite logError_log by assumption.
    apply firstn_le_length.
  - simpl. unfold MAX_LOG_SIZE. lia.
Qed.

(** X5. The error log never holds more than 100 entries: starting from a
    log within the bound (the empty log at start-up), any sequence of
    [logError] and [clearErrorLog] calls leaves at most 100 entries. *)
Theorem error_log_is_bounded (ops : list LogOp) :
  forall errorLog,
    (length errorLog <= MAX_LOG_SIZE)%nat ->
    (length (fold_left apply_op ops errorLog) <= MAX_LOG_SIZE)%nat.
Proof.
  induction ops as [|op ops IH]; intros errorLog Hlen; simpl; [assumption|].
  apply IH. now apply apply_op_bounded.
Qed.

Definition a_browser : Browser :=
  {| b_now := "2024-06-01T12:00:00Z"; b_href := "/material-requests";
     b_userAgent := "ua"; b_prod := false |}.

Definition a_denial : AppError :=
  parsePostgrestError {| pg_code := "42501"; pg_message := "denied" |} op_fetch.

(** From the empty log, one hundred and thirty-two errors later. *)
Lemma error_log_is_bounded_witness :
  (length (@nil ErrorLogEntry) <= MAX_LOG_SIZE)%nat /\
  (length (fold_left apply_op (repeat (OpLog a_browser a_denial []) 132) [])
   <= MAX_LOG_SIZE)%nat.
Proof.
  split.
  - unfold MAX_LOG_SIZE. simpl. lia.
  - apply error_log_is_bounded. unfold MAX_LOG_SIZE. simpl. lia.
Defined.

Definition log_all (b : Browser) (errors : list (AppError * LogContext))
    (errorLog : list ErrorLogEntry) : list ErrorLogEntry :=
  fold_left (fun l ec => apply_op l (OpLog b (fst ec) (snd ec))) errors errorLog.

(** X6. The log is newest first and keeps the most recent 100: after
    logging a sequence of errors on a log within the bound, it holds the
    first 100 entries of the new entries in reverse order of logging
    followed by the old ones. *)
Theorem error_log_keeps_most_recent (b : Browser)
    (errors : list (AppError * LogContext)) :
  forall errorLog,
    (length errorLog <= MAX_LOG_SIZE)%nat ->
    getRecentErrors (log_all b errors errorLog)
    = firstn MAX_LOG_SIZE
        (rev (map (fun ec => entry_of b (fst ec) (snd ec)) errors) ++ errorLog).
Proof.
  unfold getRecentErrors.
  induction errors as [|[e ctx] errors IH]; intros errorLog Hlen.
  - unfold log_all. cbn [fold_left map rev app]. symmetry.
    now apply firstn_all2.
  - unfold log_all in *. cbn [fold_left].
    rewrite IH by (now apply (apply_op_bounded errorLog (OpLog b e ctx))).
    unfold apply_op. cbn [fst snd]. rewrite logError_log by assumption.
    rewrite firstn_app_firstn by lia.
    cbn [map rev fst snd]. rewrite <- app_assoc. reflexivity.
Qed.

(** Two errors on the empty log: the second one logged comes first. *)
Lemma error_log_keeps_most_recent_witness :
  let e1 := offlineError None in
  (length (@nil ErrorLogEntry) <= MAX_LOG_SIZE)%nat /\
  getRecentErrors (log_all a_browser [(e1, []); (a_denial, [])] [])
  = [entry_of a_browser a_denial []; entry_of a_browser e1 []].
Proof.
  intros e1. split.
  - unfold MAX_LOG_SIZE. simpl. lia.
  - rewrite (@error_log_keeps_most_recent a_browser
               [(e1, []); (a_denial, [])] []).
    + reflexivity.
    + unfold MAX_LOG_SIZE. simpl. lia.
Defined.

End LoggerFacts.

(* ------------------------------------------------------------------ *)
(** ** Error handlers *)

Module HandlerFacts.
Import Errors Store Mutations Notions Handlers.

(** The toasts among the effects: title, description, action. *)
Definition toasts (l : list Effect)
  : list (string * string * option ToastAction) :=
  flat_map (fun e => match e with
                     | HToast t d a => [(t, d, a)]
                     | _ => []
                     end) l.

Lemma session_expired_test c :
  startsWith (code_string c) "AUTH_" && code_eqb c AUTH_SESSION_EXPIRED = true
  <-> c = AUTH_SESSION_EXPIRED.
Proof.
  destruct c; vm_compute; split; congruence.
Qed.

(** X7. What [handleError] shows for an error: it returns the error it was
    given; it shows one toast when [showToast] is on and none otherwise, and
    the toast's description is the error's user message and its title the
    one passed, or else Session Expired or Error; the toast carries
    the log-in action exactly for an expired session, and the retry action
    exactly for a recoverable error other than an expired session when a
    retry callback was passed; the auth callback runs exactly for an expired
    session; the error is logged, before anything else, exactly when [log]
    is on. *)
Theorem error_feedback (e : AppError) (o : HandleErrorOptions) :
  fst (handleError e o) = e /\
  (exists t a,
      toasts (snd (handleError e o))
      = (if showToast o then [(t, userMessage e, a)] else []) /\
      t = or_string (toastTitle o)
            (if code_eqb (code e) AUTH_SESSION_EXPIRED
             then "Session Expired" else "Error") /\
      (a = Some ActLogIn <-> code e = AUTH_SESSION_EXPIRED) /\
      (a = Some ActRetry <->
       code e <> AUTH_SESSION_EXPIRED /\ recoverable e = true
       /\ with_onRetry o = true)) /\
  (In HAuthError (snd (handleError e o)) <->
   code e = AUTH_SESSION_EXPIRED /\ with_onAuthError o = true) /\
  (forall e', In (HLog e') (snd (handleError e o)) <->
              log o = true /\ e' = e) /\
  (log o = true -> hd_error (snd (handleError e o)) = Some (HLog e)).
Proof.
  unfold handleError.
  destruct (startsWith (code_string (code e)) "AUTH_"
            && code_eqb (code e) AUTH_SESSION_EXPIRED) eqn:T.
  - apply session_expired_test in T.
    split; [reflexivity|]. split; [|split; [|split]].
    + exists (or_string (toastTitle o) "Session Expired"), (Some ActLogIn).
      split; [|split; [|split]].
      * cbn [snd]. destruct (log o), (with_onAuthError o), (showToast o);
          reflexivity.
      * rewrite T. reflexivity.
      * tauto.
      * split; [discriminate | intros [H _]; contradiction].
    + cbn [snd]. destruct (log o), (with_onAuthError o), (showToast o);
        simpl; split; intros H;
        repeat match goal with
               | H : _ \/ _ |- _ => destruct H
               | H : _ /\ _ |- _ => destruct H
               end; try discriminate; try contradiction; auto.
    + intros e'. cbn [snd].
      destruct (log o), (with_onAuthError o), (showToast o);
        simpl; split; intros H;
        repeat match goal with
               | H : _ \/ _ |- _ => destruct H
               | H : _ /\ _ |- _ => destruct H
               end; try discriminate; try contradiction;
        try (split; congruence); subst; auto.
    + intros ->. reflexivity.
  - assert (Hne : code e <> AUTH_SESSION_EXPIRED).
    { intros H. apply session_expired_test in H. congruence. }
    split; [reflexivity|]. split; [|split; [|split]].
    + exists (or_string (toastTitle o) "Error"),
        (if recoverable e && with_onRetry o then Some ActRetry else None).
      split; [|split; [|split]].
      * cbn [snd]. destruct (log o), (showToast o); reflexivity.
      * destruct (code_eqb (code e) AUTH_SESSION_EXPIRED) eqn:Ec;
          [|reflexivity].
        rewrite andb_true_r in T. destruct (code e); vm_compute in Ec, T;
          congruence.
      * destruct (recoverable e && with_onRetry o); split;
          try discriminate; intros H; contradiction.
      * destruct (recoverable e), (with_onRetry o); simpl; split;
          try discriminate; try tauto;
          intros (_ & H1 & H2); discriminate.
    + cbn [snd]. destruct (log o), (showToast o);
        simpl; split; intros H;
        repeat match goal with
               | H : _ \/ _ |- _ => destruct H
               | H : _ /\ _ |- _ => destruct H
               end; try discriminate; try contradiction; auto.
    + intros e'. cbn [snd].
      destruct (log o), (showToast o);
        simpl; split; intros H;
        repeat match goal with
               | H : _ \/ _ |- _ => destruct H
               | H : _ /\ _ |- _ => destruct H
               end; try discriminate; try contradiction;
        try (split; congruence); subst; auto.
    + intros ->. reflexivity.
Qed.

(** X8. The error handler as the mutation hooks' model has it agrees with
    [handleMutationError] of the handlers module called with
    [{ showToast: true, log: true }]: the handler returns the error, and
    the events the model records are the handler's log entry and its toast,
    in that order, with the same title, whatever the error and the
    operation. *)
Theorem hook_handler_refines (e : AppError) (k : MutationKind)
    (entityName : string) (w : World) :
  fst (Handlers.handleMutationError e k entityName hook_options) = e /\
  fst (Mutations.handleMutationError e k entityName w) = inr tt /\
  new_events w (snd (Mutations.handleMutationError e k entityName w))
  = map (stamp (cache w))
        (flat_map (as_event e)
           (snd (Handlers.handleMutationError e k entityName hook_options))) /\
  cache (snd (Mutations.handleMutationError e k entityName w)) = cache w.
Proof.
  assert (Ht : forall t : string,
             or_string (Some (String.append "Error " t)) "Session Expired"
             = String.append "Error " t
             /\ or_string (Some (String.append "Error " t)) "Error"
                = String.append "Error " t).
  { intros t. split; reflexivity. }
  unfold Handlers.handleMutationError, handleError, hook_options, with_title.
  cbn [showToast log with_onAuthError with_onRetry toastTitle
       Domain.or_else w_showToast w_log w_onAuthError w_onRetry].
  destruct (Ht (String.append (operationPast k)
                  (String.append " " entityName))) as [-> ->].
  unfold Mutations.handleMutationError, bind, emit, new_events.
  cbn [fst snd trace with_event cache].
  rewrite <- app_assoc. rewrite skipn_app, skipn_all, Nat.sub_diag.
  destruct (startsWith (code_string (code e)) "AUTH_"
            && code_eqb (code e) AUTH_SESSION_EXPIRED);
    repeat split; reflexivity.
Qed.

End HandlerFacts.

(* ------------------------------------------------------------------ *)
(** ** Histories of a request *)

Module HistoryFacts.
Import Domain Workflow WorkflowFacts.







End HistoryFacts.

(* ------------------------------------------------------------------ *)
(** ** The list page *)

Module ListPageFacts.
Import Notions Errors Domain Store Fetch ListPage FetchFacts FilterFacts.

(** X10. The Clear button against the query. Given the same filters, a
    query that carries a constraint means that the bar shows Clear. On the
    page the bar is given the search box and the query the debounced
    search: a status or priority constraint always comes with the button,
    and so does any constraint once the debounce has caught up with the
    box; while it has not, the query can still carry the constraint of the
    old search although the box is empty and no button is shown. Clicking
    Clear hides the button and, once the debounce has caught up, leaves no
    constraint; a search of white space only shows the button although it
    constrains nothing. *)
Theorem clear_button_covers_constraints :
  (forall f p s,
      q_constraints (buildQuery (Some f) p s) <> [] ->
      hasActiveFilters f = true) /\
  (forall st debounced,
      statusConstraint (Some (queryFilters st debounced))
      ++ priorityConstraint (Some (queryFilters st debounced)) <> [] ->
      hasActiveFilters (displayFilters st debounced) = true) /\
  (forall st p s,
      q_constraints (buildQuery (Some (queryFilters st (searchInput st))) p s)
      <> [] ->
      hasActiveFilters (displayFilters st (searchInput st)) = true) /\
  (forall p s,
      q_constraints
        (buildQuery (Some (queryFilters emptied_box (JsString.of_ascii "steel")))
                    p s)
      = [ilike "material_name" (JsString.of_ascii "%steel%")] /\
      hasActiveFilters (displayFilters emptied_box (JsString.of_ascii "steel"))
      = false) /\
  (forall st debounced,
      let st' := page_handleFiltersChange st
                   (bar (displayFilters st debounced) ClickClear) in
      (forall later, hasActiveFilters (displayFilters st' later) = false) /\
      forall p s,
        q_constraints (buildQuery (Some (queryFilters st' (searchInput st'))) p s)
        = []) /\
  (forall st debounced ws,
      ws <> [] -> forallb JsString.isWhiteSpace ws = true ->
      let st' := page_handleFiltersChange st
                   (bar (displayFilters st debounced) (TypeSearch ws)) in
      (forall later, hasActiveFilters (displayFilters st' later) = true) /\
      searchConstraint (Some (queryFilters st' (searchInput st'))) = []).
Proof.
  assert (Hsame : forall f p s,
             q_constraints (buildQuery (Some f) p s) <> [] ->
             hasActiveFilters f = true).
  { intros f p s H. unfold hasActiveFilters.
    unfold buildQuery, statusConstraint, priorityConstraint,
      searchConstraint in H. cbn [q_constraints] in H.
    destruct (f_status f) as [[|st]|]; try reflexivity;
      destruct (f_priority f) as [[|pr]|]; try reflexivity;
      destruct (f_search f) as [[|c search]|]; try reflexivity;
      exfalso; apply H; reflexivity. }
  split; [exact Hsame|]. split; [|split; [|split; [|split]]].
  - intros st debounced H.
    unfold hasActiveFilters, displayFilters, queryFilters, filters_of_params
      in *.
    cbn [f_status f_priority f_search statusConstraint priorityConstraint] in *.
    destruct (sp_status (searchParams st)); [|reflexivity].
    destruct (sp_priority (searchParams st)); [|reflexivity].
    exfalso. apply H. reflexivity.
  - intros st p s H. apply (Hsame _ p s).
    exact H.
  - intros p s. split; reflexivity.
  - intros st debounced. cbv zeta. split; [reflexivity|].
    intros p s. reflexivity.
  - intros st debounced ws Hne Hws. cbv zeta.
    assert (Ht : JsString.truthy ws = true)
      by (destruct ws; [congruence | reflexivity]).
    split.
    + intros later. unfold hasActiveFilters.
      cbn [displayFilters page_handleFiltersChange bar handleSearchChange
           f_search searchInput].
      rewrite Ht. now rewrite !orb_true_r.
    + cbn [queryFilters page_handleFiltersChange bar handleSearchChange
           f_search searchInput filters_of_params].
      exact (searchConstraint_blank _ _ _ Hws).
Qed.

(** X11. From the filters bar to the query: whatever the user does in the
    bar, once the debounce has caught up the page's filters are exactly the
    ones the bar handed over, the page is back at 0 and the page size and
    the sorting are as before, so that the query asks for the first window
    of the new filters. For filters handed over without a search the URL
    search is emptied while the search box keeps its text. *)
Theorem filters_bar_reaches_query :
  (forall st debounced g,
      let newFilters := bar (displayFilters st debounced) g in
      let st' := page_handleFiltersChange st newFilters in
      settled_filters st' = newFilters /\
      pagination_of_params (searchParams st')
      = {| pageIndex := 0; pageSize := sp_pageSize (searchParams st) |} /\
      sorting_of_params (searchParams st')
      = sorting_of_params (searchParams st) /\
      q_from (buildQuery (Some (settled_filters st'))
                (Some (pagination_of_params (searchParams st')))
                (Some (sorting_of_params (searchParams st')))) = 0) /\
  (forall st newFilters p s,
      f_search newFilters <> None ->
      q_constraints
        (buildQuery
           (Some (settled_filters (page_handleFiltersChange st newFilters))) p s)
      = q_constraints (buildQuery (Some newFilters) p s)) /\
  (forall st newFilters,
      f_search newFilters = None ->
      search (searchParams (page_handleFiltersChange st newFilters)) = [] /\
      searchInput (page_handleFiltersChange st newFilters) = searchInput st).
Proof.
  split; [|split].
  - intros st debounced g. cbv zeta.
    split; [|split; [|split]]; destruct g; reflexivity.
  - intros st nf p s Hs.
    destruct nf as [fs fp fsearch]. cbn [f_search] in Hs.
    destruct fsearch as [x|]; [|congruence].
    unfold buildQuery. cbn [q_constraints]. f_equal; [|f_equal].
    + destruct fs as [[|v]|]; reflexivity.
    + destruct fp as [[|v]|]; reflexivity.
  - intros st nf H. unfold page_handleFiltersChange, handleFiltersChange.
    cbn [searchParams searchInput search]. rewrite H. split; reflexivity.
Qed.

(** X12. Sorting by a column header: a click always sorts by the clicked
    column; on the column already sorted it flips the direction, so two
    clicks restore the sorting; on another column it sorts descending; and
    the page handler then goes back to page 0, keeping the filters and the
    page size. *)
Theorem sort_click_toggles (sorting : SortingParams) :
  (forall c, column (handleSortClick sorting c) = c) /\
  direction (handleSortClick sorting (column sorting)) <> direction sorting /\
  handleSortClick (handleSortClick sorting (column sorting)) (column sorting)
  = sorting /\
  (forall c, c <> column sorting ->
             handleSortClick sorting c = {| column := c; direction := desc |}) /\
  (forall f p,
      q_ascending (buildQuery f p
                     (Some (handleSortClick sorting (column sorting))))
      = negb (q_ascending (buildQuery f p (Some sorting)))) /\
  (forall prev c,
      let sp := handleSortingChange prev (handleSortClick sorting c) in
      page sp = 0 /\ sp_pageSize sp = sp_pageSize prev /\
      sortColumn sp = c /\
      forall d, filters_of_params sp d = filters_of_params prev d).
Proof.
  destruct sorting as [col dir].
  unfold handleSortClick. cbn [column direction].
  split; [reflexivity|]. rewrite String.eqb_refl.
  split; [destruct dir; discriminate|].
  split; [destruct dir; reflexivity|].
  split; [|split].
  - intros c Hc. cbn [column] in Hc.
    destruct (String.eqb_spec col c); [congruence | reflexivity].
  - intros f p. unfold buildQuery. cbn [q_ascending direction].
    destruct dir; reflexivity.
  - intros prev c. cbv zeta. repeat split.
Qed.

(** X13. What the pagination bar shows against the window the query asks
    for. For a page index that is not negative, a positive page size and a
    positive count: the first item shown is the first row of the window,
    counted from 1, and the last one the end of the window cut at the
    count; the range is a proper one exactly when the page starts below the
    count; and then it lies within 1..count, holds at most a page of items,
    the page number is at most the number of pages, and the range ends at
    the count exactly on the last page. *)
Theorem shown_range_matches_window (f : option MaterialRequestFilters)
    (s : option SortingParams) (p : PaginationParams) (count : Z)
    (prev next : option bool) :
  0 <= pageIndex p -> 0 < pageSize p -> 0 < count ->
  let q := buildQuery f (Some p) s in
  let v := TablePagination
             {| bar_pageIndex := pageIndex p; bar_pageSize := pageSize p;
                bar_totalCount := count;
                canPreviousPage := prev; canNextPage := next |} in
  startItem v = q_from q + 1 /\
  endItem v = Z.min (q_to q + 1) count /\
  q_to q - q_from q + 1 = pageSize p /\
  (startItem v <= endItem v <-> pageIndex p * pageSize p < count) /\
  (pageIndex p * pageSize p < count ->
   1 <= startItem v /\ endItem v <= count /\
   endItem v - startItem v + 1 <= pageSize p /\
   1 <= shownPage v <= shownPages v /\
   (endItem v = count <-> shownPage v = shownPages v)).
Proof.
  intros Hi Hs Hc. cbv zeta.
  unfold TablePagination, buildQuery.
  cbn [startItem endItem shownPage shownPages q_from q_to
       bar_pageIndex bar_pageSize bar_totalCount].
  pose proof (ceil_div_spec count Hs) as Hceil.
  set (n := ceil_div count (pageSize p)) in *.
  destruct (Z.eqb_spec count 0) as [E|_]; [lia|].
  split; [reflexivity|]. split; [f_equal; lia|]. split; [lia|].
  split; [split; intros H; nia|].
  intros Hin. split; [nia|]. split; [lia|]. split; [nia|].
  split; [nia|]. split; intros H; nia.
Qed.

Lemma shown_range_matches_window_witness :
  let p := {| pageIndex := 9; pageSize := 10 |} in
  let v := TablePagination
             {| bar_pageIndex := 9; bar_pageSize := 10; bar_totalCount := 95;
                canPreviousPage := None; canNextPage := None |} in
  0 <= pageIndex p /\ 0 < pageSize p /\ 0 < 95 /\
  startItem v = 91 /\ endItem v = 95.
Proof.
  intros p v.
  assert (H1 : 0 <= pageIndex p) by (simpl; lia).
  assert (H2 : 0 < pageSize p) by (simpl; lia).
  assert (H3 : 0 < 95) by lia.
  destruct (@shown_range_matches_window None None p 95 None None H1 H2 H3)
    as (Hs & He & _).
  split; [exact H1|]. split; [exact H2|]. split; [exact H3|].
  split; [exact Hs | exact He].
Defined.

End ListPageFacts.

(* ------------------------------------------------------------------ *)
(** ** Paging through the list *)

Module NavigationFacts.
Import Notions Errors Domain Store Fetch ListPage FetchFacts.

(** The metadata of a successful fetch, whichever branch returned it. *)
Lemma fetch_meta filters pagination sorting w page w' :
  fetchMaterialRequests filters pagination sorting w = (inr page, w') ->
  exists next,
    Domain.pagination page =
    {| totalCount :=
         or_else (r_count (list_answer filters pagination sorting w)) 0;
       totalPages :=
         ceil_div
           (or_else (r_count (list_answer filters pagination sorting w)) 0)
           (pageSize_of pagination);
       currentPage := pageIndex_of pagination;
       meta_pageSize := pageSize_of pagination;
       hasNextPage := next;
       hasPreviousPage := 0 <? pageIndex_of pagination |} /\
    (next = true ->
     data page <> [] /\
     (pageIndex_of pagination <?
        ceil_div
          (or_else (r_count (list_answer filters pagination sorting w)) 0)
          (pageSize_of pagination) - 1) = true).
Proof.
  intros H. destruct (fetch_success_cases _ _ _ _ H) as (Hon & Herr & Hd).
  destruct Hd as [Hd | [Hd | (r & rows & Hd)]].
  - rewrite (fetch_empty_page _ _ _ _ Hon Herr (or_introl Hd)) in H.
    inversion H; subst. exists false. split; [reflexivity | discriminate].
  - rewrite (fetch_empty_page _ _ _ _ Hon Herr (or_intror Hd)) in H.
    inversion H; subst. exists false. split; [reflexivity | discriminate].
  - destruct (fetch_rows_meta _ _ _ _ Hon Herr Hd)
      as (page0 & w0 & Hf & Hlen & Hm).
    rewrite Hf in H. inversion H; subst. eexists. split; [exact Hm|].
    intros Hn. split; [|exact Hn].
    intros E. rewrite E in Hlen. discriminate.
Qed.

(** X14. The buttons of the pagination bar never leave the rows the count
    announces; the prefetch does so only while a page is loading. After a
    successful fetch of a page with a non-negative index and a positive
    size: the bar is shown exactly when the count is positive; when its
    Next button is enabled the fetched page has rows, the page Next asks
    for starts below the count and its window starts right after the
    current one; when Previous is enabled the page it asks for has a
    non-negative index and its window ends right before the current one.
    While the fetched page is the data of the current key, the next page
    is prefetched exactly when Next is enabled, with the key and the
    arguments that clicking Next then reads. Once Next is clicked and
    until the new key has data, the fetched page is kept as the data
    shown, and the page prefetched is the one after the page being
    loaded: when the page being loaded is the last one, the prefetch asks
    for a window that starts at or beyond the count. *)
Theorem paging_stays_within_count filters pagination sorting w page w' :
  0 <= pageIndex_of pagination -> 0 < pageSize_of pagination ->
  fetchMaterialRequests filters pagination sorting w = (inr page, w') ->
  let mt := Domain.pagination page in
  (pagination_bar (Some mt) <> None <-> 0 < totalCount mt) /\
  (forall b, pagination_bar (Some mt) = Some b ->
     (nextEnabled (TablePagination b) = true ->
      data page <> [] /\
      pageIndex (onNextPage mt) * pageSize (onNextPage mt) < totalCount mt /\
      q_from (buildQuery filters (Some (onNextPage mt)) sorting)
      = q_to (buildQuery filters pagination sorting) + 1) /\
     (previousEnabled (TablePagination b) = true ->
      0 <= pageIndex (onPreviousPage mt) /\
      q_to (buildQuery filters (Some (onPreviousPage mt)) sorting) + 1
      = q_from (buildQuery filters pagination sorting))) /\
  (forall p, pagination = Some p ->
     (forall previous,
         prefetch_target (query_data (Some page) previous) pagination
         = if hasNextPage mt then Some (onNextPage mt) else None) /\
     (hasNextPage mt = true ->
      exists b, pagination_bar (Some mt) = Some b /\
                nextEnabled (TablePagination b) = true) /\
     (forall prev,
         prefetch_key filters (onNextPage mt) sorting
         = QUERY_KEYS.materialRequestsList filters
             (Some (pagination_of_params
                      (handlePaginationChange prev (onNextPage mt))))
             sorting) /\
     (hasNextPage mt = true ->
      prefetch_target (query_data None (Some page)) (Some (onNextPage mt))
      = Some {| pageIndex := pageIndex p + 2; pageSize := pageSize p |} /\
      (totalPages mt = pageIndex p + 2 ->
       totalCount mt <= (pageIndex p + 2) * pageSize p))).
Proof.
  intros Hi Hs H. cbv zeta.
  destruct (fetch_meta _ _ _ _ H) as (next & Hm & Hnext).
  rewrite Hm.
  set (count := or_else (r_count (list_answer filters pagination sorting w)) 0)
    in *.
  pose proof (ceil_div_spec count Hs) as Hceil.
  set (n := ceil_div count (pageSize_of pagination)) in *.
  unfold pagination_bar, onNextPage, onPreviousPage.
  cbn [totalCount currentPage meta_pageSize hasNextPage hasPreviousPage
       pageIndex pageSize].
  split; [|split].
  - destruct (Z.ltb_spec 0 count) as [Hc|Hc]; split; intros Hb;
      try lia; try congruence; try discriminate.
  - intros b Hb. destruct (Z.ltb_spec 0 count) as [Hc|Hc]; [|discriminate].
    inversion Hb; subst b. clear Hb. unfold TablePagination.
    cbn [nextEnabled previousEnabled canNextPage canPreviousPage].
    split.
    + intros Hn. destruct (Hnext Hn) as [Hd Hlt].
      apply Z.ltb_lt in Hlt. split; [exact Hd|]. split; [nia|].
      unfold buildQuery. cbn [q_from q_to pageIndex pageSize].
      fold (pageIndex_of pagination) (pageSize_of pagination). lia.
    + intros Hp. apply Z.ltb_lt in Hp. split; [lia|].
      unfold buildQuery. cbn [q_from q_to pageIndex pageSize].
      fold (pageIndex_of pagination) (pageSize_of pagination). lia.
  - intros p ->. unfold prefetch_target.
    cbn [Domain.pagination hasNextPage pageIndex_of pageSize_of].
    cbn [query_data]. rewrite !Hm.
    cbn [hasNextPage totalPages totalCount pageIndex pageSize].
    split; [|split; [|split]].
    + intros previous. destruct next; reflexivity.
    + intros Hn. destruct (Hnext Hn) as [_ Hlt]. apply Z.ltb_lt in Hlt.
      destruct (Z.ltb_spec 0 count) as [Hc|Hc]; [|nia].
      eexists. split; [reflexivity|]. exact Hn.
    + intros prev. reflexivity.
    + intros Hn. rewrite Hn. split.
      * f_equal. f_equal. lia.
      * cbn [pageSize_of pageIndex_of] in *. intros Hlast.
        fold n. lia.
Qed.

End NavigationFacts.

Module NavigationWitness.
Import Notions Errors Domain Store Fetch ListPage Scenario.

Definition page8 : option PaginationParams :=
  Some {| pageIndex := 8; pageSize := 10 |}.

(** Of 95 requests the ninth page of ten is shown: the last page is
    prefetched; after a click on Next, while the last page is loading, the
    page after it is asked for, whose window starts at row 100. *)
Lemma paging_stays_within_count_witness :
  exists page w',
    fetchMaterialRequests None page8 None (world true ninety_five [])
    = (inr page, w') /\
    0 <= pageIndex_of page8 /\ 0 < pageSize_of page8 /\
    prefetch_target (query_data (Some page) None) page8
    = Some {| pageIndex := 9; pageSize := 10 |} /\
    prefetch_target (query_data None (Some page))
                    (Some {| pageIndex := 9; pageSize := 10 |})
    = Some {| pageIndex := 10; pageSize := 10 |} /\
    totalCount (Domain.pagination page) <= 10 * 10.
Proof.
  destruct (fetchMaterialRequests None page8 None (world true ninety_five []))
    as [[t|page] w'] eqn:E.
  - vm_compute in E. discriminate.
  - exists page, w'.
    assert (H1 : 0 <= pageIndex_of page8) by (simpl; lia).
    assert (H2 : 0 < pageSize_of page8) by (simpl; lia).
    split; [reflexivity|]. split; [exact H1|]. split; [exact H2|].
    destruct (@NavigationFacts.paging_stays_within_count
                None page8 None (world true ninety_five []) page w' H1 H2 E)
      as (_ & _ & Hp).
    destruct (Hp _ eq_refl) as (Hpre & _ & _ & Hloading).
    assert (Hmeta : Domain.pagination page
                    = {| totalCount := 95; totalPages := 10; currentPage := 8;
                         meta_pageSize := 10; hasNextPage := true;
                         hasPreviousPage := true |})
      by (vm_compute in E; inversion E; reflexivity).
    rewrite Hpre. rewrite Hmeta in Hloading |- *.
    destruct (Hloading eq_refl) as [Hnext Hbeyond].
    split; [reflexivity|]. split; [exact Hnext | exact (Hbeyond eq_refl)].
Defined.

End NavigationWitness.

(* ------------------------------------------------------------------ *)
(** ** The rows of a list page and their requesters *)

Module RowsFacts.
Import Notions Errors Domain Store Fetch ListPage.

Lemma uniq_In x l : In x (uniq l) <-> In x l.
Proof.
  induction l as [|a l IH]; [reflexivity|]. cbn [uniq]. split.
  - intros [<-|H]; [now left|]. apply filter_In in H. right. now apply IH.
  - intros [<-|H]; [now left|].
    destruct (String.eqb_spec x a) as [->|Hne]; [now left|].
    right. apply filter_In. split; [now apply IH|].
    apply negb_true_iff. now apply String.eqb_neq.
Qed.

Lemma uniq_NoDup l : NoDup (uniq l).
Proof.
  induction l as [|a l IH]; [constructor|]. cbn [uniq]. constructor.
  - intros H. apply filter_In in H. destruct H as [_ H].
    rewrite String.eqb_refl in H. discriminate.
  - now apply NoDup_filter.
Qed.

Lemma profileMap_get_some profiles i p :
  profileMap_get profiles i = Some p -> profile_id p = i /\ In p profiles.
Proof.
  unfold profileMap_get. intros H. apply find_some in H.
  destruct H as [Hin Heq]. apply String.eqb_eq in Heq.
  split; [exact Heq | now apply in_rev].
Qed.

(** The store's answer to the profile lookup of a fetch started in [w]. *)
Definition profiles_answer (w : World) (ids : list string)
  : Resp (list Profile) :=
  select_profiles_in (remote w) (S (length (remote_calls w))) ids.

Definition warned (presp : Resp (list Profile)) : list Event :=
  match r_error presp with
  | Some e => [EvWarn (String.append "Failed to fetch profiles: " (pg_message e))]
  | None => []
  end.

Lemma remote_calls_with_event w c :
  length (remote_calls (with_event w (EvRemote c)))
  = S (length (remote_calls w)).
Proof.
  unfold remote_calls, with_event. cbn [trace].
  rewrite filter_app, length_app. cbn. lia.
Qed.

(** The fetch of a page with rows, in closed form. *)
Lemma fetch_rows_run filters pagination sorting w r rows :
  onLine w = true ->
  r_error (list_answer filters pagination sorting w) = None ->
  r_data (list_answer filters pagination sorting w) = Some (r :: rows) ->
  let ids := uniq (map requested_by (r :: rows)) in
  let presp := profiles_answer w ids in
  exists page w',
    fetchMaterialRequests filters pagination sorting w = (inr page, w') /\
    data page
    = map (fun request =>
             with_requester request
               (profileMap_get (or_else (r_data presp) [])
                               (requested_by request)))
          (r :: rows) /\
    trace w'
    = trace w
      ++ map (stamp (cache w))
           (EvRemote (SelectList (buildQuery filters pagination sorting))
            :: EvRemote (SelectProfilesIn ids) :: warned presp) /\
    cache w' = cache w.
Proof.
  intros Hon Herr Hdata. cbv zeta.
  unfold fetchMaterialRequests, bind, navigator_onLine, call, ret, emit.
  rewrite Hon. cbn [negb fst snd].
  fold (list_answer filters pagination sorting w).
  rewrite Herr, Hdata. cbn [remote with_event].
  rewrite remote_calls_with_event.
  fold (profiles_answer w (uniq (map requested_by (r :: rows)))).
  unfold warned.
  destruct (r_error (profiles_answer w (uniq (map requested_by (r :: rows)))));
    eexists _, _; (split; [reflexivity|]);
    cbn [data trace with_event cache]; rewrite <- ?app_assoc;
    repeat split; reflexivity.
Qed.

(** X15. The rows of a fetched page are the rows the store returned, in
    the store's order, changed only in their requester; a requester that is
    attached is a profile the lookup returned whose id is the row's
    [requested_by]; and when the lookup returned no profiles every row is
    shown with the requester Unknown. *)
Theorem rows_keep_order_and_requesters filters pagination sorting w r rows :
  onLine w = true ->
  r_error (list_answer filters pagination sorting w) = None ->
  r_data (list_answer filters pagination sorting w) = Some (r :: rows) ->
  exists page w',
    fetchMaterialRequests filters pagination sorting w = (inr page, w') /\
    map (fun x => with_requester x None) (data page)
    = map (fun x => with_requester x None) (r :: rows) /\
    (forall x p,
        In x (data page) -> requester x = Some p ->
        profile_id p = requested_by x /\
        exists ps,
          r_data (profiles_answer w (uniq (map requested_by (r :: rows))))
          = Some ps /\ In p ps) /\
    (r_data (profiles_answer w (uniq (map requested_by (r :: rows)))) = None ->
     forall x, In x (data page) ->
               requester x = None /\ getRequesterName x = "Unknown").
Proof.
  intros Hon Herr Hdata.
  destruct (fetch_rows_run _ _ _ _ Hon Herr Hdata)
    as (page & w' & Hf & Hd & _).
  exists page, w'. split; [exact Hf|]. rewrite Hd. clear Hd Hf.
  set (presp := profiles_answer w (uniq (map requested_by (r :: rows)))).
  split; [|split].
  - rewrite map_map. apply map_ext. intros x. reflexivity.
  - intros x p Hin Hreq. apply in_map_iff in Hin.
    destruct Hin as (x0 & <- & _). cbn [requester with_requester] in Hreq.
    cbn [requested_by with_requester].
    apply profileMap_get_some in Hreq. destruct Hreq as [Hid Hin].
    split; [exact Hid|].
    destruct (r_data presp) as [ps|]; [|destruct Hin].
    exists ps. split; [reflexivity | exact Hin].
  - intros Hnone x Hin. rewrite Hnone in Hin. apply in_map_iff in Hin.
    destruct Hin as (x0 & <- & _). split; reflexivity.
Qed.

(** X16. A fetch of a page with rows makes exactly two remote calls and
    never writes to the cache: the list query, then one profile lookup for
    the requesters of the rows, each id once; a failed lookup does not fail
    the fetch, it is reported on the console only. *)
Theorem one_profile_lookup_per_page filters pagination sorting w r rows :
  onLine w = true ->
  r_error (list_answer filters pagination sorting w) = None ->
  r_data (list_answer filters pagination sorting w) = Some (r :: rows) ->
  exists page w' ids,
    fetchMaterialRequests filters pagination sorting w = (inr page, w') /\
    map ev (new_events w w')
    = EvRemote (SelectList (buildQuery filters pagination sorting))
      :: EvRemote (SelectProfilesIn ids) :: warned (profiles_answer w ids) /\
    NoDup ids /\
    (forall i, In i ids <-> exists x, In x (r :: rows) /\ requested_by x = i) /\
    length (remote_calls w') = (2 + length (remote_calls w))%nat /\
    cache w' = cache w.
Proof.
  intros Hon Herr Hdata.
  destruct (fetch_rows_run _ _ _ _ Hon Herr Hdata)
    as (page & w' & Hf & _ & Ht & Hc).
  exists page, w', (uniq (map requested_by (r :: rows))).
  split; [exact Hf|]. split; [|split; [apply uniq_NoDup|]].
  - unfold new_events. rewrite Ht, skipn_app, skipn_all, Nat.sub_diag.
    cbn [skipn app]. rewrite map_map. cbn [stamp ev]. apply map_id.
  - split; [|split; [|exact Hc]].
    + intros i. rewrite uniq_In, in_map_iff. split.
      * intros (x & Hx & Hin). eauto.
      * intros (x & Hin & Hx). eauto.
    + unfold remote_calls. rewrite Ht, filter_app, length_app.
      unfold warned.
      destruct (r_error (profiles_answer w _)); cbn; lia.
Qed.

(** A page of one row whose profile lookup is refused. *)
Definition rows_only : Remote :=
  {| select_list := fun _ _ =>
       {| r_data := Some [Scenario.X]; r_error := None; r_count := Some 1 |};
     select_profiles_in := fun _ _ => Scenario.failing;
     select_single := fun _ _ => Scenario.failing;
     select_profile := fun _ _ => Scenario.failing;
     insert_row := fun _ _ => Scenario.failing;
     update_row := fun _ _ _ => Scenario.failing;
     delete_row := fun _ _ => Scenario.failing |}.

Lemma rows_keep_order_and_requesters_witness :
  let w := Scenario.world true rows_only [] in
  onLine w = true /\
  r_error (list_answer None None None w) = None /\
  r_data (list_answer None None None w) = Some [Scenario.X] /\
  exists page w',
    fetchMaterialRequests None None None w = (inr page, w') /\
    map (fun x => with_requester x None) (data page)
    = map (fun x => with_requester x None) [Scenario.X].
Proof.
  intros w.
  split; [reflexivity|]. split; [reflexivity|]. split; [reflexivity|].
  destruct (@rows_keep_order_and_requesters None None None w Scenario.X []
              eq_refl eq_refl eq_refl) as (page & w' & Hf & Hrows & _).
  exists page, w'. split; [exact Hf | exact Hrows].
Defined.

Lemma one_profile_lookup_per_page_witness :
  let w := Scenario.world true rows_only [] in
  onLine w = true /\
  r_error (list_answer None None None w) = None /\
  r_data (list_answer None None None w) = Some [Scenario.X] /\
  exists page w',
    fetchMaterialRequests None None None w = (inr page, w') /\
    length (remote_calls w') = 2%nat.
Proof.
  intros w.
  split; [reflexivity|]. split; [reflexivity|]. split; [reflexivity|].
  destruct (@one_profile_lookup_per_page None None None w Scenario.X []
              eq_refl eq_refl eq_refl)
    as (page & w' & ids & Hf & _ & _ & _ & Hlen & _).
  exists page, w'. split; [exact Hf | exact Hlen].
Defined.

End RowsFacts.

(* ------------------------------------------------------------------ *)
(** ** Backoff, refusals by the store, and the client's default policy *)

Module BackoffFacts.
Import Notions Errors Domain Store Fetch Scenario RetryFacts ErrorBuildFacts.

(** The time slept in a run of the retryer. *)
Definition slept (t : list Event) : Z :=
  fold_right (fun e acc => match e with EvSleep ms => ms + acc | _ => acc end)
             0 t.

Lemma retryDelay_bounds n : 1000 <= retryDelay n <= 30000.
Proof.
  unfold retryDelay.
  assert (0 < 2 ^ Z.of_nat n) by (apply Z.pow_pos_nonneg; lia). lia.
Qed.

Lemma retryDelay_mono n k : (n <= k)%nat -> retryDelay n <= retryDelay k.
Proof.
  intros H. unfold retryDelay.
  assert (2 ^ Z.of_nat n <= 2 ^ Z.of_nat k)
    by (apply Z.pow_le_mono_r; lia).
  lia.
Qed.

(** X17. The backoff of the readers: every delay lies between one and
    thirty seconds, delays never decrease, they double up to the fifth
    retry and are thirty seconds from the sixth on; so a list read that
    keeps failing has slept at most 7 seconds when it gives up, and a
    single-entity read at most 3 seconds. *)
Theorem backoff_is_bounded :
  (forall n, 1000 <= retryDelay n <= 30000) /\
  (forall n k, (n <= k)%nat -> retryDelay n <= retryDelay k) /\
  (forall n, (n < 4)%nat -> retryDelay (S n) = 2 * retryDelay n) /\
  (forall n, (5 <= n)%nat -> retryDelay n = 30000) /\
  (forall f p s fuel w,
      (3 <= fuel)%nat ->
      exists res w' t,
        useMaterialRequests_fetch f p s fuel w = Some (res, w') /\
        trace w' = trace w ++ t /\
        slept (retry_part t) <= 7000) /\
  (forall id fuel w,
      (2 <= fuel)%nat ->
      exists res w' t,
        useMaterialRequest_fetch id fuel w = Some (res, w') /\
        trace w' = trace w ++ t /\
        slept (retry_part t) <= 3000).
Proof.
  split; [exact retryDelay_bounds|]. split; [exact retryDelay_mono|].
  split; [|split; [|split]].
  - intros n Hn. destruct n as [|[|[|[|n]]]]; try lia; reflexivity.
  - intros n Hn. unfold retryDelay.
    assert (2 ^ 5 <= 2 ^ Z.of_nat n) by (apply Z.pow_le_mono_r; lia).
    change (2 ^ 5) with 32 in *. lia.
  - intros f p s fuel w Hfuel.
    destruct (@retryer_schedule _
                [AUTH_SESSION_EXPIRED; DB_PERMISSION_DENIED; AUTH_UNAUTHORIZED]
                3%nat retryDelay _ (quiet_fetchMaterialRequests f p s)
                fuel 0%nat w)
      as (res & w' & t & n & Hrun & Htr & Hsched & Hn & _); [lia|lia|].
    unfold useMaterialRequests_fetch. rewrite retry_list_policy, Hrun.
    destruct res as [error|page]; eexists _, _, t;
      (split; [reflexivity|]); (split; [exact Htr|]); rewrite Hsched;
      destruct n as [|[|[|[|[|n]]]]]; try lia; vm_compute; discriminate.
  - intros id fuel w Hfuel.
    destruct (@retryer_schedule _
                [DB_NOT_FOUND; DB_PERMISSION_DENIED; AUTH_SESSION_EXPIRED]
                2%nat retryDelay _ (quiet_fetchMaterialRequest id)
                fuel 0%nat w)
      as (res & w' & t & n & Hrun & Htr & Hsched & Hn & _); [lia|lia|].
    unfold useMaterialRequest_fetch. rewrite retry_single_policy, Hrun.
    destruct res as [error|row]; eexists _, _, t;
      (split; [reflexivity|]); (split; [exact Htr|]); rewrite Hsched;
      destruct n as [|[|[|[|n]]]]; try lia; vm_compute; discriminate.
Qed.

Lemma remote_calls_queryfn w :
  remote_calls (with_event w EvQueryFn) = remote_calls w.
Proof.
  unfold remote_calls, with_event. cbn [trace].
  rewrite filter_app. cbn. now rewrite app_nil_r.
Qed.

Lemma fetch_list_refused f p s w e :
  onLine w = true ->
  r_error (list_answer f p s w) = Some e ->
  fetchMaterialRequests f p s w
  = (inl (ThrownApp (parsePostgrestError e op_fetch)),
     with_event w (EvRemote (SelectList (buildQuery f p s)))).
Proof.
  intros Hon Herr.
  unfold fetchMaterialRequests, bind, navigator_onLine, call, throw.
  rewrite Hon. simpl. fold (list_answer f p s w). now rewrite Herr.
Qed.

(** The store's answer to the single-row query of a fetch started in [w]. *)
Definition single_answer (id : string) (w : World) : Resp MaterialRequest :=
  select_single (remote w) (length (remote_calls w)) id.

Lemma fetch_single_refused id w e :
  onLine w = true ->
  r_error (single_answer id w) = Some e ->
  fetchMaterialRequest id w
  = (inl (ThrownApp (parsePostgrestError e op_fetch)),
     with_event w (EvRemote (SelectSingle id))).
Proof.
  intros Hon Herr.
  unfold fetchMaterialRequest, bind, navigator_onLine, call, throw.
  rewrite Hon. simpl. fold (single_answer id w). now rewrite Herr.
Qed.

Lemma refusal_kind e op :
  mentions_rls e = true \/ pg_code e = "42501" \/ pg_code e = "PGRST301" ->
  code (parsePostgrestError e op) = DB_PERMISSION_DENIED
  \/ code (parsePostgrestError e op) = AUTH_SESSION_EXPIRED.
Proof.
  intros H. rewrite parse_code_cases.
  destruct (mentions_rls e); [now left|].
  destruct H as [H|[H|H]]; [discriminate | |]; rewrite H; cbn; auto.
Qed.

(** X18. A refusal by the store stops a read at once. When the store
    answers the query of a list read or of a single-entity read with a
    permission error (code 42501, or a message about row-level security)
    or an expired token (PGRST301), the query function runs once, one
    remote call is made, nothing is slept, the cache is left as it was and
    the parsed error is what the read fails with. *)
Theorem store_refusal_is_not_retried (e : PostgrestError) :
  mentions_rls e = true \/ pg_code e = "42501" \/ pg_code e = "PGRST301" ->
  (forall f p s fuel w,
      onLine w = true ->
      r_error (list_answer f p s w) = Some e ->
      exists w',
        useMaterialRequests_fetch f p s fuel w
        = Some (inl (ThrownApp (parsePostgrestError e op_fetch)), w') /\
        map ev (new_events w w')
        = [EvQueryFn; EvRemote (SelectList (buildQuery f p s))] /\
        cache w' = cache w) /\
  (forall id fuel w,
      onLine w = true ->
      r_error (single_answer id w) = Some e ->
      exists w',
        useMaterialRequest_fetch id fuel w
        = Some (inl (ThrownApp (parsePostgrestError e op_fetch)), w') /\
        map ev (new_events w w')
        = [EvQueryFn; EvRemote (SelectSingle id)] /\
        cache w' = cache w).
Proof.
  intros H.
  assert (Hl : is_code (ThrownApp (parsePostgrestError e op_fetch))
                 [AUTH_SESSION_EXPIRED; DB_PERMISSION_DENIED; AUTH_UNAUTHORIZED]
               = true).
  { unfold is_code. destruct (@refusal_kind e op_fetch H) as [-> | ->];
      reflexivity. }
  assert (Hs : is_code (ThrownApp (parsePostgrestError e op_fetch))
                 [DB_NOT_FOUND; DB_PERMISSION_DENIED; AUTH_SESSION_EXPIRED]
               = true).
  { unfold is_code. destruct (@refusal_kind e op_fetch H) as [-> | ->];
      reflexivity. }
  split.
  - intros f p s fuel w Hon Herr.
    assert (Hfn : fetchMaterialRequests f p s (with_event w EvQueryFn)
                  = (inl (ThrownApp (parsePostgrestError e op_fetch)),
                     with_event (with_event w EvQueryFn)
                       (EvRemote (SelectList (buildQuery f p s))))).
    { apply fetch_list_refused; [exact Hon|].
      unfold list_answer. rewrite remote_calls_queryfn. exact Herr. }
    eexists. split; [|split].
    + unfold useMaterialRequests_fetch. rewrite retry_list_policy.
      now rewrite (@retryer_suppressed _ _ _ _ _ _ _ _ _ Hfn Hl).
    + unfold new_events. cbn [trace with_event].
      rewrite <- app_assoc, skipn_app, skipn_all, Nat.sub_diag. reflexivity.
    + reflexivity.
  - intros id fuel w Hon Herr.
    assert (Hfn : fetchMaterialRequest id (with_event w EvQueryFn)
                  = (inl (ThrownApp (parsePostgrestError e op_fetch)),
                     with_event (with_event w EvQueryFn)
                       (EvRemote (SelectSingle id)))).
    { apply fetch_single_refused; [exact Hon|].
      unfold single_answer. rewrite remote_calls_queryfn. exact Herr. }
    eexists. split; [|split].
    + unfold useMaterialRequest_fetch. rewrite retry_single_policy.
      now rewrite (@retryer_suppressed _ _ _ _ _ _ _ _ _ Hfn Hs).
    + unfold new_events. cbn [trace with_event].
      rewrite <- app_assoc, skipn_app, skipn_all, Nat.sub_diag. reflexivity.
    + reflexivity.
Qed.

(** The store refusing the first page with 42501. *)
Lemma store_refusal_is_not_retried_witness :
  let w := world true refusing [] in
  (mentions_rls denied = true \/ pg_code denied = "42501"
   \/ pg_code denied = "PGRST301") /\
  exists w',
    useMaterialRequests_fetch None None None 5 w
    = Some (inl (ThrownApp (parsePostgrestError denied op_fetch)), w') /\
    cache w' = cache w.
Proof.
  intros w.
  assert (H : mentions_rls denied = true \/ pg_code denied = "42501"
              \/ pg_code denied = "PGRST301") by (right; left; reflexivity).
  split; [exact H|].
  destruct (@store_refusal_is_not_retried denied H) as [Hlist _].
  destruct (Hlist None None None 5%nat w eq_refl eq_refl)
    as (w' & Hrun & _ & Hc).
  exists w'. split; [exact Hrun | exact Hc].
Defined.

Lemma retry_default_policy : retry_default = policy no_retry_kinds 2.
Proof. reflexivity. Qed.

(** X19. The client's default retry policy. Whenever the default would
    retry, so would either reader's own policy; a query run under the
    default ends after at most three runs of its query function, laid out
    with the backoff delays between them; and a failure of one of the four
    kinds it names (session expired, permission denied, unauthorized, not
    found) ends the query after the first run. *)
Theorem default_retry_policy :
  (forall failureCount error,
      retry_default failureCount error = true ->
      retry_list failureCount error = true /\
      retry_single failureCount error = true) /\
  (forall A (fn : M A) fuel w,
      quiet fn -> (2 <= fuel)%nat ->
      exists res w' t n,
        retryer retry_default retryDelay fn fuel 0 w = Some (res, w') /\
        trace w' = trace w ++ t /\
        retry_part t = schedule retryDelay 0 n /\
        (1 <= n <= 3)%nat) /\
  (forall A (fn : M A) fuel w error w1,
      fn (with_event w EvQueryFn) = (inl error, w1) ->
      is_code error no_retry_kinds = true ->
      retryer retry_default retryDelay fn fuel 0 w = Some (inl error, w1)).
Proof.
  split; [|split].
  - intros fc error. unfold retry_default, retry_list, retry_single, is_code.
    destruct error as [a|nm msg].
    + assert (Hsub : existsb (code_eqb (code a)) no_retry_kinds = false ->
                     existsb (code_eqb (code a))
                       [AUTH_SESSION_EXPIRED; DB_PERMISSION_DENIED;
                        AUTH_UNAUTHORIZED] = false /\
                     existsb (code_eqb (code a))
                       [DB_NOT_FOUND; DB_PERMISSION_DENIED;
                        AUTH_SESSION_EXPIRED] = false).
      { destruct (code a); vm_compute; intros H;
          first [discriminate H | split; reflexivity]. }
      fold no_retry_kinds.
      destruct (existsb (code_eqb (code a)) no_retry_kinds);
        [discriminate|].
      destruct (Hsub eq_refl) as [-> ->].
      intros H; apply Nat.ltb_lt in H; split; apply Nat.ltb_lt; lia.
    + intros H; apply Nat.ltb_lt in H; split; apply Nat.ltb_lt; lia.
  - intros A fn fuel w Hq Hfuel. rewrite retry_default_policy.
    destruct (@retryer_schedule _ no_retry_kinds 2%nat retryDelay fn Hq
                fuel 0%nat w)
      as (res & w' & t & n & Hrun & Htr & Hsched & Hn & _); [lia|lia|].
    exists res, w', t, n. repeat split; try assumption; lia.
  - intros A fn fuel w error w1 Hfn Hc. rewrite retry_default_policy.
    now apply retryer_suppressed.
Qed.

End BackoffFacts.

(* ------------------------------------------------------------------ *)
(** ** Creating a request *)

Module CreateFacts.
Import Notions Errors Domain Store StoreFacts Mutations RollbackFacts.

(** The store's answer to the insert of a creation started in [w]. *)
Definition insert_answer (row : MaterialRequestInsert) (w : World)
  : Resp MaterialRequest :=
  insert_row (remote w) (length (remote_calls w)) row.

Lemma createMaterialRequest_run row w :
  createMaterialRequest row w =
  if negb (onLine w)
  then (inl (ThrownApp (offlineError (Some
          "You appear to be offline. Please check your connection and try again."))),
        w)
  else
    match r_error (insert_answer row w) with
    | Some e => (inl (ThrownApp (parsePostgrestError e op_insert)),
                 with_event w (EvRemote (InsertRow row)))
    | None => (inr (r_data (insert_answer row w)),
               with_event w (EvRemote (InsertRow row)))
    end.
Proof.
  unfold createMaterialRequest, bind, navigator_onLine, call, throw, ret,
    insert_answer.
  destruct (onLine w); simpl; [|reflexivity].
  destruct (r_error _); reflexivity.
Qed.

Lemma create_mutate_run o row w :
  useCreateMaterialRequest.mutate o row w =
  match createMaterialRequest row w with
  | (inl error, w1) =>
      (inl error,
       snd (surface o error DB_INSERT_FAILED op_creating "material request" w1))
  | (inr r, w1) =>
      (inr r,
       snd (options_onSuccess o (with_cache w1 (invalidate ns (cache w1)))))
  end.
Proof.
  unfold useCreateMaterialRequest.mutate, execute. simpl.
  unfold bind, ret, throw.
  destruct (createMaterialRequest row w) as [[error|r] w1].
  - unfold useCreateMaterialRequest.onError. rewrite surface_run. reflexivity.
  - unfold useCreateMaterialRequest.onSuccess, bind, invalidateQueries,
      options_onSuccess, emit, ret.
    destruct (with_onSuccess o); reflexivity.
Qed.

(** A mutation issued while the manager reports online runs as [execute]
    says. *)
Lemma execute_networked_online {V R C} (o : MutationOptions V R C) v w :
  execute_networked true o v w
  = (Settled (fst (execute o v w)), snd (execute o v w)).
Proof.
  unfold execute_networked, execute, continue_.
  destruct (onMutate o v w) as [[error|ctx] w1].
  - destruct ((onError o error v None ;; onSettled o v ;; throw error) w1);
      reflexivity.
  - destruct ((result <- mutationFn o v ;;
               onSuccess o result ;; onSettled o v ;; ret result) w1)
      as [[error|result] w2]; [|reflexivity].
    destruct ((onError o error v (Some ctx) ;; onSettled o v ;; throw error) w2);
      reflexivity.
Qed.

(** X20. Creating a request is not optimistic. Issued while the library
    knows the browser to be offline, the creation is paused with the world
    exactly as it was: no remote call, no event, the cache unchanged.
    Issued otherwise it runs as follows. If the browser is offline all the
    same, the hook fails with a NETWORK_OFFLINE error without any remote
    call; when the store refuses the insert it fails with the parsed error
    after that one call; in both cases the cache is left exactly as it
    was, nothing being invalidated, and the error is surfaced as the
    options say. When the insert succeeds the hook returns the stored row,
    the cache is the old one with the namespace invalidated, no error is
    surfaced, and the caller's success callback runs after the
    invalidation. In every case the cache is untouched when the remote
    call is issued. *)
Theorem create_is_not_optimistic (o : HookOptions) (row : MaterialRequestInsert)
    (w : World) :
  execute_networked false (useCreateMaterialRequest.options o) row w
  = (IsPaused, w) /\
  execute_networked true (useCreateMaterialRequest.options o) row w
  = (Settled (fst (useCreateMaterialRequest.mutate o row w)),
     snd (useCreateMaterialRequest.mutate o row w)) /\
  (onLine w = false ->
   exists e,
     fst (useCreateMaterialRequest.mutate o row w) = inl (ThrownApp e) /\
     code e = NETWORK_OFFLINE /\
     cache (snd (useCreateMaterialRequest.mutate o row w)) = cache w /\
     new_events w (snd (useCreateMaterialRequest.mutate o row w))
     = map (stamp (cache w))
           (surface_events o e op_creating "material request")) /\
  (onLine w = true ->
   forall err, r_error (insert_answer row w) = Some err ->
     fst (useCreateMaterialRequest.mutate o row w)
     = inl (ThrownApp (parsePostgrestError err op_insert)) /\
     cache (snd (useCreateMaterialRequest.mutate o row w)) = cache w /\
     new_events w (snd (useCreateMaterialRequest.mutate o row w))
     = map (stamp (cache w))
           (EvRemote (InsertRow row)
            :: surface_events o (parsePostgrestError err op_insert)
                 op_creating "material request")) /\
  (onLine w = true ->
   r_error (insert_answer row w) = None ->
   fst (useCreateMaterialRequest.mutate o row w)
   = inr (r_data (insert_answer row w)) /\
   cache (snd (useCreateMaterialRequest.mutate o row w))
   = invalidate ns (cache w) /\
   new_events w (snd (useCreateMaterialRequest.mutate o row w))
   = stamp (cache w) (EvRemote (InsertRow row))
     :: (if with_onSuccess o
         then [stamp (invalidate ns (cache w)) EvOnSuccess] else [])).
Proof.
  split; [reflexivity|].
  split; [apply execute_networked_online|].
  rewrite create_mutate_run, createMaterialRequest_run.
  split; [|split].
  - intros Hoff. rewrite Hoff. cbn [negb]. rewrite surface_run.
    cbn [fst snd toAppError].
    eexists. split; [reflexivity|]. split; [reflexivity|].
    split; [reflexivity|].
    unfold new_events, with_trace. cbn [trace]. apply new_events_app.
  - intros Hon err Herr. rewrite Hon, Herr. cbn [negb]. rewrite surface_run.
    cbn [fst snd toAppError].
    split; [reflexivity|]. split; [reflexivity|].
    unfold new_events, with_trace, with_event. cbn [trace cache].
    rewrite <- app_assoc. rewrite new_events_app. reflexivity.
  - intros Hon Herr. rewrite Hon, Herr. cbn [negb].
    unfold options_onSuccess, ret, emit.
    destruct (with_onSuccess o); cbn [fst snd];
      (split; [reflexivity|]); (split; [reflexivity|]);
      unfold new_events, with_cache, with_event; cbn [trace cache];
      rewrite <- ?app_assoc; rewrite new_events_app; reflexivity.
Qed.

End CreateFacts.

(* ------------------------------------------------------------------ *)
(** ** A status change while offline *)

Module OfflineHookFacts.
Import Notions Errors Domain Store StoreFacts BatchFacts Mutations
       LifecycleFacts RollbackFacts.






End OfflineHookFacts.

(* ------------------------------------------------------------------ *)
(** ** What lies outside the namespace *)

Module FrameFacts.
Import Notions Errors Domain Store StoreFacts BatchFacts Fetch Mutations
       LifecycleFacts RollbackFacts.

(** The queries whose key is not under the base key are the same, data and
    invalidation mark, in both caches. *)
Definition same_outside (c c' : QueryCache) : Prop :=
  forall k, partialMatchKey k ns = false -> find_query k c' = find_query k c.

(** A computation that leaves those queries alone. *)
Definition framed {A} (m : M A) : Prop :=
  forall w, same_outside (cache w) (cache (snd (m w))).

Lemma same_outside_trans c1 c2 c3 :
  same_outside c1 c2 -> same_outside c2 c3 -> same_outside c1 c3.
Proof. intros H12 H23 k Hk. now rewrite (H23 k Hk), (H12 k Hk). Qed.

Lemma find_set_data_other k d c k' :
  k' <> k -> find_query k' (set_data k d c) = find_query k' c.
Proof.
  intros Hne. unfold find_query.
  induction c as [|e c IH]; cbn [set_data find].
  - cbn [q_key]. rewrite key_eqb_neq by congruence. reflexivity.
  - destruct (key_eqb (q_key e) k) eqn:E; cbn [find q_key].
    + apply key_eqb_eq in E. rewrite E.
      rewrite key_eqb_neq by congruence. reflexivity.
    + destruct (key_eqb (q_key e) k'); [reflexivity | exact IH].
Qed.

Lemma find_invalidate_other f c k :
  partialMatchKey k f = false ->
  find_query k (invalidate f c) = find_query k c.
Proof.
  intros Hk. unfold find_query, invalidate.
  induction c as [|e c IH]; cbn [map find]; [reflexivity|].
  destruct (partialMatchKey (q_key e) f) eqn:E; cbn [q_key];
    destruct (key_eqb (q_key e) k) eqn:Ek; try exact IH; try reflexivity.
  apply key_eqb_eq in Ek. congruence.
Qed.

Lemma under_ns f k :
  f = ns \/ (exists id, f = detail id) ->
  partialMatchKey k ns = false -> partialMatchKey k f = false.
Proof.
  intros [-> | [id ->]] H; [exact H|].
  destruct k as [|pa k]; [reflexivity|].
  unfold ns, detail, QUERY_KEYS.materialRequests, QUERY_KEYS.materialRequest
    in *.
  cbn [partialMatchKey] in *.
  destruct (part_eqb pa (KStr "material-requests"));
    [destruct k; discriminate H | reflexivity].
Qed.

Lemma framed_const {A} (m : M A) :
  (forall w, cache (snd (m w)) = cache w) -> framed m.
Proof. intros H w k _. now rewrite H. Qed.

Lemma framed_bind_post {A B} (P : A -> Prop) (m : M A) (k : A -> M B) :
  framed m ->
  (forall w a w1, m w = (inr a, w1) -> P a) ->
  (forall a, P a -> framed (k a)) ->
  framed (bind m k).
Proof.
  intros Hm Hp Hk w. unfold bind. pose proof (Hm w) as H1.
  destruct (m w) as [[t|a] w1] eqn:E; [exact H1|].
  apply (same_outside_trans H1). apply (Hk a (Hp _ _ _ E)).
Qed.

Lemma framed_bind {A B} (m : M A) (k : A -> M B) :
  framed m -> (forall a, framed (k a)) -> framed (bind m k).
Proof.
  intros Hm Hk. apply (framed_bind_post (fun _ => True)); auto.
Qed.

Lemma framed_ret {A} (a : A) : framed (ret a).
Proof. now apply framed_const. Qed.

Lemma framed_throw {A} t : framed (@throw A t).
Proof. now apply framed_const. Qed.

Lemma framed_setQueryData k u :
  partialMatchKey k ns = true -> framed (setQueryData k u).
Proof.
  intros Hk w k' Hk'. unfold setQueryData.
  destruct (u (getQueryData_in (cache w) k)) as [t|[d|]]; try reflexivity.
  cbn [snd cache with_cache]. apply find_set_data_other. congruence.
Qed.

Lemma framed_forEach {X} (l : list X) (f : X -> M Datatypes.unit) :
  (forall a, In a l -> framed (f a)) -> framed (forEach l f).
Proof.
  induction l as [|a l IH]; intros H; cbn [forEach]; [apply framed_ret|].
  apply framed_bind; [apply H; now left|].
  intros _. apply IH. intros b Hb. apply H. now right.
Qed.

Lemma framed_setQueriesData u : framed (setQueriesData ns u).
Proof.
  intros w. unfold setQueriesData. apply framed_forEach.
  intros e He. apply framed_bind; [|intros; apply framed_ret].
  apply framed_setQueryData. unfold findAll in He.
  now apply filter_In in He.
Qed.

Lemma framed_invalidateQueries f :
  f = ns \/ (exists id, f = detail id) -> framed (invalidateQueries f).
Proof.
  intros Hf w k Hk. unfold invalidateQueries. cbn [snd cache with_cache].
  apply find_invalidate_other. now apply (@under_ns f k Hf).
Qed.

Lemma framed_surface o error fallback k name :
  framed (surface o error fallback k name).
Proof. apply framed_const. intros w. now rewrite surface_run. Qed.

Lemma framed_options_onSuccess o : framed (options_onSuccess o).
Proof.
  unfold options_onSuccess. destruct (with_onSuccess o);
    now apply framed_const.
Qed.

Lemma framed_execute {V R C} (P : C -> Prop) (o : MutationOptions V R C) v :
  framed (onMutate o v) ->
  (forall w ctx w1, onMutate o v w = (inr ctx, w1) -> P ctx) ->
  framed (mutationFn o v) ->
  (forall error, framed (onError o error v None)) ->
  (forall error ctx, P ctx -> framed (onError o error v (Some ctx))) ->
  (forall r, framed (onSuccess o r)) ->
  framed (onSettled o v) ->
  framed (execute o v).
Proof.
  intros Hmut Hp Hfn Hnone Hsome Hsucc Hset w.
  assert (Hfail : forall error ctx,
             (forall c, ctx = Some c -> P c) ->
             framed (onError o error v ctx ;; onSettled o v ;; @throw R error)).
  { intros error ctx Hctx. apply framed_bind.
    - destruct ctx as [c|]; [apply Hsome; now apply Hctx | apply Hnone].
    - intros _. apply framed_bind; [exact Hset | intros; apply framed_throw]. }
  unfold execute. pose proof (Hmut w) as H1.
  destruct (onMutate o v w) as [[error|ctx] w1] eqn:E.
  - apply (same_outside_trans H1). apply Hfail. discriminate.
  - assert (Hrun : framed (result <- mutationFn o v ;;
                           onSuccess o result ;; onSettled o v ;; ret result)).
    { apply framed_bind; [exact Hfn|]. intros r.
      apply framed_bind; [apply Hsucc|]. intros _.
      apply framed_bind; [exact Hset | intros; apply framed_ret]. }
    pose proof (Hrun w1) as H2. cbn [snd] in H1.
    destruct ((result <- mutationFn o v ;;
               onSuccess o result ;; onSettled o v ;; ret result) w1)
      as [[error|r] w2].
    + apply (same_outside_trans H1). apply (same_outside_trans H2).
      apply Hfail. intros c Hc. inversion Hc; subst. apply (Hp _ _ _ E).
    + apply (same_outside_trans H1). exact H2.
Qed.

(** The writers and the readers' query functions do not write the cache. *)
Lemma framed_updateStatus v : framed (updateStatus v).
Proof.
  apply framed_const. intros w. rewrite updateStatus_run.
  destruct (negb (onLine w)); [reflexivity|].
  destruct (r_error _); reflexivity.
Qed.

Lemma framed_updateMaterialRequest v : framed (updateMaterialRequest v).
Proof.
  apply framed_const. intros w. rewrite updateMaterialRequest_run.
  destruct (negb (onLine w)); [reflexivity|].
  destruct (r_error _); reflexivity.
Qed.

Lemma framed_deleteMaterialRequest id : framed (deleteMaterialRequest id).
Proof.
  apply framed_const. intros w. rewrite deleteMaterialRequest_run.
  destruct (negb (onLine w)); [reflexivity|].
  destruct (r_error _); reflexivity.
Qed.

Lemma framed_createMaterialRequest row : framed (createMaterialRequest row).
Proof.
  apply framed_const. intros w. rewrite CreateFacts.createMaterialRequest_run.
  destruct (negb (onLine w)); [reflexivity|].
  destruct (r_error _); reflexivity.
Qed.

Lemma fetch_list_cache f p s w :
  cache (snd (fetchMaterialRequests f p s w)) = cache w.
Proof.
  unfold fetchMaterialRequests, bind, navigator_onLine, call, throw, ret, emit.
  destruct (onLine w); simpl; [|reflexivity].
  destruct (r_error (select_list _ _ _)); simpl; [reflexivity|].
  destruct (r_data (select_list _ _ _)) as [[|r rows]|]; simpl;
    try reflexivity.
  destruct (r_error (select_profiles_in _ _ _)); reflexivity.
Qed.

Lemma fetch_single_cache id w :
  cache (snd (fetchMaterialRequest id w)) = cache w.
Proof.
  unfold fetchMaterialRequest, bind, navigator_onLine, call, throw, ret.
  destruct (onLine w); simpl; [|reflexivity].
  destruct (r_error (select_single _ _ _)); simpl; [reflexivity|].
  destruct (r_data (select_single _ _ _)); reflexivity.
Qed.

Lemma retryer_cache {A} retry delay (fn : M A) :
  (forall w, cache (snd (fn w)) = cache w) ->
  forall fuel failureCount w res w',
    retryer retry delay fn fuel failureCount w = Some (res, w') ->
    cache w' = cache w.
Proof.
  intros Hfn.
  assert (Hrun : forall w r w1,
             fn (with_event w EvQueryFn) = (r, w1) -> cache w1 = cache w).
  { intros w r w1 E. pose proof (Hfn (with_event w EvQueryFn)) as H.
    rewrite E in H. exact H. }
  induction fuel as [|fuel IH]; intros fc w res w' H; cbn [retryer] in H;
    destruct (fn (with_event w EvQueryFn)) as [[error|a] w1] eqn:E;
    pose proof (Hrun _ _ _ E) as Hc.
  - destruct (retry fc error); [discriminate|]. inversion H; subst. exact Hc.
  - inversion H; subst. exact Hc.
  - destruct (retry fc error).
    + apply IH in H. rewrite H. exact Hc.
    + inversion H; subst. exact Hc.
  - inversion H; subst. exact Hc.
Qed.

(** The four hooks. *)
Lemma snapshot_under_ns c q :
  In q (snapshot ns c) -> partialMatchKey (fst q) ns = true.
Proof.
  unfold snapshot, findAll. intros Hq. apply in_map_iff in Hq.
  destruct Hq as (e & <- & He). apply filter_In in He. apply He.
Qed.

Lemma framed_status_mutate o v : framed (useUpdateStatus.mutate o v).
Proof.
  unfold useUpdateStatus.mutate.
  apply (framed_execute
           (fun ctx => forall q, In q (useUpdateStatus.previousData ctx) ->
                                 partialMatchKey (fst q) ns = true));
    unfold useUpdateStatus.options;
    cbn [onMutate mutationFn onError onSettled onSuccess].
  - unfold useUpdateStatus.onMutate.
    apply framed_bind; [apply framed_ret|]. intros _.
    apply (framed_bind_post
             (fun queries => forall q, In q queries ->
                                       partialMatchKey (fst q) ns = true)).
    + now apply framed_const.
    + intros w a w1 E. unfold getQueriesData in E. inversion E; subst.
      intros q. apply snapshot_under_ns.
    + intros queries Hq. apply framed_bind; [|intros; apply framed_ret].
      apply framed_forEach. intros q Hin.
      apply framed_bind; [|intros; apply framed_ret].
      apply framed_setQueryData. now apply Hq.
  - intros w ctx w1 E. rewrite status_onMutate_run in E.
    inversion E; subst. cbn [useUpdateStatus.previousData].
    intros q. apply snapshot_under_ns.
  - apply framed_updateStatus.
  - intros error. unfold useUpdateStatus.onError.
    apply framed_bind; [apply framed_ret | intros; apply framed_surface].
  - intros error ctx Hctx. unfold useUpdateStatus.onError.
    apply framed_bind; [|intros; apply framed_surface].
    apply framed_forEach. intros q Hq.
    apply framed_bind; [|intros; apply framed_ret].
    unfold setQueryData_value. apply framed_setQueryData. now apply Hctx.
  - intros r. apply framed_options_onSuccess.
  - unfold useUpdateStatus.onSettled. apply framed_invalidateQueries.
    now left.
Qed.

Lemma framed_restore k d :
  partialMatchKey k ns = true ->
  framed (setQueryData_value k (Some d) ;; ret tt).
Proof.
  intros Hk. apply framed_bind; [|intros; apply framed_ret].
  unfold setQueryData_value. now apply framed_setQueryData.
Qed.

Lemma framed_update_mutate o v : framed (useUpdateMaterialRequest.mutate o v).
Proof.
  unfold useUpdateMaterialRequest.mutate.
  apply (framed_execute (fun _ => True));
    unfold useUpdateMaterialRequest.options;
    cbn [onMutate mutationFn onError onSettled onSuccess].
  - unfold useUpdateMaterialRequest.onMutate.
    apply framed_bind; [apply framed_ret|]. intros _.
    apply framed_bind; [now apply framed_const|]. intros previousRequests.
    apply framed_bind; [apply framed_setQueriesData|]. intros _.
    apply framed_bind; [now apply framed_const|]. intros previousRequest.
    apply framed_bind; [|intros; apply framed_ret].
    destruct previousRequest as [d|]; [|apply framed_ret].
    apply framed_restore. apply detail_key_matches.
  - trivial.
  - apply framed_updateMaterialRequest.
  - intros error. unfold useUpdateMaterialRequest.onError.
    apply framed_bind; [apply framed_ret|]. intros _.
    apply framed_bind; [apply framed_ret | intros; apply framed_surface].
  - intros error [[d1|] [d2|]] _; unfold useUpdateMaterialRequest.onError;
      (apply framed_bind;
       [ first [apply framed_restore; reflexivity | apply framed_ret]
       | intros _;
         apply framed_bind;
         [ first [apply framed_restore; apply detail_key_matches
                 | apply framed_ret]
         | intros; apply framed_surface ] ]).
  - intros r. apply framed_options_onSuccess.
  - unfold useUpdateMaterialRequest.onSettled.
    apply framed_bind; [apply framed_invalidateQueries; now left|].
    intros _. apply framed_invalidateQueries. right. now exists (p_id v).
Qed.

Lemma framed_delete_mutate o id : framed (useDeleteMaterialRequest.mutate o id).
Proof.
  unfold useDeleteMaterialRequest.mutate.
  apply (framed_execute (fun _ => True));
    unfold useDeleteMaterialRequest.options;
    cbn [onMutate mutationFn onError onSettled onSuccess].
  - unfold useDeleteMaterialRequest.onMutate.
    apply framed_bind; [apply framed_ret|]. intros _.
    apply framed_bind; [now apply framed_const|]. intros previousRequests.
    apply framed_bind; [apply framed_setQueriesData|].
    intros; apply framed_ret.
  - trivial.
  - apply framed_deleteMaterialRequest.
  - intros error. unfold useDeleteMaterialRequest.onError.
    apply framed_bind; [apply framed_ret | intros; apply framed_surface].
  - intros error [[d|]] _; unfold useDeleteMaterialRequest.onError;
      (apply framed_bind;
       [ first [apply framed_restore; reflexivity | apply framed_ret]
       | intros; apply framed_surface ]).
  - intros r. apply framed_options_onSuccess.
  - unfold useDeleteMaterialRequest.onSettled.
    apply framed_invalidateQueries. now left.
Qed.

Lemma framed_create_mutate o row : framed (useCreateMaterialRequest.mutate o row).
Proof.
  unfold useCreateMaterialRequest.mutate.
  apply (framed_execute (fun _ => True));
    unfold useCreateMaterialRequest.options;
    cbn [onMutate mutationFn onError onSettled onSuccess].
  - apply framed_ret.
  - trivial.
  - apply framed_createMaterialRequest.
  - intros error. apply framed_surface.
  - intros error ctx _. apply framed_surface.
  - intros r. unfold useCreateMaterialRequest.onSuccess.
    apply framed_bind; [apply framed_invalidateQueries; now left|].
    intros _. apply framed_options_onSuccess.
  - apply framed_ret.
Qed.

(** X22. Nothing outside the namespace is touched. A query whose key is
    not under the material-requests base key (the projects, the profile)
    keeps its data and its invalidation mark through every mutation of the
    four hooks, however the mutation ends, and through every read of the
    list and of a single request. *)
Theorem queries_outside_namespace_are_untouched (k : QueryKey) :
  partialMatchKey k ns = false ->
  (forall o v w,
      find_query k (cache (snd (useUpdateStatus.mutate o v w)))
      = find_query k (cache w)) /\
  (forall o v w,
      find_query k (cache (snd (useUpdateMaterialRequest.mutate o v w)))
      = find_query k (cache w)) /\
  (forall o id w,
      find_query k (cache (snd (useDeleteMaterialRequest.mutate o id w)))
      = find_query k (cache w)) /\
  (forall o row w,
      find_query k (cache (snd (useCreateMaterialRequest.mutate o row w)))
      = find_query k (cache w)) /\
  (forall f p s fuel w res w',
      useMaterialRequests_fetch f p s fuel w = Some (res, w') ->
      find_query k (cache w') = find_query k (cache w)) /\
  (forall id fuel w res w',
      useMaterialRequest_fetch id fuel w = Some (res, w') ->
      find_query k (cache w') = find_query k (cache w)).
Proof.
  intros Hk. split; [|split; [|split; [|split; [|split]]]].
  - intros o v w. now apply framed_status_mutate.
  - intros o v w. now apply framed_update_mutate.
  - intros o id w. now apply framed_delete_mutate.
  - intros o row w. now apply framed_create_mutate.
  - intros f p s fuel w res w'. unfold useMaterialRequests_fetch.
    destruct (retryer _ _ _ _ _ _) as [[[error|page] w1]|] eqn:E;
      [| |discriminate]; intros H; inversion H; subst;
      apply (retryer_cache _ _ _ (fetch_list_cache f p s)) in E.
    + now rewrite E.
    + cbn [cache with_cache]. rewrite find_set_data_other; [now rewrite E|].
      intros ->. rewrite list_key_matches in Hk. discriminate.
  - intros id fuel w res w'. unfold useMaterialRequest_fetch.
    destruct (retryer _ _ _ _ _ _) as [[[error|row] w1]|] eqn:E;
      [| |discriminate]; intros H; inversion H; subst;
      apply (retryer_cache _ _ _ (fetch_single_cache id)) in E.
    + now rewrite E.
    + cbn [cache with_cache]. rewrite find_set_data_other; [now rewrite E|].
      intros ->. rewrite detail_key_matches in Hk. discriminate.
Qed.

(** The cached projects through a refused approval of X. *)
Definition projects_entry : QueryEntry :=
  {| q_key := QUERY_KEYS.projects; q_data := Some (DArray []);
     q_invalidated := false |}.

Lemma queries_outside_namespace_are_untouched_witness :
  let w := Scenario.world true Scenario.refusing
             (projects_entry :: Scenario.read_cache) in
  partialMatchKey QUERY_KEYS.projects ns = false /\
  find_query QUERY_KEYS.projects
    (cache (snd (useUpdateStatus.mutate defaultHookOptions
                   Scenario.approve_X w)))
  = Some projects_entry.
Proof.
  intros w. split; [reflexivity|].
  destruct (@queries_outside_namespace_are_untouched QUERY_KEYS.projects
              eq_refl) as [Hstatus _].
  rewrite Hstatus. reflexivity.
Defined.

End FrameFacts.

(* ================================================================== *)
(** * Further embedding: the export feature *)

Module ExportData.
Import Errors Domain Store Fetch.

(** *** The CSV writer ([export-utils.ts]) *)

Definition quote : N := 34.
Definition comma : N := 44.
Definition newline : N := 10.

(** The cell with every quote character doubled (a global [replace]). *)
Definition escape_quotes (cell : JsString.t) : JsString.t :=
  flat_map (fun c => if N.eqb c quote then [quote; quote] else [c]) cell.

(** The cell as the template literal writes it, between quotes. *)
Definition quoted (cell : JsString.t) : JsString.t :=
  quote :: escape_quotes cell ++ [quote].

(** [Array.prototype.join]. *)
Fixpoint join (sep : JsString.t) (parts : list JsString.t) : JsString.t :=
  match parts with
  | [] => []
  | p :: ps =>
      match ps with
      | [] => p
      | _ :: _ => p ++ sep ++ join sep ps
      end
  end.

Definition csv_line (row : list JsString.t) : JsString.t :=
  join [comma] (map quoted row).

(** [csvContent]: the header line, unquoted, then one line per row. *)
Definition csvContent (headers : list JsString.t)
    (rows : list (list JsString.t)) : JsString.t :=
  join [newline] (join [comma] headers :: map csv_line rows).

(** *** A reader of quoted CSV

    Not part of the program: the reader against which the writer is
    checked. Fields are quoted, a doubled quote inside a field stands for
    one quote, a comma after a closing quote starts the next field and a
    line feed after a closing quote starts the next record. *)

Inductive Mode := Start | InField | AfterQuote.

Fixpoint read (mode : Mode) (cur : JsString.t) (cells : list JsString.t)
    (rows : list (list JsString.t)) (s : JsString.t)
  : option (list (list JsString.t)) :=
  match s with
  | [] =>
      match mode with
      | AfterQuote => Some (rev (rev (rev cur :: cells) :: rows))
      | _ => None
      end
  | c :: s' =>
      match mode with
      | Start =>
          if N.eqb c quote then read InField [] cells rows s' else None
      | InField =>
          if N.eqb c quote then read AfterQuote cur cells rows s'
          else read InField (c :: cur) cells rows s'
      | AfterQuote =>
          if N.eqb c quote then read InField (quote :: cur) cells rows s'
          else if N.eqb c comma
               then read Start [] (rev cur :: cells) rows s'
          else if N.eqb c newline
               then read Start [] [] (rev (rev cur :: cells) :: rows) s'
          else None
      end
  end.

Definition read_csv (s : JsString.t) : option (list (list JsString.t)) :=
  read Start [] [] [] s.

(** *** What the export selects ([use-export-data.ts]) *)

Definition unit_string (u : MaterialUnit) : string :=
  match u with
  | kg => "kg" | m => "m" | pieces => "pieces" | liters => "liters"
  | tons => "tons" | cubic_meters => "cubic_meters"
  | square_meters => "square_meters"
  end.

Definition gte_ (col val : string) : Constraint :=
  {| c_operator := "gte"; c_column := col; c_text := val; c_pattern := [] |}.

Definition lt_ (col val : string) : Constraint :=
  {| c_operator := "lt"; c_column := col; c_text := val; c_pattern := [] |}.

Section WithDates.

(** [Date], its [toISOString], and the day after ([setDate(getDate() + 1)]
    on a copy). *)
Variable Date : Type.
Variable toISOString : Date -> string.
Variable nextDay : Date -> Date.

(** [ExportFilters]; [null] and [undefined] are one absence. *)
Record ExportFilters := {
  x_status : option (OrAll MaterialRequestStatus);
  x_priority : option (OrAll MaterialRequestPriority);
  x_unit : option (OrAll MaterialUnit);
  dateFrom : option Date;
  dateTo : option Date
}.

Record ExportQuery := {
  x_order : string;
  x_ascending : bool;
  x_limit : Z;
  x_constraints : list Constraint
}.

(** The query of [fetchExportData], built up filter by filter. *)
Definition export_query (filters : ExportFilters) (limit : Z)
    (sortColumn : string) (sortDirection : Direction) : ExportQuery :=
  let with_ (q : ExportQuery) (c : Constraint) : ExportQuery :=
    {| x_order := x_order q; x_ascending := x_ascending q;
       x_limit := x_limit q; x_constraints := x_constraints q ++ [c] |} in
  let q0 :=
    {| x_order := sortColumn;
       x_ascending := match sortDirection with asc => true | desc => false end;
       x_limit := limit;
       x_constraints := [] |} in
  let q1 :=
    match x_status filters with
    | Some (only s) => with_ q0 (eq_ "status" (status_string s))
    | _ => q0
    end in
  let q2 :=
    match x_priority filters with
    | Some (only p) => with_ q1 (eq_ "priority" (priority_string p))
    | _ => q1
    end in
  let q3 :=
    match x_unit filters with
    | Some (only u) => with_ q2 (eq_ "unit" (unit_string u))
    | _ => q2
    end in
  let q4 :=
    match dateFrom filters with
    | Some d => with_ q3 (gte_ "requested_at" (toISOString d))
    | None => q3
    end in
  match dateTo filters with
  | Some d => with_ q4 (lt_ "requested_at" (toISOString (nextDay d)))
  | None => q4
  end.

(** The query of [fetchTotalCount], a head request with an exact count. *)
Definition count_query (filters : ExportFilters) : list Constraint :=
  let q0 : list Constraint := [] in
  let q1 :=
    match x_status filters with
    | Some (only s) => q0 ++ [eq_ "status" (status_string s)]
    | _ => q0
    end in
  let q2 :=
    match x_priority filters with
    | Some (only p) => q1 ++ [eq_ "priority" (priority_string p)]
    | _ => q1
    end in
  let q3 :=
    match x_unit filters with
    | Some (only u) => q2 ++ [eq_ "unit" (unit_string u)]
    | _ => q2
    end in
  let q4 :=
    match dateFrom filters with
    | Some d => q3 ++ [gte_ "requested_at" (toISOString d)]
    | None => q3
    end in
  match dateTo filters with
  | Some d => q4 ++ [lt_ "requested_at" (toISOString (nextDay d))]
  | None => q4
  end.

End WithDates.

End ExportData.

(* ================================================================== *)
(** * Further properties: the export feature *)

Module ExportFacts.
Import Errors Domain Store Fetch ExportData.

Lemma join_cons sep p ps :
  join sep (p :: ps) = p ++ flat_map (fun x => sep ++ x) ps.
Proof.
  revert p. induction ps as [|q ps IH]; intros p.
  - cbn [join flat_map]. now rewrite app_nil_r.
  - change (join sep (p :: q :: ps)) with (p ++ sep ++ join sep (q :: ps)).
    rewrite IH. cbn [flat_map]. now rewrite <- app_assoc.
Qed.

(** Reading the inside of a quoted cell up to its closing quote. *)
Lemma read_cell cell : forall cur cells rows rest,
  read InField cur cells rows (escape_quotes cell ++ quote :: rest)
  = read AfterQuote (rev cell ++ cur) cells rows rest.
Proof.
  induction cell as [|c cell IH]; intros cur cells rows rest.
  - reflexivity.
  - cbn [escape_quotes flat_map]. fold (escape_quotes cell).
    destruct (N.eqb c quote) eqn:E.
    + apply N.eqb_eq in E. subst c. cbn [app read]. cbn [N.eqb quote Pos.eqb].
      rewrite IH. cbn [rev]. now rewrite <- app_assoc.
    + cbn [app read]. rewrite E. rewrite IH. cbn [rev].
      now rewrite <- app_assoc.
Qed.

Lemma read_quoted cell cells rows rest :
  read Start [] cells rows (quoted cell ++ rest)
  = read AfterQuote (rev cell) cells rows rest.
Proof.
  unfold quoted. cbn [app read]. cbn [N.eqb quote Pos.eqb].
  rewrite <- app_assoc. cbn [app]. rewrite read_cell. now rewrite app_nil_r.
Qed.

(** Reading the cells that follow the first one of a line. *)
Lemma read_cells more : forall cur cells rows rest,
  exists cur' cells',
    read AfterQuote cur cells rows
         (flat_map (fun x => [comma] ++ x) (map quoted more) ++ rest)
    = read AfterQuote cur' cells' rows rest /\
    rev (rev cur' :: cells') = rev (rev cur :: cells) ++ more.
Proof.
  induction more as [|c more IH]; intros cur cells rows rest.
  - exists cur, cells. split; [reflexivity | now rewrite app_nil_r].
  - cbn [map flat_map]. rewrite <- !app_assoc. cbn [app read].
    cbn [N.eqb comma quote Pos.eqb]. rewrite read_quoted.
    destruct (IH (rev c) (rev cur :: cells) rows rest)
      as (cur' & cells' & Hr & Hrow).
    exists cur', cells'. split; [exact Hr|].
    rewrite Hrow. rewrite rev_involutive.
    change (rev (c :: rev cur :: cells)) with (rev (rev cur :: cells) ++ [c]).
    now rewrite <- app_assoc.
Qed.

(** Reading one line, from its first cell to its last closing quote. *)
Lemma read_line cell more rows rest :
  exists cur cells,
    read Start [] [] rows (csv_line (cell :: more) ++ rest)
    = read AfterQuote cur cells rows rest /\
    rev (rev cur :: cells) = cell :: more.
Proof.
  unfold csv_line. cbn [map]. rewrite join_cons, <- app_assoc, read_quoted.
  destruct (read_cells more (rev cell) [] rows rest)
    as (cur & cells & Hr & Hrow).
  exists cur, cells. split; [exact Hr|].
  rewrite Hrow. cbn [rev app]. now rewrite rev_involutive.
Qed.

Lemma read_lines more : forall cur cells rows,
  Forall (fun row => row <> []) more ->
  read AfterQuote cur cells rows
       (flat_map (fun x => [newline] ++ x) (map csv_line more))
  = Some (rev rows ++ rev (rev cur :: cells) :: more).
Proof.
  induction more as [|row more IH]; intros cur cells rows Hne.
  - cbn [map flat_map read]. cbn [rev]. reflexivity.
  - inversion Hne as [|? ? Hrow Hmore]; subst.
    destruct row as [|cell cs]; [congruence|].
    cbn [map flat_map]. cbn [app read].
    cbn [N.eqb newline comma quote Pos.eqb].
    change (fun x : list N => newline :: x)
      with (fun x : list N => [newline] ++ x).
    destruct (read_line cell cs (rev (rev cur :: cells) :: rows)
                (flat_map (fun x => [newline] ++ x) (map csv_line more)))
      as (cur' & cells' & Hr & Hrow').
    rewrite Hr, (IH _ _ _ Hmore), Hrow'. cbn [rev].
    now rewrite <- app_assoc.
Qed.

(** X23. The CSV writer loses nothing. The content written is the header
    line, a line feed, and the data lines; and whatever the cells hold,
    commas, quotes and line feeds included, reading the data lines back
    with a reader of quoted CSV gives the rows that were written, cell for
    cell, provided there is a row and each row has a cell (an export row
    has eight). *)
Theorem csv_round_trip (headers : list JsString.t) (row : list JsString.t)
    (rows : list (list JsString.t)) :
  Forall (fun r => r <> []) (row :: rows) ->
  exists data,
    csvContent headers (row :: rows)
    = join [comma] headers ++ newline :: data /\
    read_csv data = Some (row :: rows).
Proof.
  intros Hne. exists (join [newline] (map csv_line (row :: rows))). split.
  - unfold csvContent. cbn [map]. rewrite !join_cons. cbn [flat_map].
    rewrite <- !app_assoc. reflexivity.
  - inversion Hne as [|? ? Hrow Hrows]; subst.
    destruct row as [|cell cs]; [congruence|].
    unfold read_csv. cbn [map]. rewrite join_cons.
    destruct (read_line cell cs []
                (flat_map (fun x => [newline] ++ x) (map csv_line rows)))
      as (cur & cells & Hr & Hrow').
    rewrite Hr, (read_lines _ _ _ Hrows), Hrow'. reflexivity.
Qed.

(** Two rows; the first has a cell holding a quote, a comma and a line
    feed. *)
Lemma csv_round_trip_witness :
  let rows := [[[34; 44; 10]%N; []]; [JsString.of_ascii "Steel"]] in
  Forall (fun r : list JsString.t => r <> []) rows /\
  exists data,
    csvContent [JsString.of_ascii "Material Name"; JsString.of_ascii "Notes"]
               rows
    = JsString.of_ascii "Material Name,Notes" ++ newline :: data /\
    read_csv data = Some rows.
Proof.
  intros rows.
  assert (H : Forall (fun r : list JsString.t => r <> []) rows)
    by (repeat constructor; discriminate).
  split; [exact H|].
  destruct (@csv_round_trip
              [JsString.of_ascii "Material Name"; JsString.of_ascii "Notes"]
              _ _ H) as (data & Hc & Hr).
  exists data. split; [exact Hc | exact Hr].
Defined.

(** X24. The count query and the export query select alike: for every
    filter setting [fetchTotalCount] and [fetchExportData] put the same
    constraints on the rows, in the same order, and the export asks for at
    most the configured limit. With no unit and no dates chosen these are
    the constraints the list page puts on its query for the same status and
    priority and an empty search; an end date selects up to, and not
    including, the start of the following day. This is a fact of the two
    query builders: which count the dialog holds at a given moment is not
    part of it. *)
Theorem count_and_export_select_alike (Date : Type)
    (toISOString : Date -> string) (nextDay : Date -> Date)
    (filters : ExportFilters Date) (limit : Z) (sortColumn : string)
    (sortDirection : Direction) :
  x_constraints (export_query toISOString nextDay filters limit sortColumn
                              sortDirection)
  = count_query toISOString nextDay filters /\
  x_limit (export_query toISOString nextDay filters limit sortColumn
                        sortDirection) = limit /\
  (match x_unit filters with Some (only _) => False | _ => True end ->
   dateFrom filters = None -> dateTo filters = None ->
   forall p s search,
     search = None \/ search = Some [] ->
     q_constraints
       (buildQuery (Some {| f_status := x_status filters;
                            f_priority := x_priority filters;
                            f_search := search |}) p s)
     = count_query toISOString nextDay filters) /\
  (forall d, dateTo filters = Some d ->
     In (lt_ "requested_at" (toISOString (nextDay d)))
        (count_query toISOString nextDay filters) /\
     forall c, In c (count_query toISOString nextDay filters) ->
               c_operator c = "lt" ->
               c = lt_ "requested_at" (toISOString (nextDay d))).
Proof.
  destruct filters as [st pr un df dt]. unfold export_query, count_query.
  cbn [x_status x_priority x_unit dateFrom dateTo].
  split; [|split; [|split]].
  - destruct st as [[|s]|], pr as [[|p]|], un as [[|u]|], df as [d1|],
      dt as [d2|]; reflexivity.
  - destruct st as [[|s]|], pr as [[|p]|], un as [[|u]|], df as [d1|],
      dt as [d2|]; reflexivity.
  - intros Hu -> -> p s search Hs. unfold buildQuery.
    cbn [q_constraints statusConstraint priorityConstraint searchConstraint
         f_status f_priority f_search].
    destruct Hs as [-> | ->];
      destruct st as [[|s0]|], pr as [[|p0]|], un as [[|u]|];
      try contradiction; reflexivity.
  - intros d ->. split.
    + apply in_or_app. right. now left.
    + intros c Hc Hop. apply in_app_or in Hc. destruct Hc as [Hc|[<-|[]]];
        [|reflexivity].
      exfalso.
      destruct st as [[|s]|], pr as [[|p]|], un as [[|u]|], df as [d1|];
        cbn in Hc;
        repeat match goal with
               | H : _ \/ _ |- _ => destruct H
               | H : False |- _ => destruct H
               end; subst c; discriminate Hop.
Qed.

End ExportFacts.

(* ================================================================== *)
(** * Further embedding: the other parsers *)

Module Parsers.
Import Errors Guards.

Section WithLowerCase.

Variable toLowerCase : string -> string.

(** *** [parseAuthError] *)

(** A Supabase [AuthError] as the parser reads it; its status only goes
    into the context. *)
Record AuthError := {
  a_name : string;
  a_message : string
}.

(** [errorMap], in the order of its entries. *)
Definition errorMap : list (string * ErrorCode) :=
  [("invalid_credentials", AUTH_INVALID_CREDENTIALS);
   ("Invalid login credentials", AUTH_INVALID_CREDENTIALS);
   ("user_not_found", AUTH_USER_NOT_FOUND);
   ("User not found", AUTH_USER_NOT_FOUND);
   ("email_not_confirmed", AUTH_EMAIL_NOT_CONFIRMED);
   ("Email not confirmed", AUTH_EMAIL_NOT_CONFIRMED);
   ("user_already_exists", AUTH_EMAIL_ALREADY_EXISTS);
   ("User already registered", AUTH_EMAIL_ALREADY_EXISTS);
   ("weak_password", AUTH_WEAK_PASSWORD);
   ("session_expired", AUTH_SESSION_EXPIRED);
   ("JWT expired", AUTH_SESSION_EXPIRED);
   ("Refresh Token Not Found", AUTH_SESSION_EXPIRED);
   ("unauthorized", AUTH_UNAUTHORIZED)].

(** The loop over the entries: the first key found in the error key. *)
Definition matched_code (errorKey : string) : ErrorCode :=
  match find (fun kv => includes (toLowerCase errorKey) (toLowerCase (fst kv)))
             errorMap with
  | Some kv => snd kv
  | None => AUTH_INVALID_CREDENTIALS
  end.

Definition parseAuthError (error : AuthError) : AppError :=
  let errorKey :=
    if String.eqb (a_name error) "" then a_message error else a_name error in
  let code := matched_code errorKey in
  if includes (a_message error) "Email rate limit exceeded" then
    new_AppError
      {| opt_code := AUTH_INVALID_CREDENTIALS;
         opt_message := a_message error;
         opt_userMessage :=
           Some "Too many attempts. Please wait a few minutes and try again.";
         opt_postgrestCode := None; opt_severity := Some MEDIUM;
         opt_recoverable := None |}
  else if includes (a_message error) "Password should be" then
    new_AppError
      {| opt_code := AUTH_WEAK_PASSWORD;
         opt_message := a_message error;
         opt_userMessage := Some (a_message error);
         opt_postgrestCode := None; opt_severity := None;
         opt_recoverable := None |}
  else
    new_AppError
      {| opt_code := code;
         opt_message := a_message error;
         opt_userMessage := None;
         opt_postgrestCode := None; opt_severity := None;
         opt_recoverable := None |}.

(** *** [parseError] on what the readers and writers throw *)

Definition isNetworkLikeError (name msg : string) : bool :=
  let message := toLowerCase msg in
  includes message "network" || includes message "fetch"
  || includes message "connection" || includes message "timeout"
  || includes message "offline"
  || (String.eqb name "TypeError" && includes message "failed to fetch").

(** [parseError(error)] for a thrown [AppError] or a plain [Error], which
    has neither the fields of an auth error nor those of a store error. *)
Definition parseError (onLine : bool) (error : Thrown) : AppError :=
  match error with
  | ThrownApp e => e
  | ThrownOther name msg =>
      if isNetworkLikeError name msg
      then parseNetworkError toLowerCase onLine msg
      else
        new_AppError
          {| opt_code := UNEXPECTED_ERROR; opt_message := msg;
             opt_userMessage := None; opt_postgrestCode := None;
             opt_severity := None; opt_recoverable := None |}
  end.

(** [getErrorMessage(error)]. *)
Definition getErrorMessage (onLine : bool) (error : Thrown) : string :=
  match error with
  | ThrownApp e => userMessage e
  | _ => userMessage (parseError onLine error)
  end.

End WithLowerCase.

End Parsers.

(* ================================================================== *)
(** * Further properties: the other parsers *)

Module ParserFacts.
Import Errors Guards Parsers.

Lemma matched_code_is_auth toLowerCase errorKey :
  startsWith (code_string (matched_code toLowerCase errorKey)) "AUTH_" = true.
Proof.
  unfold matched_code.
  destruct (find _ errorMap) as [kv|] eqn:E; [|reflexivity].
  apply find_some in E. destruct E as [Hin _].
  unfold errorMap in Hin. cbn [In] in Hin.
  repeat (destruct Hin as [<-|Hin]; [reflexivity|]). destruct Hin.
Qed.

(** X25. Every error [parseAuthError] returns is an authentication error,
    whatever the lowercasing: its kind starts with AUTH_, so that
    [isAuthError] accepts it and [isNetworkError] does not; it keeps the
    message; its severity is medium exactly for a rate-limit message and
    high otherwise; its user message is never empty; and it is
    non-recoverable exactly when the kind is AUTH_UNAUTHORIZED. *)
Theorem auth_errors_stay_auth_errors (toLowerCase : string -> string)
    (error : AuthError) :
  let a := parseAuthError toLowerCase error in
  isAuthError (ThrownApp a) = true /\
  isNetworkError toLowerCase (ThrownApp a) = false /\
  message a = a_message error /\
  (severity a = MEDIUM <->
   includes (a_message error) "Email rate limit exceeded" = true) /\
  (includes (a_message error) "Email rate limit exceeded" = false ->
   severity a = HIGH) /\
  userMessage a <> "" /\
  (recoverable a = false <-> code a = AUTH_UNAUTHORIZED).
Proof.
  cbv zeta. unfold parseAuthError, isAuthError, isNetworkError.
  set (errorKey := if String.eqb (a_name error) "" then a_message error
                   else a_name error).
  pose proof (matched_code_is_auth toLowerCase errorKey) as Hauth.
  destruct (includes (a_message error) "Email rate limit exceeded") eqn:Er.
  - repeat split; try reflexivity; try discriminate.
  - destruct (includes (a_message error) "Password should be") eqn:Ep.
    + unfold new_AppError.
      cbn [code message severity recoverable userMessage opt_code opt_message
           opt_severity opt_recoverable opt_userMessage].
      repeat split; try reflexivity; try discriminate.
      destruct (String.eqb (a_message error) "") eqn:Em; [discriminate|].
      now apply String.eqb_neq.
    + unfold new_AppError.
      cbn [code message severity recoverable userMessage opt_code opt_message
           opt_severity opt_recoverable opt_userMessage].
      unfold getDefaultSeverity, isRecoverableByDefault. rewrite Hauth.
      destruct (matched_code toLowerCase errorKey); try discriminate Hauth;
        repeat split; try reflexivity; try discriminate.
Qed.

(** X26. What [parseError] makes of a thrown error, for any lowercasing. An
    [AppError] is returned as it is. A plain [Error] keeps its message and
    becomes a recoverable error of severity medium: one of the three
    network kinds exactly when its message (or a TypeError about a failed
    fetch) looks like a network problem, and UNEXPECTED_ERROR otherwise;
    the message shown for it is the default of its kind and is never empty.
    Whatever the fallback titles a connection error is parsed as a network
    error. *)
Theorem thrown_errors_are_classified (toLowerCase : string -> string)
    (onLine : bool) :
  (forall e, parseError toLowerCase onLine (ThrownApp e) = e) /\
  (forall name msg,
      let a := parseError toLowerCase onLine (ThrownOther name msg) in
      message a = msg /\
      recoverable a = true /\ severity a = MEDIUM /\
      (isNetworkLikeError toLowerCase name msg = true ->
       In (code a)
          [NETWORK_OFFLINE; NETWORK_TIMEOUT; NETWORK_CONNECTION_FAILED]) /\
      (isNetworkLikeError toLowerCase name msg = false ->
       code a = UNEXPECTED_ERROR) /\
      getErrorMessage toLowerCase onLine (ThrownOther name msg)
      = getDefaultUserMessage (code a) /\
      getErrorMessage toLowerCase onLine (ThrownOther name msg) <> "" /\
      (isNetworkError toLowerCase (ThrownOther name msg) = true ->
       isNetworkError toLowerCase (ThrownApp a) = true)).
Proof.
  split; [reflexivity|].
  intros name msg. cbv zeta.
  unfold getErrorMessage, parseError, isNetworkLikeError, isNetworkError,
    parseNetworkError.
  destruct onLine;
    repeat match goal with
           | |- context [includes ?a ?b] => destruct (includes a b)
           end;
    destruct (String.eqb name "TypeError");
    cbn;
    repeat split; try reflexivity; try discriminate; auto;
    intros H; first [discriminate H | contradiction | idtac].
Qed.

End ParserFacts.
